(** * infra-decom-logs: a shallow embedding of the decommissioning agents

    The repository is a set of Python agents that delete the resources of
    a cloud account through boto3 and through sub-processes.  Every agent
    is a sequence of remote calls wrapped in [try]/[except] blocks, with an
    in-memory log (a dict of lists and counters) that is mutated on the way.

    The embedding follows that shape:
    - a remote call is an element of [Call]; what the provider answers is
      given by an [Oracle], a function of the calls issued so far and of
      the call, returning a [Response] or raising an exception;
    - an agent method is a function in the monad [M L], which threads the
      list of calls issued so far, the text printed so far and the agent's
      log of type [L], and which keeps the state when an exception is
      raised, as a Python object keeps its mutations;
    - [try_except] is Python's [try: ... except Exception: ...].

    Time stamps and durations written into the logs are left out: nothing
    below reads them. *)

From Stdlib Require Import String Ascii List Arith NArith ZArith Lia Bool.
From Stdlib Require Import DecimalString Sorted Permutation.
Import ListNotations.
Open Scope string_scope.

Set Implicit Arguments.

(* ------------------------------------------------------------------ *)
(** ** Python string primitives

    Text is a sequence of bytes.  [lower] folds the ASCII letters only and
    [findall_digits] recognises the ASCII digits only; on ASCII text they
    agree with [str.lower] and [re.findall(r'\d+', _)]. *)

Module Py.

Definition lower_ascii (c : ascii) : ascii :=
  let n := nat_of_ascii c in
  if Nat.leb 65 n && Nat.leb n 90 then ascii_of_nat (n + 32) else c.

Fixpoint lower (s : string) : string :=
  match s with
  | EmptyString => EmptyString
  | String c t => String (lower_ascii c) (lower t)
  end.

(** [contains needle hay] is [needle in hay]. *)
Fixpoint contains (needle hay : string) : bool :=
  if String.prefix needle hay then true
  else match hay with
       | EmptyString => false
       | String _ t => contains needle t
       end.

(** [startswith s p] is [s.startswith(p)]. *)
Definition startswith (s p : string) : bool := String.prefix p s.

Definition is_digit (c : ascii) : bool :=
  let n := nat_of_ascii c in Nat.leb 48 n && Nat.leb n 57.

Definition is_empty (s : string) : bool :=
  match s with EmptyString => true | _ => false end.

(** The maximal runs of digits of [s], left to right; [cur] is the run
    being read. *)
Fixpoint digit_runs (s cur : string) : list string :=
  match s with
  | EmptyString => if is_empty cur then [] else [cur]
  | String c t =>
      if is_digit c then digit_runs t (cur ++ String c EmptyString)
      else if is_empty cur then digit_runs t EmptyString
           else cur :: digit_runs t EmptyString
  end.

(** [re.findall(r'\d+', s)] *)
Definition findall_digits (s : string) : list string :=
  digit_runs s EmptyString.

Fixpoint int_acc (s : string) (acc : N) : N :=
  match s with
  | EmptyString => acc
  | String c t => int_acc t (10 * acc + N.of_nat (nat_of_ascii c - 48))
  end.

(** [int(s)] on a run of digits. *)
Definition int (s : string) : N := int_acc s 0%N.

(** [str(n)], the decimal numeral of an f-string. *)
Definition str (n : N) : string := NilEmpty.string_of_uint (N.to_uint n).

Definition nl : string := String "010"%char EmptyString.

Fixpoint split_acc (s cur : string) : list string :=
  match s with
  | EmptyString => [cur]
  | String c t =>
      if Ascii.eqb c "010"%char then cur :: split_acc t EmptyString
      else split_acc t (cur ++ String c EmptyString)
  end.

(** [s.split('\n')] *)
Definition split_lines (s : string) : list string := split_acc s EmptyString.

(** [sorted(l, key=key)]: Python's sort is stable, and a stable sort by a
    key has one possible result, the one insertion from the right builds. *)
Section Sort.
Variable A : Type.
Variable key : A -> nat.

Fixpoint insert_by (x : A) (l : list A) : list A :=
  match l with
  | [] => [x]
  | y :: l' => if Nat.leb (key x) (key y) then x :: l else y :: insert_by x l'
  end.

Fixpoint sorted_by (l : list A) : list A :=
  match l with
  | [] => []
  | x :: l' => insert_by x (sorted_by l')
  end.
End Sort.

(** [l[i:i+1000] for i in range(0, len(l), 1000)], with the batch size as
    a parameter.  [fuel] bounds the number of batches. *)
Fixpoint batches_fuel (A : Type) (fuel size : nat) (l : list A) : list (list A) :=
  match fuel with
  | O => []
  | S fuel' =>
      match l with
      | [] => []
      | _ => firstn size l :: batches_fuel fuel' size (skipn size l)
      end
  end.

Definition batches (A : Type) (size : nat) (l : list A) : list (list A) :=
  batches_fuel (length l) size l.

End Py.

(* ------------------------------------------------------------------ *)
(** ** Remote calls, responses and exceptions *)

(** A tag as boto3 returns it, a dict read with [tag.get('Key')] and
    [tag.get('Value')]: either entry may be missing. *)
Record Tag := mkTag { tag_Key : option string; tag_Value : option string }.

Record ObjectId := mkObj { obj_Key : string; obj_VersionId : option string }.

(** One page of [list_object_versions]. *)
Record VersionPage := mkVersionPage
  { page_Versions : list ObjectId; page_DeleteMarkers : list ObjectId }.

(** An entry of [describe_stacks()['Stacks']]. *)
Record StackDetail := mkStackDetail
  { stack_Tags : option (list Tag);
    stack_EnableTerminationProtection : option bool }.

(** An entry of [describe_db_instances()['DBInstances']]. *)
Record DBDetail := mkDBDetail
  { db_Arn : string; db_DeletionProtection : option bool }.

Record InternetGateway := mkIgw
  { igw_Id : string; igw_Attachments : list string (* VpcId *) }.

Record SecurityGroup := mkSg { sg_GroupId : string; sg_GroupName : string }.

Record Vpc := mkVpc { vpc_VpcId : string; vpc_IsDefault : bool }.

(** A route table: its id and the [Main] flag of each association
    ([assoc.get('Main', False)]). *)
Record RouteTable := mkRt { rt_Id : string; rt_AssociationsMain : list bool }.

Inductive Call : Type :=
  (* sts, regions *)
  | GetCallerIdentity
  | DescribeRegions
  (* s3 *)
  | ListBuckets
  | HeadBucket (bucket : string)
  | GetBucketTagging (bucket : string)
  | ListObjectVersions (bucket : string)
  | ListObjectsV2 (bucket : string)
  | DeleteObjects (bucket : string) (objects : list ObjectId)
  | DeleteBucketPolicy (bucket : string)
  | DeleteBucketLifecycle (bucket : string)
  | DeleteBucketCors (bucket : string)
  | PutBucketVersioning (bucket : string)
  | PutBucketNotificationConfiguration (bucket : string)
  | DeleteBucket (bucket : string)
  (* cloudformation *)
  | ListStacks (region : string)
  | DescribeStacks (region name : string)
  | UpdateTerminationProtection (region name : string)
  | DeleteStack (region name : string)
  | WaitStackDeleteComplete (region name : string)
  (* lambda *)
  | ListFunctions (region : string)
  | GetFunction (region name : string)
  | ListTags (region arn : string)
  | DeleteFunction (region name : string)
  (* rds *)
  | DescribeDBInstances (region id : string)
  | ListTagsForResource (region arn : string)
  | ModifyDBInstance (region id : string)
  | DeleteDBInstance (region id : string)
  (* ec2 *)
  | DescribeTags (region id : string)
  | DescribeInstances (region : string)
  | DescribeInstanceAttribute (region id : string)
  | ModifyInstanceAttribute (region id : string)
  | TerminateInstances (region : string) (ids : list string)
  | DescribeNatGateways (region : string)
  | DeleteNatGateway (region id : string)
  | DescribeInternetGateways (region : string)
  | DetachInternetGateway (region igw vpc : string)
  | DeleteInternetGateway (region id : string)
  | DescribeSecurityGroups (region : string)
  | DeleteSecurityGroup (region id : string)
  | DescribeVpcs (region : string)
  | DescribeSubnets (region vpc : string)
  | DeleteSubnet (region id : string)
  | DescribeRouteTables (region vpc : string)
  | DeleteRouteTable (region id : string)
  | DeleteVpc (region id : string)
  (* time.sleep, the file system, subprocess.run *)
  | Sleep (seconds : nat)
  | WriteFile (path : string)
  | Chmod (path : string)
  | RunPython (script profile : string)
  | AwsCli (args : list string)
  | Shell (command : string).

(** What a call returns.  A paginator is answered in one piece, as the
    list of its pages. *)
Inductive Response : Type :=
  | RNone
  | RAccount (id : string)
  | RRegions (names : list string)
  | RBuckets (names : list string)
  | RTagSet (tags : list Tag)
  | RTagMap (tags : list (string * string))
  | RVersionPages (pages : list VersionPage)
  | RObjectPages (pages : list (list string))
  | RStacks (stacks : list StackDetail)
  | RStackSummaries (pages : list (list string))
  | RFunctionArn (arn : string)
  | RFunctions (pages : list (list string))
  | RDBInstances (dbs : list DBDetail)
  | RDisableApiTermination (value : option bool)
  | RReservations (reservations : list (list string))
  | RNatGateways (ids : list string)
  | RInternetGateways (igws : list InternetGateway)
  | RSecurityGroups (sgs : list SecurityGroup)
  | RVpcs (vpcs : list Vpc)
  | RSubnets (ids : list string)
  | RRouteTables (rts : list RouteTable)
  | RProcess (returncode : Z) (stdout stderr : string).

(** Python exceptions: botocore's [ClientError] with its error code and
    its [str(e)], [subprocess.TimeoutExpired], and any other [Exception]
    ([KeyError], [IndexError], a connection error, ...) with its [str(e)]. *)
Inductive exn : Type :=
  | ClientError (code msg : string)
  | TimeoutExpired
  | OtherException (msg : string).

Definition exn_str (e : exn) : string :=
  match e with
  | ClientError _ msg => msg
  | TimeoutExpired => "TimeoutExpired"
  | OtherException msg => msg
  end.

Inductive res (A : Type) : Type :=
  | Ok (a : A)
  | Raise (e : exn).
Arguments Ok {A} a.
Arguments Raise {A} e.

(** The provider: the answer to a call, given the calls issued before. *)
Definition Oracle : Type := list Call -> Call -> res Response.

(* ------------------------------------------------------------------ *)
(** ** The monad of an agent method *)

Section Monad.
Variable L : Type.

Record St : Type := mkSt
  { trace : list Call;   (* calls issued so far, oldest first *)
    out : string;        (* text printed so far *)
    log : L }.

Definition M (A : Type) : Type := Oracle -> St -> res A * St.

Definition ret (A : Type) (a : A) : M A := fun _ st => (Ok a, st).

Definition raise (A : Type) (e : exn) : M A := fun _ st => (Raise e, st).

Definition bind (A B : Type) (m : M A) (f : A -> M B) : M B :=
  fun w st =>
    match m w st with
    | (Ok a, st') => f a w st'
    | (Raise e, st') => (Raise e, st')
    end.

(** [try: m except Exception as e: h e] *)
Definition try_except (A : Type) (m : M A) (h : exn -> M A) : M A :=
  fun w st =>
    match m w st with
    | (Ok a, st') => (Ok a, st')
    | (Raise e, st') => h e w st'
    end.

(** [try: m except ClientError as e: h code str(e)] *)
Definition try_except_client (A : Type) (m : M A)
    (h : string -> string -> M A) : M A :=
  try_except m (fun e =>
    match e with
    | ClientError code msg => h code msg
    | _ => raise A e
    end).

Definition call (c : Call) : M Response :=
  fun w st =>
    (w (trace st) c,
     {| trace := trace st ++ [c]; out := out st; log := log st |}).

Definition modify (f : L -> L) : M unit :=
  fun _ st =>
    (Ok tt, {| trace := trace st; out := out st; log := f (log st) |}).

Definition get_log : M L := fun _ st => (Ok (log st), st).

(** [time.sleep(seconds)]: recorded among the calls, it never raises. *)
Definition sleep (seconds : nat) : M unit :=
  fun _ st =>
    (Ok tt,
     {| trace := trace st ++ [Sleep seconds]; out := out st;
        log := log st |}).

(** [print(s)] *)
Definition print (s : string) : M unit :=
  fun _ st =>
    (Ok tt,
     {| trace := trace st; out := out st ++ s ++ Py.nl; log := log st |}).

(** [for x in xs: body x] *)
Fixpoint for_each (X : Type) (xs : list X) (body : X -> M unit) : M unit :=
  match xs with
  | [] => ret tt
  | x :: xs' => bind (body x) (fun _ => for_each xs' body)
  end.

Definition when (b : bool) (m : M unit) : M unit :=
  if b then m else ret tt.
End Monad.

Arguments ret {L A} a.
Arguments raise {L A} e.
Arguments bind {L A B} m f.
Arguments try_except {L A} m h.
Arguments try_except_client {L A} m h.
Arguments call {L} c.
Arguments modify {L} f.
Arguments get_log {L}.
Arguments print {L} s.
Arguments sleep {L} seconds.
Arguments for_each {L X} xs body.
Arguments when {L} b m.
Arguments mkSt {L} trace out log.
Arguments trace {L} s.
Arguments out {L} s.
Arguments log {L} s.

Declare Scope agent_scope.
Delimit Scope agent_scope with agent.
Notation "x <- m ;; k" := (bind m (fun x => k))
  (at level 61, m at next level, right associativity) : agent_scope.
Notation "m ;;; k" := (bind m (fun _ => k))
  (at level 61, right associativity) : agent_scope.
Open Scope agent_scope.

(** [try: m except: pass] *)
Definition try_pass {L : Type} (m : M L unit) : M L unit :=
  try_except m (fun _ => ret tt).

(** What Python raises when a response lacks the entry the code indexes. *)
Definition KeyError {L A : Type} (key : string) : M L A :=
  raise (OtherException ("KeyError: " ++ key)).

(** [d.get(key, default)] on an entry that may be missing. *)
Definition get_or {A : Type} (o : option A) (default : A) : A :=
  match o with Some a => a | None => default end.

(** [l[0]] *)
Definition first_of {L A : Type} (l : list A) : M L A :=
  match l with
  | a :: _ => ret a
  | [] => raise (OtherException "IndexError: list index out of range")
  end.

(** An entry of one of the lists of an agent's log ([successful],
    [skipped_preserved], [destroyed], [failed]); [entry_note] is the
    entry's ['reason'] or ['error']. *)
Record LogEntry := mkEntry
  { entry_type : string;
    entry_id : string;
    entry_region : option string;
    entry_note : option string }.

(* ------------------------------------------------------------------ *)
(** ** agents/sweeper-account/account_sweeper_agent.py *)

Module Sweeper.

Definition PRESERVE_TAG_KEY : string := "decom:preserve".
Definition PRESERVE_TAG_VALUE : string := "true".
Definition RESTRICTED_ACCOUNTS : list string :=
  ["LogArchive-Admin"; "Audit-Admin"].

Record DeletionLog := mkLog
  { successful : list LogEntry;
    failed : list LogEntry;
    skipped_preserved : list LogEntry;
    total_deleted : nat;
    total_failed : nat;
    total_preserved : nat;
    skip_reason : option string }.

Definition empty_log : DeletionLog := mkLog [] [] [] 0 0 0 None.

Definition log_preserved (e : LogEntry) (l : DeletionLog) : DeletionLog :=
  mkLog (successful l) (failed l) (skipped_preserved l ++ [e])
        (total_deleted l) (total_failed l) (total_preserved l + 1)
        (skip_reason l).

Definition log_successful (e : LogEntry) (l : DeletionLog) : DeletionLog :=
  mkLog (successful l ++ [e]) (failed l) (skipped_preserved l)
        (total_deleted l + 1) (total_failed l) (total_preserved l)
        (skip_reason l).

Definition log_failed (e : LogEntry) (l : DeletionLog) : DeletionLog :=
  mkLog (successful l) (failed l ++ [e]) (skipped_preserved l)
        (total_deleted l) (total_failed l + 1) (total_preserved l)
        (skip_reason l).

Definition set_skip_reason (r : string) (l : DeletionLog) : DeletionLog :=
  mkLog (successful l) (failed l) (skipped_preserved l)
        (total_deleted l) (total_failed l) (total_preserved l) (Some r).

(** The inventory file of one region, [inventory['regions'][region]
    ['resources']]: for each kind the agent reads, the identifiers listed
    under its key when the key is present; [inv_other_keys] are the
    remaining keys of the dict. *)
Record RegionResources := mkRegion
  { inv_s3_buckets : option (list string);
    inv_cloudformation_stacks : option (list string);
    inv_lambda_functions : option (list string);
    inv_rds_instances : option (list string);
    inv_ec2_instances : option (list (list string));
    inv_other_keys : list string }.

Definition no_resources : RegionResources :=
  mkRegion None None None None None [].

Definition Inventory : Type := list (string * RegionResources).

Definition present {A : Type} (key : string) (o : option A) : list string :=
  match o with Some _ => [key] | None => [] end.

Definition inv_keys (r : RegionResources) : list string :=
  present "s3_buckets" (inv_s3_buckets r)
  ++ present "cloudformation_stacks" (inv_cloudformation_stacks r)
  ++ present "lambda_functions" (inv_lambda_functions r)
  ++ present "rds_instances" (inv_rds_instances r)
  ++ present "ec2_instances" (inv_ec2_instances r)
  ++ inv_other_keys r.

(** [inventory['regions'].get(region, {}).get('resources', {})] *)
Fixpoint regional_resources (inv : Inventory) (region : string)
    : RegionResources :=
  match inv with
  | [] => no_resources
  | (r, res) :: inv' =>
      if String.eqb r region then res else regional_resources inv' region
  end.

Definition opt_eqb (o : option string) (s : string) : bool :=
  match o with Some x => String.eqb x s | None => false end.

Definition is_preserve_tag (t : Tag) : bool :=
  opt_eqb (tag_Key t) PRESERVE_TAG_KEY
  && opt_eqb (tag_Value t) PRESERVE_TAG_VALUE.

(** [is_resource_preserved(resource_id, tags)]; [None] is Python's
    [None], which [not tags] treats as the empty list. *)
Definition is_resource_preserved (resource_id : string)
    (tags : option (list Tag)) : bool :=
  match tags with
  | None => false
  | Some [] => false
  | Some l => existsb is_preserve_tag l
  end.

Definition preserve_default : list Tag :=
  [mkTag (Some PRESERVE_TAG_KEY) (Some PRESERVE_TAG_VALUE)].

Section Agent.
Variable profile_name : string.
Variable inventory : Inventory.
Variable dry_run : bool.

Local Abbreviation Act := (M DeletionLog).

(** A keyword argument left at [None] reaches boto3, which refuses it. *)
Definition required (o : option string) : Act string :=
  match o with
  | Some s => ret s
  | None => raise (OtherException "ParamValidationError")
  end.

(** [{'Key': t['Key'], 'Value': t['Value']}] *)
Definition rebuild_tag (t : Tag) : Act Tag :=
  match tag_Key t, tag_Value t with
  | Some k, Some v => ret (mkTag (Some k) (Some v))
  | None, _ => KeyError "Key"
  | _, None => KeyError "Value"
  end.

Fixpoint rebuild_tags (l : list Tag) : Act (list Tag) :=
  match l with
  | [] => ret []
  | t :: l' =>
      t' <- rebuild_tag t ;;
      r <- rebuild_tags l' ;;
      ret (t' :: r)
  end.

(** [get_resource_tags]; [region] is the region of [service_client]. *)
Definition get_resource_tags (region : string)
    (resource_arn resource_id : option string) (resource_type : string)
    : Act (list Tag) :=
  try_except
    (if String.eqb resource_type "s3" then
       id <- required resource_id ;;
       response <- call (GetBucketTagging id) ;;
       ret match response with RTagSet l => l | _ => [] end
     else if String.eqb resource_type "ec2" then
       id <- required resource_id ;;
       response <- call (DescribeTags region id) ;;
       rebuild_tags match response with RTagSet l => l | _ => [] end
     else if String.eqb resource_type "cloudformation" then
       id <- required resource_id ;;
       response <- call (DescribeStacks region id) ;;
       match response with
       | RStacks l =>
           d <- first_of l ;;
           ret (get_or (stack_Tags d) [])
       | _ => KeyError "Stacks"
       end
     else if String.eqb resource_type "lambda" then
       arn <- required resource_arn ;;
       response <- call (ListTags region arn) ;;
       ret match response with
           | RTagMap kv =>
               map (fun p => mkTag (Some (fst p)) (Some (snd p))) kv
           | _ => []
           end
     else if String.eqb resource_type "rds" then
       arn <- required resource_arn ;;
       response <- call (ListTagsForResource region arn) ;;
       ret match response with RTagSet l => l | _ => [] end
     else ret [])
    (fun _ => ret preserve_default).

(** The three outcomes every loop body records. *)
Definition record_preserved (ty id : string) (region : option string)
    : Act unit :=
  modify (log_preserved
            (mkEntry ty id region (Some "Tagged for preservation"))).

Definition record_successful (ty id : string) (region : option string)
    : Act unit :=
  modify (log_successful (mkEntry ty id region None)).

Definition record_failed (ty id : string) (region : option string)
    (e : exn) : Act unit :=
  modify (log_failed (mkEntry ty id region (Some (exn_str e)))).

(** The body of the loop of [delete_s3_buckets]. *)
Definition sweep_bucket (bucket_name : string) : Act unit :=
  try_except
    (tags <- get_resource_tags "" None (Some bucket_name) "s3" ;;
     if is_resource_preserved bucket_name (Some tags) then
       record_preserved "s3_bucket" bucket_name None
     else
       (if dry_run then ret tt
        else
          response <- call (ListObjectVersions bucket_name) ;;
          let pages :=
            match response with RVersionPages p => p | _ => [] end in
          let delete_markers := flat_map page_DeleteMarkers pages in
          let versions := flat_map page_Versions pages in
          for_each (Py.batches 1000 delete_markers)
            (fun batch =>
               call (DeleteObjects bucket_name batch) ;;; ret tt) ;;;
          for_each (Py.batches 1000 versions)
            (fun batch =>
               call (DeleteObjects bucket_name batch) ;;; ret tt) ;;;
          call (DeleteBucket bucket_name) ;;; ret tt) ;;;
       record_successful "s3_bucket" bucket_name None)
    (record_failed "s3_bucket" bucket_name None).

Definition delete_s3_buckets : Act unit :=
  match inv_s3_buckets (regional_resources inventory "us-east-1") with
  | None => ret tt
  | Some buckets => for_each buckets sweep_bucket
  end.

(** [stack_priority] of [delete_cloudformation_stacks] *)
Definition stack_priority (stack_name : string) : nat :=
  let name := Py.lower stack_name in
  if Py.contains "controltower" name || Py.contains "landing-zone" name
  then 2
  else if Py.contains "cdk-" name then 1
  else 0.

(** The body of the loop of [delete_cloudformation_stacks]. *)
Definition sweep_stack (region stack_name : string) : Act unit :=
  try_except
    (tags <- get_resource_tags region None (Some stack_name)
               "cloudformation" ;;
     if is_resource_preserved stack_name (Some tags) then
       record_preserved "cloudformation_stack" stack_name (Some region)
     else
       (if dry_run then ret tt
        else
          response <- call (DescribeStacks region stack_name) ;;
          stack_details <-
            match response with
            | RStacks l => first_of l
            | _ => KeyError "Stacks"
            end ;;
          when (get_or (stack_EnableTerminationProtection stack_details)
                       false)
            (call (UpdateTerminationProtection region stack_name) ;;;
             ret tt) ;;;
          call (DeleteStack region stack_name) ;;;
          try_pass
            (call (WaitStackDeleteComplete region stack_name) ;;; ret tt))
       ;;;
       record_successful "cloudformation_stack" stack_name (Some region))
    (record_failed "cloudformation_stack" stack_name (Some region)).

Definition delete_cloudformation_stacks (region : string) : Act unit :=
  match inv_cloudformation_stacks (regional_resources inventory region) with
  | None => ret tt
  | Some stacks =>
      for_each (Py.sorted_by stack_priority stacks) (sweep_stack region)
  end.

(** The body of the loop of [delete_lambda_functions]. *)
Definition sweep_function (region function_name : string) : Act unit :=
  try_except
    (func_details <- call (GetFunction region function_name) ;;
     function_arn <-
       match func_details with
       | RFunctionArn arn => ret arn
       | _ => KeyError "Configuration"
       end ;;
     tags <- get_resource_tags region (Some function_arn) None "lambda" ;;
     if is_resource_preserved function_name (Some tags) then
       record_preserved "lambda_function" function_name (Some region)
     else
       (if dry_run then ret tt
        else call (DeleteFunction region function_name) ;;; ret tt) ;;;
       record_successful "lambda_function" function_name (Some region))
    (record_failed "lambda_function" function_name (Some region)).

Definition delete_lambda_functions (region : string) : Act unit :=
  match inv_lambda_functions (regional_resources inventory region) with
  | None => ret tt
  | Some functions => for_each functions (sweep_function region)
  end.

(** The body of the loop over [rds_instances] of [delete_rds_resources]. *)
Definition sweep_db (region db_id : string) : Act unit :=
  try_except
    (response <- call (DescribeDBInstances region db_id) ;;
     db_details <-
       match response with
       | RDBInstances l => first_of l
       | _ => KeyError "DBInstances"
       end ;;
     tags <- get_resource_tags region (Some (db_Arn db_details)) None
               "rds" ;;
     if is_resource_preserved db_id (Some tags) then
       record_preserved "rds_instance" db_id (Some region)
     else
       (if dry_run then ret tt
        else
          when (get_or (db_DeletionProtection db_details) false)
            (call (ModifyDBInstance region db_id) ;;;
             call (Sleep 10) ;;; ret tt) ;;;
          call (DeleteDBInstance region db_id) ;;; ret tt) ;;;
       record_successful "rds_instance" db_id (Some region))
    (record_failed "rds_instance" db_id (Some region)).

Definition delete_rds_resources (region : string) : Act unit :=
  let regional := regional_resources inventory region in
  if negb (existsb (fun key => Py.startswith key "rds_") (inv_keys regional))
  then ret tt
  else match inv_rds_instances regional with
       | None => ret tt
       | Some dbs => for_each dbs (sweep_db region)
       end.

(** The body of the inner loop of [delete_ec2_resources]. *)
Definition sweep_instance (region instance_id : string) : Act unit :=
  try_except
    (tags <- get_resource_tags region None (Some instance_id) "ec2" ;;
     if is_resource_preserved instance_id (Some tags) then
       record_preserved "ec2_instance" instance_id (Some region)
     else
       (if dry_run then ret tt
        else
          attrs <- call (DescribeInstanceAttribute region instance_id) ;;
          when match attrs with
               | RDisableApiTermination v => get_or v false
               | _ => false
               end
            (call (ModifyInstanceAttribute region instance_id) ;;; ret tt)
          ;;;
          call (TerminateInstances region [instance_id]) ;;; ret tt) ;;;
       record_successful "ec2_instance" instance_id (Some region))
    (record_failed "ec2_instance" instance_id (Some region)).

Definition delete_ec2_resources (region : string) : Act unit :=
  let regional := regional_resources inventory region in
  if negb (existsb
             (fun key =>
                existsb (String.eqb key)
                  ["ec2_instances"; "vpcs"; "security_groups"])
             (inv_keys regional))
  then ret tt
  else match inv_ec2_instances regional with
       | None => ret tt
       | Some reservations =>
           for_each reservations
             (fun instances => for_each instances (sweep_instance region))
       end.

(** [sweep_account]; [results_file] is the path the log is written to. *)
Definition sweep_account (results_file : string) : Act unit :=
  if negb dry_run && existsb (String.eqb profile_name) RESTRICTED_ACCOUNTS
  then modify (set_skip_reason "Service Control Policies")
  else
    for_each (map fst inventory)
      (fun region =>
         delete_lambda_functions region ;;;
         delete_ec2_resources region ;;;
         delete_rds_resources region) ;;;
    delete_s3_buckets ;;;
    for_each (map fst inventory) delete_cloudformation_stacks ;;;
    call (WriteFile results_file) ;;; ret tt.
End Agent.

(** The kinds of resource the sweeper handles, and the body it runs on
    one resource of each kind. *)
Inductive Kind := S3Bucket | Stack | LambdaFunction | RdsInstance | Ec2Instance.

Definition sweep_resource (dry_run : bool) (k : Kind) (region id : string)
    : M DeletionLog unit :=
  match k with
  | S3Bucket => sweep_bucket dry_run id
  | Stack => sweep_stack dry_run region id
  | LambdaFunction => sweep_function dry_run region id
  | RdsInstance => sweep_db dry_run region id
  | Ec2Instance => sweep_instance dry_run region id
  end.

(** The call that deletes the resource [id] of kind [k]. *)
Definition is_delete_of (k : Kind) (region id : string) (c : Call) : Prop :=
  match k with
  | S3Bucket => c = DeleteBucket id
  | Stack => c = DeleteStack region id
  | LambdaFunction => c = DeleteFunction region id
  | RdsInstance => c = DeleteDBInstance region id
  | Ec2Instance => exists ids, c = TerminateInstances region ids /\ In id ids
  end.

Definition kind_type (k : Kind) : string :=
  match k with
  | S3Bucket => "s3_bucket"
  | Stack => "cloudformation_stack"
  | LambdaFunction => "lambda_function"
  | RdsInstance => "rds_instance"
  | Ec2Instance => "ec2_instance"
  end.

Definition kind_region (k : Kind) (region : string) : option string :=
  match k with S3Bucket => None | _ => Some region end.

End Sweeper.

(* ------------------------------------------------------------------ *)
(** ** The closure agents: their common log *)

Module Closure.

(** [destruction_log]: the lists ['destroyed'] and ['failed'] and the
    counters of ['summary'], a dict with a fixed set of keys. *)
Record DestructionLog := mkLog
  { destroyed : list LogEntry;
    failed : list LogEntry;
    summary : list (string * nat) }.

(** [summary[key] += 1], on a key of the dict. *)
Definition bump (key : string) (s : list (string * nat))
    : list (string * nat) :=
  map (fun p => if String.eqb (fst p) key then (fst p, snd p + 1) else p) s.

(** [summary[key]] *)
Fixpoint count (key : string) (s : list (string * nat)) : nat :=
  match s with
  | [] => 0
  | (k, n) :: s' => if String.eqb k key then n else count key s'
  end.

Definition log_destroyed (ty id : string) (region : option string)
    (counter : string) (l : DestructionLog) : DestructionLog :=
  mkLog (destroyed l ++ [mkEntry ty id region None]) (failed l)
        (bump counter (summary l)).

Definition log_failed (ty id : string) (region : option string) (e : exn)
    (l : DestructionLog) : DestructionLog :=
  mkLog (destroyed l) (failed l ++ [mkEntry ty id region (Some (exn_str e))])
        (bump "failed" (summary l)).

Definition results_dir : string :=
  "/Users/bc/Desktop/@modulairhr_aws/infra-decom-logs/agents/closure/results".

(** [sts.get_caller_identity()['Account']], or ["unknown"]. *)
Definition get_account_id {L : Type} : M L string :=
  try_except
    (response <- call GetCallerIdentity ;;
     match response with
     | RAccount id => ret id
     | _ => KeyError "Account"
     end)
    (fun e =>
       print ("Error getting account ID: " ++ exn_str e) ;;;
       ret "unknown").

Definition priority_regions : list string :=
  ["us-east-1"; "us-east-2"; "us-west-1"; "us-west-2"].

(** [priority_regions + [r for r in regions if r not in priority_regions]] *)
Definition all_regions (regions : list string) : list string :=
  priority_regions
  ++ filter (fun r => negb (existsb (String.eqb r) priority_regions)) regions.

(** [[r['RegionName'] for r in ec2.describe_regions()['Regions']]] *)
Definition describe_regions {L : Type} : M L (list string) :=
  response <- call DescribeRegions ;;
  match response with
  | RRegions names => ret names
  | _ => KeyError "Regions"
  end.

End Closure.

(* ------------------------------------------------------------------ *)
(** ** agents/closure/storage_destruction_agent.py *)

Module StorageAgent.
Import Closure.

Local Abbreviation Act := (M DestructionLog).

Definition initial_log : DestructionLog :=
  mkLog [] [] [("s3_buckets", 0); ("ebs_volumes", 0); ("snapshots", 0);
               ("failed", 0)].

Definition keys_of (names : list string) : list ObjectId :=
  map (fun k => mkObj k None) names.

(** The body of the loop of [destroy_s3_buckets]. *)
Definition destroy_bucket (bucket_name : string) : Act unit :=
  try_except
    (try_pass (call (DeleteBucketPolicy bucket_name) ;;; ret tt) ;;;
     try_pass (call (DeleteBucketLifecycle bucket_name) ;;; ret tt) ;;;
     try_pass
       (response <- call (ListObjectVersions bucket_name) ;;
        for_each match response with RVersionPages p => p | _ => [] end
          (fun page =>
             let objects_to_delete :=
               (page_Versions page ++ page_DeleteMarkers page)%list in
             for_each (Py.batches 1000 objects_to_delete)
               (fun batch =>
                  call (DeleteObjects bucket_name batch) ;;; ret tt))) ;;;
     try_pass
       (response <- call (ListObjectsV2 bucket_name) ;;
        for_each match response with RObjectPages p => p | _ => [] end
          (fun objects =>
             for_each (Py.batches 1000 (keys_of objects))
               (fun batch =>
                  call (DeleteObjects bucket_name batch) ;;; ret tt))) ;;;
     call (DeleteBucket bucket_name) ;;;
     modify (log_destroyed "s3_bucket" bucket_name None "s3_buckets"))
    (fun e => modify (log_failed "s3_bucket" bucket_name None e)).

(** [destroy_s3_buckets]: every bucket [list_buckets] returns. *)
Definition destroy_s3_buckets : Act unit :=
  try_pass
    (response <- call ListBuckets ;;
     buckets <-
       match response with
       | RBuckets names => ret names
       | _ => KeyError "Buckets"
       end ;;
     for_each buckets destroy_bucket).

End StorageAgent.

(* ------------------------------------------------------------------ *)
(** ** agents/closure/compute_destruction_agent.py

    This agent is modelled with what it prints: the orchestrator reads
    its standard output. *)

Module ComputeAgent.
Import Closure.

Local Abbreviation Act := (M DestructionLog).

Definition initial_log : DestructionLog :=
  mkLog [] [] [("ec2_instances", 0); ("lambda_functions", 0);
               ("rds_instances", 0); ("rds_clusters", 0);
               ("ecs_clusters", 0); ("failed", 0)].

Definition len {A : Type} (l : list A) : string :=
  Py.str (N.of_nat (length l)).

Definition destroy_ec2_instances (region : string) : Act unit :=
  print ("🔥 DESTROYING EC2 INSTANCES in " ++ region ++ "...") ;;;
  try_except
    (instances <- call (DescribeInstances region) ;;
     reservations <-
       match instances with
       | RReservations r => ret r
       | _ => KeyError "Reservations"
       end ;;
     let instance_ids := concat reservations in
     match instance_ids with
     | [] => print ("  No EC2 instances found in " ++ region)
     | _ =>
         print ("  Found " ++ len instance_ids ++ " instances to destroy") ;;;
         for_each instance_ids
           (fun instance_id =>
              try_pass
                (call (ModifyInstanceAttribute region instance_id) ;;;
                 ret tt)) ;;;
         print ("  🗑️  Terminating " ++ len instance_ids ++ " instances...")
         ;;;
         call (TerminateInstances region instance_ids) ;;;
         for_each instance_ids
           (fun instance_id =>
              modify (log_destroyed "ec2_instance" instance_id (Some region)
                        "ec2_instances") ;;;
              print ("    ✅ TERMINATED: " ++ instance_id))
     end)
    (fun e =>
       print ("Error destroying EC2 instances in " ++ region ++ ": "
              ++ exn_str e)).

(** The body of the loop of [destroy_lambda_functions]. *)
Definition destroy_function (region function_name : string) : Act unit :=
  try_except
    (print ("  🗑️  Destroying function: " ++ function_name) ;;;
     call (DeleteFunction region function_name) ;;;
     modify (log_destroyed "lambda_function" function_name (Some region)
               "lambda_functions") ;;;
     print ("    ✅ DESTROYED: " ++ function_name))
    (fun e =>
       print ("    ❌ FAILED: " ++ function_name ++ " - " ++ exn_str e) ;;;
       modify (log_failed "lambda_function" function_name (Some region) e)).

Definition destroy_lambda_functions (region : string) : Act unit :=
  print ("🔥 DESTROYING LAMBDA FUNCTIONS in " ++ region ++ "...") ;;;
  try_except
    (response <- call (ListFunctions region) ;;
     pages <-
       match response with
       | RFunctions p => ret p
       | _ => KeyError "Functions"
       end ;;
     let functions := concat pages in
     match functions with
     | [] => print ("  No Lambda functions found in " ++ region)
     | _ =>
         print ("  Found " ++ len functions ++ " functions to destroy") ;;;
         for_each functions (destroy_function region)
     end)
    (fun e =>
       print ("Error destroying Lambda functions in " ++ region ++ ": "
              ++ exn_str e)).

Definition show_count (key : string) : Act string :=
  l <- get_log ;; ret (Py.str (N.of_nat (count key (summary l)))).

(** [destroy_all_compute]; [now] is the time stamp of the file name. *)
Definition destroy_all_compute (account_id now : string) : Act unit :=
  print ("🔥🔥🔥 COMPUTE DESTRUCTION AGENT - ACCOUNT " ++ account_id
         ++ " 🔥🔥🔥") ;;;
  print "⚠️  WARNING: ALL COMPUTE RESOURCES WILL BE PERMANENTLY DESTROYED!" ;;;
  regions <- describe_regions ;;
  for_each (all_regions regions)
    (fun region =>
       try_except
         (print (Py.nl ++ "🌍 Processing region: " ++ region) ;;;
          destroy_lambda_functions region ;;;
          destroy_ec2_instances region)
         (fun e =>
            print ("Error processing region " ++ region ++ ": "
                   ++ exn_str e))) ;;;
  let filename :=
    results_dir ++ "/compute_destruction_" ++ account_id ++ "_" ++ now
    ++ ".json" in
  call (WriteFile filename) ;;;
  print (Py.nl ++ "🔥 COMPUTE DESTRUCTION COMPLETE!") ;;;
  n_ec2 <- show_count "ec2_instances" ;;
  print ("  EC2 Instances destroyed: " ++ n_ec2) ;;;
  n_lambda <- show_count "lambda_functions" ;;
  print ("  Lambda Functions destroyed: " ++ n_lambda) ;;;
  n_failed <- show_count "failed" ;;
  print ("  Failed: " ++ n_failed) ;;;
  print ("  Results saved to: " ++ filename).

(** [main], called with one argument: the constructor, then
    [destroy_all_compute]. *)
Definition main (profile_name now : string) : Act unit :=
  print ("🔥 Starting Compute Destruction Agent for " ++ profile_name) ;;;
  account_id <- get_account_id ;;
  destroy_all_compute account_id now.


End ComputeAgent.

(* ------------------------------------------------------------------ *)
(** ** agents/closure/infrastructure_destruction_agent.py *)

Module InfraAgent.
Import Closure.

Local Abbreviation Act := (M DestructionLog).

Definition initial_log : DestructionLog :=
  mkLog [] [] [("cloudformation_stacks", 0); ("vpcs", 0);
               ("security_groups", 0); ("internet_gateways", 0);
               ("nat_gateways", 0); ("failed", 0)].

(** [stack_priority] of [destroy_cloudformation_stacks] *)
Definition stack_priority (stack_name : string) : nat :=
  let name := Py.lower stack_name in
  if Py.contains "controltower" name || Py.contains "aws-landing-zone" name
  then 3
  else if Py.startswith name "stackset-" then 2
  else 1.

(** The body of the loop of [destroy_cloudformation_stacks]. *)
Definition destroy_stack (region stack_name : string) : Act unit :=
  try_except
    (try_pass
       (response <- call (DescribeStacks region stack_name) ;;
        stack_details <-
          match response with
          | RStacks l => first_of l
          | _ => KeyError "Stacks"
          end ;;
        when (get_or (stack_EnableTerminationProtection stack_details) false)
          (call (UpdateTerminationProtection region stack_name) ;;; ret tt))
     ;;;
     call (DeleteStack region stack_name) ;;;
     sleep 2 ;;;
     modify (log_destroyed "cloudformation_stack" stack_name (Some region)
               "cloudformation_stacks"))
    (fun e =>
       modify (log_failed "cloudformation_stack" stack_name (Some region) e)).

Definition destroy_cloudformation_stacks (region : string) : Act unit :=
  try_pass
    (response <- call (ListStacks region) ;;
     pages <-
       match response with
       | RStackSummaries p => ret p
       | _ => KeyError "StackSummaries"
       end ;;
     let stacks := concat pages in
     match stacks with
     | [] => ret tt
     | _ => for_each (Py.sorted_by stack_priority stacks) (destroy_stack region)
     end).

(** The four loops of [destroy_networking], in the order of the source. *)
Definition destroy_nat_gateway (region nat_id : string) : Act unit :=
  try_except
    (call (DeleteNatGateway region nat_id) ;;;
     modify (log_destroyed "nat_gateway" nat_id (Some region) "nat_gateways"))
    (fun e => modify (log_failed "nat_gateway" nat_id (Some region) e)).

Definition destroy_nat_gateways (region : string) : Act unit :=
  response <- call (DescribeNatGateways region) ;;
  nat_gateways <-
    match response with
    | RNatGateways ids => ret ids
    | _ => KeyError "NatGateways"
    end ;;
  for_each nat_gateways (destroy_nat_gateway region).

Definition destroy_internet_gateway (region : string) (igw : InternetGateway)
    : Act unit :=
  let igw_id := igw_Id igw in
  try_except
    (for_each (igw_Attachments igw)
       (fun vpc_id =>
          call (DetachInternetGateway region igw_id vpc_id) ;;; ret tt) ;;;
     call (DeleteInternetGateway region igw_id) ;;;
     modify (log_destroyed "internet_gateway" igw_id (Some region)
               "internet_gateways"))
    (fun e => modify (log_failed "internet_gateway" igw_id (Some region) e)).

Definition destroy_internet_gateways (region : string) : Act unit :=
  response <- call (DescribeInternetGateways region) ;;
  igws <-
    match response with
    | RInternetGateways l => ret l
    | _ => KeyError "InternetGateways"
    end ;;
  for_each igws (destroy_internet_gateway region).

(** [[sg for sg in security_groups if sg['GroupName'] != 'default']] *)
Definition custom_sgs (security_groups : list SecurityGroup)
    : list SecurityGroup :=
  filter (fun sg => negb (String.eqb (sg_GroupName sg) "default"))
         security_groups.

Definition destroy_security_group (region : string) (sg : SecurityGroup)
    : Act unit :=
  let sg_id := sg_GroupId sg in
  try_except
    (call (DeleteSecurityGroup region sg_id) ;;;
     modify (log_destroyed "security_group" sg_id (Some region)
               "security_groups"))
    (fun e => modify (log_failed "security_group" sg_id (Some region) e)).

Definition destroy_security_groups (region : string) : Act unit :=
  response <- call (DescribeSecurityGroups region) ;;
  security_groups <-
    match response with
    | RSecurityGroups l => ret l
    | _ => KeyError "SecurityGroups"
    end ;;
  for_each (custom_sgs security_groups) (destroy_security_group region).

(** [[vpc for vpc in vpcs if not vpc['IsDefault']]] *)
Definition custom_vpcs (vpcs : list Vpc) : list Vpc :=
  filter (fun vpc => negb (vpc_IsDefault vpc)) vpcs.

Definition destroy_vpc (region : string) (vpc : Vpc) : Act unit :=
  let vpc_id := vpc_VpcId vpc in
  try_except
    (response <- call (DescribeSubnets region vpc_id) ;;
     subnets <-
       match response with
       | RSubnets ids => ret ids
       | _ => KeyError "Subnets"
       end ;;
     for_each subnets
       (fun subnet_id => call (DeleteSubnet region subnet_id) ;;; ret tt) ;;;
     response <- call (DescribeRouteTables region vpc_id) ;;
     route_tables <-
       match response with
       | RRouteTables l => ret l
       | _ => KeyError "RouteTables"
       end ;;
     for_each route_tables
       (fun rt =>
          when (negb (existsb (fun main => main) (rt_AssociationsMain rt)))
            (call (DeleteRouteTable region (rt_Id rt)) ;;; ret tt)) ;;;
     call (DeleteVpc region vpc_id) ;;;
     modify (log_destroyed "vpc" vpc_id (Some region) "vpcs"))
    (fun e => modify (log_failed "vpc" vpc_id (Some region) e)).

Definition destroy_vpcs (region : string) : Act unit :=
  response <- call (DescribeVpcs region) ;;
  vpcs <-
    match response with
    | RVpcs l => ret l
    | _ => KeyError "Vpcs"
    end ;;
  for_each (custom_vpcs vpcs) (destroy_vpc region).

Definition destroy_networking (region : string) : Act unit :=
  try_pass
    (destroy_nat_gateways region ;;;
     destroy_internet_gateways region ;;;
     destroy_security_groups region ;;;
     destroy_vpcs region).

(** [destroy_all_infrastructure]; [results_file] is the path the log is
    written to. *)
Definition destroy_all_infrastructure (results_file : string) : Act unit :=
  regions <- describe_regions ;;
  let regions := all_regions regions in
  for_each regions
    (fun region => try_pass (destroy_cloudformation_stacks region)) ;;;
  sleep 30 ;;;
  for_each regions (fun region => try_pass (destroy_networking region)) ;;;
  call (WriteFile results_file) ;;; ret tt.

End InfraAgent.

(* ------------------------------------------------------------------ *)
(** ** agents/closure/targeted_s3_bucket_destroyer.py *)

Module TargetedS3.

(** [bucket_result], the dict [destroy_bucket] fills and returns. *)
Record BucketResult := mkResult
  { bucket_name : string;
    status : string;
    error_type : option string;
    error_message : option string;
    configurations_removed : list string;
    steps_completed : list string }.

(** [self.results], with [current], the [bucket_result] of the call of
    [destroy_bucket] in progress: a local dict mutated in place, which an
    exception handler reads as the steps before the exception left it. *)
Record Results := mkResults
  { buckets_processed : list BucketResult;
    total_attempted : nat;
    successful_deletions : nat;
    failed_deletions : nat;
    access_denied_errors : nat;
    policy_restricted_errors : nat;
    other_errors : nat;
    current : BucketResult }.

Definition new_result (name : string) : BucketResult :=
  mkResult name "failed" None None [] [].

Definition initial_results : Results :=
  mkResults [] 0 0 0 0 0 0 (new_result "").

Local Abbreviation Act := (M Results).

Definition set_current (f : BucketResult -> BucketResult) : Act unit :=
  modify (fun r =>
    mkResults (buckets_processed r) (total_attempted r)
      (successful_deletions r) (failed_deletions r) (access_denied_errors r)
      (policy_restricted_errors r) (other_errors r) (f (current r))).

Definition step_completed (step : string) : Act unit :=
  set_current (fun b =>
    mkResult (bucket_name b) (status b) (error_type b) (error_message b)
      (configurations_removed b) (steps_completed b ++ [step])).

Definition set_status (s : string) : Act unit :=
  set_current (fun b =>
    mkResult (bucket_name b) s (error_type b) (error_message b)
      (configurations_removed b) (steps_completed b)).

Definition set_error_type (t : string) : Act unit :=
  set_current (fun b =>
    mkResult (bucket_name b) (status b) (Some t) (error_message b)
      (configurations_removed b) (steps_completed b)).

Definition set_error_message (m : string) : Act unit :=
  set_current (fun b =>
    mkResult (bucket_name b) (status b) (error_type b) (Some m)
      (configurations_removed b) (steps_completed b)).

Definition set_configurations_removed (c : list string) : Act unit :=
  set_current (fun b =>
    mkResult (bucket_name b) (status b) (error_type b) (error_message b)
      c (steps_completed b)).

Definition bump_access_denied : Act unit :=
  modify (fun r =>
    mkResults (buckets_processed r) (total_attempted r)
      (successful_deletions r) (failed_deletions r)
      (access_denied_errors r + 1) (policy_restricted_errors r)
      (other_errors r) (current r)).

Definition bump_policy_restricted : Act unit :=
  modify (fun r =>
    mkResults (buckets_processed r) (total_attempted r)
      (successful_deletions r) (failed_deletions r)
      (access_denied_errors r) (policy_restricted_errors r + 1)
      (other_errors r) (current r)).

Definition bump_other_errors : Act unit :=
  modify (fun r =>
    mkResults (buckets_processed r) (total_attempted r)
      (successful_deletions r) (failed_deletions r)
      (access_denied_errors r) (policy_restricted_errors r)
      (other_errors r + 1) (current r)).

Definition get_current : Act BucketResult :=
  r <- get_log ;; ret (current r).

Definition keys_of (names : list string) : list ObjectId :=
  map (fun k => mkObj k None) names.

(** [empty_bucket_contents]: [True], or [False] on a [ClientError] other
    than [NoSuchBucket]; another exception escapes. *)
Definition empty_bucket_contents (bucket : string) : Act bool :=
  try_except_client
    (response <- call (ListObjectVersions bucket) ;;
     for_each match response with RVersionPages p => p | _ => [] end
       (fun page =>
          let objects_to_delete :=
            (page_Versions page ++ page_DeleteMarkers page)%list in
          for_each (Py.batches 1000 objects_to_delete)
            (fun batch => call (DeleteObjects bucket batch) ;;; ret tt)) ;;;
     response <- call (ListObjectsV2 bucket) ;;
     for_each match response with RObjectPages p => p | _ => [] end
       (fun objects =>
          for_each (Py.batches 1000 (keys_of objects))
            (fun batch => call (DeleteObjects bucket batch) ;;; ret tt)) ;;;
     ret true)
    (fun error_code _ =>
       if String.eqb error_code "AccessDenied" then ret false
       else if String.eqb error_code "NoSuchBucket" then ret true
       else ret false).

(** One [try: ... except ClientError: ...] block of
    [remove_bucket_configurations]: the name of the configuration when the
    call succeeds. *)
Definition remove_configuration (c : Call) (name : string)
    : Act (list string) :=
  try_except_client (call c ;;; ret [name]) (fun _ _ => ret []).

Definition remove_bucket_configurations (bucket : string)
    : Act (list string) :=
  c1 <- remove_configuration (DeleteBucketPolicy bucket) "bucket_policy" ;;
  c2 <- remove_configuration (DeleteBucketLifecycle bucket) "lifecycle" ;;
  c3 <- remove_configuration (DeleteBucketCors bucket) "cors" ;;
  c4 <- remove_configuration (PutBucketVersioning bucket) "versioning" ;;
  c5 <- remove_configuration (PutBucketNotificationConfiguration bucket)
          "notifications" ;;
  ret (c1 ++ c2 ++ c3 ++ c4 ++ c5)%list.

(** The existence check at the head of [destroy_bucket]: [true] when the
    method goes on, [false] when it returns at once. *)
Definition check_bucket_exists (bucket : string) : Act bool :=
  try_except_client
    (call (HeadBucket bucket) ;;;
     step_completed "bucket_exists_check" ;;;
     ret true)
    (fun error_code msg =>
       if String.eqb error_code "NoSuchBucket" then
         set_status "success" ;;;
         set_error_message "Bucket already deleted" ;;;
         ret false
       else if String.eqb error_code "AccessDenied" then
         set_error_type "access_denied" ;;;
         set_error_message msg ;;;
         ret false
       else raise (ClientError error_code msg)).

(** The body of the [try] of [destroy_bucket], after the existence
    check. *)
Definition destroy_bucket_steps (bucket : string) : Act unit :=
  exists_ <- check_bucket_exists bucket ;;
  if negb exists_ then ret tt
  else
    emptied <- empty_bucket_contents bucket ;;
    if negb emptied then set_error_type "empty_failed"
    else
      step_completed "empty_contents" ;;;
      removed <- remove_bucket_configurations bucket ;;
      set_configurations_removed removed ;;;
      step_completed "remove_configurations" ;;;
      call (DeleteBucket bucket) ;;;
      step_completed "delete_bucket" ;;;
      set_status "success".

(** The two handlers of [destroy_bucket]: [except ClientError] and
    [except Exception]. *)
Definition destroy_bucket_failed (e : exn) : Act unit :=
  match e with
  | ClientError error_code error_message =>
      (if String.eqb error_code "AccessDenied" then
         set_error_type "access_denied" ;;; bump_access_denied
       else if String.eqb error_code "BucketNotEmpty" then
         set_error_type "bucket_not_empty"
       else if Py.contains "ServiceControlPolicy" error_message
               || Py.contains "SCP" error_message then
         set_error_type "policy_restricted" ;;; bump_policy_restricted
       else
         set_error_type "other_error" ;;; bump_other_errors) ;;;
      set_error_message error_message
  | _ =>
      set_error_type "unexpected_error" ;;;
      set_error_message (exn_str e) ;;;
      bump_other_errors
  end.

Definition destroy_bucket (bucket : string) : Act BucketResult :=
  set_current (fun _ => new_result bucket) ;;;
  try_except (destroy_bucket_steps bucket) destroy_bucket_failed ;;;
  get_current.

Definition record_result (b : BucketResult) : Act unit :=
  modify (fun r =>
    let ok := String.eqb (status b) "success" in
    mkResults (buckets_processed r ++ [b]) (total_attempted r)
      (if ok then successful_deletions r + 1 else successful_deletions r)
      (if ok then failed_deletions r else failed_deletions r + 1)
      (access_denied_errors r) (policy_restricted_errors r)
      (other_errors r) (current r)).

Definition destroy_target_buckets (target_buckets : list string) : Act unit :=
  modify (fun r =>
    mkResults (buckets_processed r) (length target_buckets)
      (successful_deletions r) (failed_deletions r) (access_denied_errors r)
      (policy_restricted_errors r) (other_errors r) (current r)) ;;;
  for_each target_buckets
    (fun bucket => b <- destroy_bucket bucket ;; record_result b).

End TargetedS3.

(* ------------------------------------------------------------------ *)
(** ** agents/closure/account_closure_orchestrator.py *)

Module Orchestrator.

Definition agents_dir : string :=
  "/Users/bc/Desktop/@modulairhr_aws/infra-decom-logs/agents/closure".

(** The dict [run_agent] returns; an entry the dict does not have is
    [None]. *)
Record PhaseResult := mkPhase
  { agent : string;
    status : string;
    return_code : option Z;
    resources_destroyed : option N;
    failures : option N;
    stdout : option string;
    stderr : option string;
    error : option string }.

Record ClosureLog := mkLog
  { phases : list (string * PhaseResult);
    total_resources_destroyed : N;
    total_failures : N;
    completion_status : string }.

Definition initial_log : ClosureLog := mkLog [] 0 0 "in_progress".

(** The state of the loop of [run_agent] over the lines of the output:
    the two counts, and whether [import re] has been executed.  The
    statement stands in the first branch only, and makes [re] a local
    name of the method: before it has run, [re.findall] in the second
    branch raises, and the bare [except] passes. *)
Record Counts := mkCounts
  { re_bound : bool;
    destroyed_count : N;
    failed_count : N }.

Definition first_number (line : string) : N :=
  match Py.findall_digits line with
  | number :: _ => Py.int number
  | [] => 0%N
  end.

Definition scan_line (c : Counts) (line : string) : Counts :=
  let low := Py.lower line in
  if Py.contains "destroyed:" low || Py.contains "complete!" low then
    mkCounts true (destroyed_count c + first_number line) (failed_count c)
  else if Py.contains "failed:" low then
    if re_bound c
    then mkCounts true (destroyed_count c) (failed_count c + first_number line)
    else c
  else c.

Definition scan_output (text : string) : Counts :=
  fold_left scan_line (Py.split_lines text) (mkCounts false 0 0).

Local Abbreviation Act := (M ClosureLog).

Section Run.
Variable profile_name : string.

Definition run_agent (agent_script agent_name : string) : Act PhaseResult :=
  let script_path := agents_dir ++ "/" ++ agent_script in
  try_except
    (call (Chmod script_path) ;;;
     result <- call (RunPython script_path profile_name) ;;
     match result with
     | RProcess returncode out err =>
         let counts := scan_output out in
         ret (mkPhase agent_name
                (if Z.eqb returncode 0 then "success" else "failed")
                (Some returncode)
                (Some (destroyed_count counts)) (Some (failed_count counts))
                (Some out) (Some err) None)
     | _ => raise (OtherException "AttributeError")
     end)
    (fun e =>
       match e with
       | TimeoutExpired =>
           ret (mkPhase agent_name "timeout" None None None None None
                  (Some "Agent execution timed out after 30 minutes"))
       | _ =>
           ret (mkPhase agent_name "error" None None None None None
                  (Some (exn_str e)))
       end).

(** [d[key] = value] on a dict kept in insertion order. *)
Fixpoint dict_set (A : Type) (key : string) (value : A)
    (d : list (string * A)) : list (string * A) :=
  match d with
  | [] => [(key, value)]
  | (k, v) :: d' =>
      if String.eqb k key then (k, value) :: d'
      else (k, v) :: dict_set key value d'
  end.

Definition set_phase (name : string) (r : PhaseResult) : Act unit :=
  modify (fun l =>
    mkLog (dict_set name r (phases l)) (total_resources_destroyed l)
      (total_failures l) (completion_status l)).

(** The loop that computes the final summary. *)
Definition total_destroyed (phases : list (string * PhaseResult)) : N :=
  fold_left
    (fun acc p => (acc + get_or (resources_destroyed (snd p)) 0)%N) phases 0%N.

Definition total_failed (phases : list (string * PhaseResult)) : N :=
  fold_left (fun acc p => (acc + get_or (failures (snd p)) 0)%N) phases 0%N.

Definition all_successful (phases : list (string * PhaseResult)) : bool :=
  forallb (fun p => String.eqb (status (snd p)) "success") phases.

Definition summarise : Act unit :=
  modify (fun l =>
    mkLog (phases l) (total_destroyed (phases l)) (total_failed (phases l))
      (if all_successful (phases l) then "completed" else "partial")).

(** [orchestrate_account_closure]; [now] is the time stamp of the file
    names.  The report of [generate_closure_report] is printed text and
    one more file. *)
Definition orchestrate_account_closure (now : string) : Act unit :=
  storage_result <- run_agent "storage_destruction_agent.py" "Storage" ;;
  set_phase "storage" storage_result ;;;
  compute_result <- run_agent "compute_destruction_agent.py" "Compute" ;;
  set_phase "compute" compute_result ;;;
  sleep 30 ;;;
  infra_result <-
    run_agent "infrastructure_destruction_agent.py" "Infrastructure" ;;
  set_phase "infrastructure" infra_result ;;;
  summarise ;;;
  call (WriteFile (agents_dir ++ "/results/account_closure_" ++ profile_name
                   ++ "_" ++ now ++ ".json")) ;;;
  call (WriteFile (agents_dir ++ "/results/CLOSURE_SUMMARY_" ++ profile_name
                   ++ "_" ++ now ++ ".txt")) ;;;
  ret tt.
End Run.

End Orchestrator.

(* ------------------------------------------------------------------ *)
(** ** agents/closure/complete_closure_orchestrator.py

    The two agents of the first phase, and the regions of the second, run
    on thread pools.  The model issues them one after the other: the two
    agents in the order [storage_first] gives, the regions in the order
    listed.  A shell command line is abbreviated to its deleting stage. *)

Module CompleteOrchestrator.

Record OrchestrationLog := mkLog
  { phases : list (string * string);   (* phase name, status *)
    phases_completed : nat;
    phases_failed : nat }.

Definition initial_log : OrchestrationLog := mkLog [] 0 0.

Local Abbreviation Act := (M OrchestrationLog).

Definition agents_dir : string := Orchestrator.agents_dir.

Section Run.
Variable profile_name : string.

Definition record_phase (phase_name status : string) : Act unit :=
  modify (fun l =>
    let ok := String.eqb status "success" in
    mkLog (Orchestrator.dict_set phase_name status (phases l))
      (if ok then phases_completed l + 1 else phases_completed l)
      (if ok then phases_failed l else phases_failed l + 1)).

(** [run_agent]: [True] for ['success': True]. *)
Definition run_agent (agent_script phase_name : string) : Act bool :=
  try_except
    (result <- call (RunPython agent_script profile_name) ;;
     match result with
     | RProcess returncode _ _ =>
         if Z.eqb returncode 0
         then record_phase phase_name "success" ;;; ret true
         else record_phase phase_name "failed" ;;; ret false
     | _ => raise (OtherException "AttributeError")
     end)
    (fun e =>
       match e with
       | TimeoutExpired => record_phase phase_name "timeout" ;;; ret false
       | _ => record_phase phase_name "error" ;;; ret false
       end).

Definition nuke_commands (region : string) : list string :=
  map (fun stage =>
         "aws " ++ stage ++ " --profile " ++ profile_name ++ " --region "
         ++ region)
    ["cloudformation delete-stack"; "apigateway delete-rest-api";
     "cloudwatch delete-alarms"; "sns delete-topic"; "sqs delete-queue";
     "ec2 delete-subnet delete-vpc"].

Definition nuke_region (region : string) : Act unit :=
  for_each (nuke_commands region)
    (fun cmd => try_pass (call (Shell cmd) ;;; ret tt)).

Definition is_space (c : ascii) : bool :=
  let n := nat_of_ascii c in Nat.eqb n 32 || (Nat.leb 9 n && Nat.leb n 13).

(** [text.strip().split()] *)
Fixpoint words_acc (s cur : string) : list string :=
  match s with
  | EmptyString => if Py.is_empty cur then [] else [cur]
  | String c t =>
      if is_space c
      then if Py.is_empty cur then words_acc t EmptyString
           else cur :: words_acc t EmptyString
      else words_acc t (cur ++ String c EmptyString)
  end.

Definition run_cli_nuke : Act unit :=
  try_pass
    (result <- call (AwsCli ["ec2"; "describe-regions"; "--profile";
                             profile_name; "--query";
                             "Regions[].RegionName"; "--output"; "text"]) ;;
     match result with
     | RProcess returncode out _ =>
         when (Z.eqb returncode 0)
           (for_each (words_acc out EmptyString)
              (fun region => try_pass (nuke_region region)))
     | _ => raise (OtherException "AttributeError")
     end).

Fixpoint all_digits (s : string) : bool :=
  match s with
  | EmptyString => true
  | String c t => Py.is_digit c && all_digits t
  end.

(** Whether [int(text.strip())] returns: one run of digits.  (A signed or
    underscored numeral is not recognised.) *)
Definition is_number (text : string) : bool :=
  match words_acc text EmptyString with
  | [w] => all_digits w
  | _ => false
  end.

(** [verify_account_empty]: the two queries.  The numbers it stores are
    not modelled, only that reading the first one may raise. *)
Definition verify_account_empty : Act unit :=
  try_pass
    (result <- call (AwsCli ["s3api"; "list-buckets"; "--profile";
                             profile_name; "--query"; "length(Buckets)";
                             "--output"; "text"]) ;;
     match result with
     | RProcess returncode out _ =>
         if Z.eqb returncode 0 && negb (is_number out)
         then raise (OtherException "ValueError")
         else ret tt
     | _ => raise (OtherException "AttributeError")
     end ;;;
     call (AwsCli ["ec2"; "describe-instances"; "--profile"; profile_name;
                   "--region"; "us-east-1"; "--query";
                   "length(Reservations[].Instances[])"; "--output";
                   "text"]) ;;;
     ret tt).

Definition storage_phase : Act unit :=
  run_agent (agents_dir ++ "/storage_destruction_agent.py")
    "STORAGE_DESTRUCTION" ;;; ret tt.

Definition compute_phase : Act unit :=
  run_agent (agents_dir ++ "/compute_destruction_agent.py")
    "COMPUTE_DESTRUCTION" ;;; ret tt.

Definition run_comprehensive_nuke (storage_first : bool) (now : string)
    : Act unit :=
  (if storage_first then storage_phase ;;; compute_phase
   else compute_phase ;;; storage_phase) ;;;
  sleep 10 ;;;
  run_cli_nuke ;;;
  verify_account_empty ;;;
  call (WriteFile (agents_dir ++ "/results/closure_orchestration_"
                   ++ profile_name ++ "_" ++ now ++ ".json")) ;;;
  ret tt.
End Run.

End CompleteOrchestrator.

(* ------------------------------------------------------------------ *)
(** ** agents/closure/targeted_s3_bucket_destroyer.py: the script

    [main], called with one argument.  What [print_summary] prints is
    left out: nothing reads it. *)

Module TargetedS3Script.
Import TargetedS3.

Definition TARGET_BUCKETS : list string :=
  ["aws-config-bucket-134388504287";
   "aws-config-bucket-134388504287-us-east-1";
   "cdk-hnb659fds-assets-134388504287-us-east-1";
   "modulairhr-cloudfront-logs-dev-134388504287";
   "modulairhr-lambda-artifacts-134388504287"].

(** [save_results()]; [now] is the time stamp of the file name. *)
Definition save_results (profile_name now : string) : M Results unit :=
  call (WriteFile
          (Closure.results_dir ++ "/targeted_s3_destruction_" ++ profile_name
           ++ "_" ++ now ++ ".json")) ;;;
  ret tt.

(** The exit status of [main]: [sys.exit(1)] when a bucket failed or an
    exception was caught, [sys.exit(0)] otherwise. *)
Definition main (profile_name now : string) : M Results Z :=
  try_except
    (destroy_target_buckets TARGET_BUCKETS ;;;
     save_results profile_name now ;;;
     results <- get_log ;;
     ret (if Nat.ltb 0 (failed_deletions results) then 1%Z else 0%Z))
    (fun _ => ret 1%Z).

End TargetedS3Script.

(* ------------------------------------------------------------------ *)
(** ** agents/closure/s3_manual_destroyer.py

    The script keeps no log; the state of [main] is its two counters.
    What it prints is left out. *)

Module ManualS3.

Record Tally := mkTally { success_count : nat; fail_count : nat }.

Definition keys_of (names : list string) : list ObjectId :=
  map (fun k => mkObj k None) names.

(** [destroy_bucket(s3_client, bucket_name)]: [True] or [False]. *)
Definition destroy_bucket {L : Type} (bucket_name : string) : M L bool :=
  try_except
    (response <- call (ListObjectVersions bucket_name) ;;
     for_each match response with RVersionPages p => p | _ => [] end
       (fun page =>
          let objects_to_delete :=
            (page_Versions page ++ page_DeleteMarkers page)%list in
          for_each (Py.batches 1000 objects_to_delete)
            (fun batch => call (DeleteObjects bucket_name batch) ;;; ret tt))
     ;;;
     response <- call (ListObjectsV2 bucket_name) ;;
     for_each match response with RObjectPages p => p | _ => [] end
       (fun objects =>
          for_each (Py.batches 1000 (keys_of objects))
            (fun batch => call (DeleteObjects bucket_name batch) ;;; ret tt))
     ;;;
     try_pass (call (DeleteBucketPolicy bucket_name) ;;; ret tt) ;;;
     try_pass (call (DeleteBucketLifecycle bucket_name) ;;; ret tt) ;;;
     try_pass (call (DeleteBucketCors bucket_name) ;;; ret tt) ;;;
     call (DeleteBucket bucket_name) ;;;
     ret true)
    (fun _ => ret false).

Definition count_result (ok : bool) (t : Tally) : Tally :=
  if ok then mkTally (success_count t + 1) (fail_count t)
  else mkTally (success_count t) (fail_count t + 1).

(** [main], called with one argument. *)
Definition main : M Tally unit :=
  try_pass
    (response <- call ListBuckets ;;
     buckets <-
       match response with
       | RBuckets names => ret names
       | _ => KeyError "Buckets"
       end ;;
     modify (fun _ => mkTally 0 0) ;;;
     for_each buckets
       (fun bucket_name =>
          ok <- destroy_bucket bucket_name ;;
          modify (count_result ok))).

End ManualS3.

(* ------------------------------------------------------------------ *)
(** ** agents/tagging/tagging_agent.py: the classification by name

    [should_preserve_resource] is the part of the tagging agent that
    decides; the loops that write the tags are not modelled. *)

Module TaggingAgent.

(** [PRESERVE_PATTERNS], in the order of the dict. *)
Definition PRESERVE_PATTERNS : list (string * string) :=
  [("ControlTower", "AWS Control Tower landing zone resource");
   ("AWS-Landing-Zone", "AWS Landing Zone resource");
   ("AWSControlTower", "Control Tower managed resource");
   ("aws-controltower", "Control Tower managed resource");
   ("OrganizationAccountAccessRole", "Organization management role");
   ("AWSReservedSSO", "AWS SSO managed resource");
   ("AWS-SystemsManager", "AWS Systems Manager resource");
   ("aws-service-role", "AWS service-linked role");
   ("modulairhr.com", "Company domain resource");
   ("ModulairHR", "Company resource");
   ("aws-budgets", "AWS Budgets resource");
   ("savings-plan", "Savings Plan resource")].

(** The loop over the patterns: the reason of the first pattern found in
    the name, both in lower case. *)
Fixpoint first_pattern (patterns : list (string * string))
    (resource_name : string) : option string :=
  match patterns with
  | [] => None
  | (pattern, reason) :: rest =>
      if Py.contains (Py.lower pattern) (Py.lower resource_name)
      then Some reason
      else first_pattern rest resource_name
  end.

(** [should_preserve_resource(resource_name, resource_type)]; a
    [resource_type] that is [None] or empty is skipped by
    [if resource_type:]. *)
Definition should_preserve_resource (resource_name : string)
    (resource_type : option string) : bool * string :=
  match first_pattern PRESERVE_PATTERNS resource_name with
  | Some reason => (true, reason)
  | None =>
      match resource_type with
      | None => (false, EmptyString)
      | Some ty =>
          if Py.is_empty ty then (false, EmptyString)
          else if existsb (String.eqb ty)
                    ["AWS::IAM::Role"; "AWS::IAM::User"; "AWS::IAM::Policy"]
          then (true, "IAM resource - preserve all")
          else if Py.startswith ty "AWS::Organizations::"
          then (true, "Organizations resource")
          else if Py.startswith ty "AWS::ControlTower::"
          then (true, "Control Tower resource")
          else if Py.startswith ty "AWS::Route53::"
          then if Py.contains "modulairhr.com" (Py.lower resource_name)
               then (true, "Company domain resource")
               else (false, EmptyString)
          else (false, EmptyString)
      end
  end.

End TaggingAgent.

(* ================================================================== *)
(** * Reasoning about runs

    [emitted st st'] is what a run from [st] to [st'] added to the list of
    calls.  [keeps w I m] says that every run of [m] against the provider
    [w] extends the list of calls by some [ext] with [I ext l l'], where
    [l] and [l'] are the log before and after. *)

Open Scope list_scope.

Definition emitted {L : Type} (st st' : St L) : list Call :=
  skipn (length (trace st)) (trace st').

Lemma emitted_app {L : Type} (st st' : St L) (ext : list Call) :
  trace st' = trace st ++ ext -> emitted st st' = ext.
Proof.
  intros H. unfold emitted. rewrite H.
  rewrite skipn_app, Nat.sub_diag, skipn_all. reflexivity.
Qed.

Section TraceLogic.
Variable w : Oracle.
Variable L : Type.

Definition Inv : Type := list Call -> L -> L -> Prop.

(** An invariant that holds of the empty run and of two runs in a row. *)
Definition closed (I : Inv) : Prop :=
  (forall l, I [] l l) /\
  (forall e1 e2 l1 l2 l3, I e1 l1 l2 -> I e2 l2 l3 -> I (e1 ++ e2) l1 l3).

Definition keeps (I : Inv) (A : Type) (m : M L A) : Prop :=
  forall st, exists ext,
    trace (snd (m w st)) = trace st ++ ext /\
    I ext (log st) (log (snd (m w st))).

Lemma keeps_weaken (I J : Inv) A (m : M L A) :
  keeps I m -> (forall e l l', I e l l' -> J e l l') -> keeps J m.
Proof.
  intros H HJ st. destruct (H st) as (ext & Ht & Hi). eauto.
Qed.

Lemma keeps_ret (I : Inv) A (a : A) : closed I -> keeps I (ret a).
Proof.
  intros [Hn _] st. exists []. cbn. rewrite app_nil_r. auto.
Qed.

Lemma keeps_raise (I : Inv) A (e : exn) : closed I -> keeps I (@raise L A e).
Proof.
  intros [Hn _] st. exists []. cbn. rewrite app_nil_r. auto.
Qed.

Lemma keeps_KeyError (I : Inv) A (k : string) :
  closed I -> keeps I (@KeyError L A k).
Proof. apply keeps_raise. Qed.

Lemma keeps_get_log (I : Inv) : closed I -> keeps I get_log.
Proof.
  intros [Hn _] st. exists []. cbn. rewrite app_nil_r. auto.
Qed.

Lemma keeps_print (I : Inv) (s : string) : closed I -> keeps I (print s).
Proof.
  intros [Hn _] st. exists []. cbn. rewrite app_nil_r. auto.
Qed.

Lemma keeps_modify (I : Inv) (f : L -> L) :
  (forall l, I [] l (f l)) -> keeps I (modify f).
Proof.
  intros H st. exists []. cbn. rewrite app_nil_r. auto.
Qed.

Lemma keeps_call (I : Inv) (c : Call) :
  (forall l, I [c] l l) -> keeps I (call c).
Proof.
  intros H st. exists [c]. cbn. auto.
Qed.

Lemma keeps_sleep (I : Inv) (n : nat) :
  (forall l, I [Sleep n] l l) -> keeps I (sleep n).
Proof.
  intros H st. exists [Sleep n]. cbn. auto.
Qed.

Lemma keeps_bind (I : Inv) A B (m : M L A) (f : A -> M L B) :
  closed I -> keeps I m -> (forall a, keeps I (f a)) -> keeps I (bind m f).
Proof.
  intros [Hn Ha] Hm Hf st. unfold bind.
  destruct (Hm st) as (e1 & Ht1 & Hi1).
  destruct (m w st) as [[a | e] st1]; cbn in *.
  - destruct (Hf a st1) as (e2 & Ht2 & Hi2).
    exists (e1 ++ e2). rewrite Ht2, Ht1, app_assoc. eauto.
  - exists e1. auto.
Qed.

Lemma keeps_ret_bind (I : Inv) A B (a : A) (f : A -> M L B) :
  keeps I (f a) -> keeps I (bind (ret a) f).
Proof. intros H st. exact (H st). Qed.

Lemma keeps_raise_bind (I : Inv) A B (e : exn) (f : A -> M L B) :
  closed I -> keeps I (bind (raise e) f).
Proof.
  intros [Hn _] st. exists []. cbn. rewrite app_nil_r. auto.
Qed.

(** The continuation of a call is run on what the provider answered. *)
Lemma keeps_call_bind (I : Inv) B (c : Call) (f : Response -> M L B) :
  closed I -> (forall l, I [c] l l) ->
  (forall h r, w h c = Ok r -> keeps I (f r)) ->
  keeps I (bind (call c) f).
Proof.
  intros [Hn Ha] Hc Hf st. unfold bind, call.
  destruct (w (trace st) c) as [r | e] eqn:E; cbn.
  - destruct (Hf _ _ E (mkSt (trace st ++ [c]) (out st) (log st)))
      as (e2 & Ht2 & Hi2). cbn in *.
    exists ([c] ++ e2). rewrite Ht2, app_assoc. eauto.
  - exists [c]. auto.
Qed.

Lemma keeps_try_except (I : Inv) A (m : M L A) (h : exn -> M L A) :
  closed I -> keeps I m -> (forall e, keeps I (h e)) ->
  keeps I (try_except m h).
Proof.
  intros [Hn Ha] Hm Hh st. unfold try_except.
  destruct (Hm st) as (e1 & Ht1 & Hi1).
  destruct (m w st) as [[a | e] st1]; cbn in *.
  - exists e1. auto.
  - destruct (Hh e st1) as (e2 & Ht2 & Hi2).
    exists (e1 ++ e2). rewrite Ht2, Ht1, app_assoc. eauto.
Qed.

Lemma keeps_try_except_client (I : Inv) A (m : M L A)
    (h : string -> string -> M L A) :
  closed I -> keeps I m -> (forall c s, keeps I (h c s)) ->
  keeps I (try_except_client m h).
Proof.
  intros Hc Hm Hh. unfold try_except_client.
  apply keeps_try_except; auto.
  intros [c s | | s]; auto using keeps_raise.
Qed.

Lemma keeps_try_pass (I : Inv) (m : M L unit) :
  closed I -> keeps I m -> keeps I (try_pass m).
Proof.
  intros Hc Hm. unfold try_pass.
  apply keeps_try_except; auto using keeps_ret.
Qed.

Lemma keeps_for_each (I : Inv) X (xs : list X) (body : X -> M L unit) :
  closed I -> (forall x, In x xs -> keeps I (body x)) ->
  keeps I (for_each xs body).
Proof.
  intros Hc. induction xs as [| x xs IH]; intros Hb; cbn.
  - apply keeps_ret; auto.
  - apply keeps_bind; auto.
    + apply Hb. now left.
    + intros _. apply IH. intros y Hy. apply Hb. now right.
Qed.

Lemma keeps_when (I : Inv) (b : bool) (m : M L unit) :
  closed I -> keeps I m -> keeps I (when b m).
Proof.
  intros Hc Hm. destruct b; cbn; auto using keeps_ret.
Qed.

Lemma keeps_first_of (I : Inv) A (l : list A) :
  closed I -> keeps I (@first_of L A l).
Proof.
  intros Hc. destruct l; cbn; auto using keeps_ret, keeps_raise.
Qed.

(** Every call of the run satisfies [p]. *)
Definition calls (p : Call -> Prop) : Inv := fun ext _ _ => Forall p ext.

Lemma closed_calls (p : Call -> Prop) : closed (calls p).
Proof.
  split; unfold calls; intros.
  - constructor.
  - apply Forall_app; auto.
Qed.

Lemma keeps_emitted (I : Inv) A (m : M L A) (st : St L) :
  keeps I m -> I (emitted st (snd (m w st))) (log st) (log (snd (m w st))).
Proof.
  intros H. destruct (H st) as (ext & Ht & Hi).
  rewrite (emitted_app _ _ _ Ht). exact Hi.
Qed.

End TraceLogic.

Create HintDb runs.
#[local] Hint Resolve closed_calls : runs.
#[local] Hint Resolve keeps_ret keeps_raise keeps_KeyError keeps_get_log
  keeps_print keeps_first_of : runs.

(** Walks down a method body, leaving one goal for each call and each
    update of the log.  A value bound to [ret a] is kept as [a]; the
    continuation of a call is given what the provider answered. *)
Ltac keeps_step :=
  lazymatch goal with
  | |- keeps _ _ (bind (call _) _) =>
      apply keeps_call_bind; [auto with runs | | intros ? ? ?]
  | |- keeps _ _ (bind (ret _) _) => apply keeps_ret_bind
  | |- keeps _ _ (bind (raise _) _) => apply keeps_raise_bind; auto with runs
  | |- keeps _ _ (bind (KeyError _) _) =>
      apply keeps_raise_bind; auto with runs
  | |- keeps _ _ (bind (match ?x with _ => _ end) _) => destruct x
  | |- keeps _ _ (bind (first_of ?l) _) => destruct l; cbn [first_of]
  | |- keeps _ _ (bind _ _) => apply keeps_bind; [auto with runs | | intros ?]
  | |- keeps _ _ (try_except_client _ _) =>
      apply keeps_try_except_client; [auto with runs | | intros ? ?]
  | |- keeps _ _ (try_except _ _) =>
      apply keeps_try_except; [auto with runs | | intros ?]
  | |- keeps _ _ (try_pass _) => apply keeps_try_pass; [auto with runs | ]
  | |- keeps _ _ (for_each _ _) =>
      apply keeps_for_each; [auto with runs | intros ? ?]
  | |- keeps _ _ (when _ _) => apply keeps_when; [auto with runs | ]
  | |- keeps _ _ (ret _) => apply keeps_ret; auto with runs
  | |- keeps _ _ (raise _) => apply keeps_raise; auto with runs
  | |- keeps _ _ (KeyError _) => apply keeps_KeyError; auto with runs
  | |- keeps _ _ (first_of _) => apply keeps_first_of; auto with runs
  | |- keeps _ _ (print _) => apply keeps_print; auto with runs
  | |- keeps _ _ get_log => apply keeps_get_log; auto with runs
  | |- keeps _ _ (call _) => apply keeps_call; intros ?
  | |- keeps _ _ (sleep _) => apply keeps_sleep; intros ?
  | |- keeps _ _ (modify _) => apply keeps_modify; intros ?
  | |- keeps _ _ (match ?x with _ => _ end) => destruct x
  | |- keeps _ _ (if ?x then _ else _) => destruct x
  end.

Ltac keeps_walk := repeat keeps_step.

(* ================================================================== *)
(** * The sweeper: classification and preservation *)

(** The calls that delete something. *)
Definition is_delete_call (c : Call) : bool :=
  match c with
  | DeleteObjects _ _ | DeleteBucketPolicy _ | DeleteBucketLifecycle _
  | DeleteBucketCors _ | DeleteBucket _ | DeleteStack _ _
  | DeleteFunction _ _ | DeleteDBInstance _ _ | TerminateInstances _ _
  | DeleteNatGateway _ _ | DeleteInternetGateway _ _
  | DeleteSecurityGroup _ _ | DeleteSubnet _ _ | DeleteRouteTable _ _
  | DeleteVpc _ _ => true
  | _ => false
  end.

Lemma opt_eqb_eq (o : option string) (s : string) :
  Sweeper.opt_eqb o s = true <-> o = Some s.
Proof.
  destruct o as [x |]; cbn.
  - rewrite String.eqb_eq. split; congruence.
  - split; discriminate.
Qed.

Lemma is_preserve_tag_iff (t : Tag) :
  Sweeper.is_preserve_tag t = true <->
  tag_Key t = Some "decom:preserve"%string /\
  tag_Value t = Some "true"%string.
Proof.
  unfold Sweeper.is_preserve_tag.
  rewrite andb_true_iff, !opt_eqb_eq. reflexivity.
Qed.

(** C10.  [is_resource_preserved] answers true exactly when the tag list
    has an entry whose Key is 'decom:preserve' and whose Value is 'true';
    an absent or empty list, and a list whose entries with that key all
    have another value, give false. *)
Theorem C10_preserved_iff_exact_tag (resource_id : string)
    (tags : option (list Tag)) :
  (Sweeper.is_resource_preserved resource_id tags = true <->
   exists l t, tags = Some l /\ In t l /\
     tag_Key t = Some "decom:preserve"%string /\
     tag_Value t = Some "true"%string)
  /\ Sweeper.is_resource_preserved resource_id None = false
  /\ Sweeper.is_resource_preserved resource_id (Some []) = false
  /\ (forall l,
        (forall t, In t l -> tag_Key t = Some "decom:preserve"%string ->
                   tag_Value t <> Some "true"%string) ->
        Sweeper.is_resource_preserved resource_id (Some l) = false).
Proof.
  assert (Hiff : forall tg,
    Sweeper.is_resource_preserved resource_id tg = true <->
    exists l t, tg = Some l /\ In t l /\
      tag_Key t = Some "decom:preserve"%string /\
      tag_Value t = Some "true"%string).
  { intros [[| t0 l] |]; cbn -[Sweeper.is_preserve_tag].
    - split; [discriminate |].
      intros (l & t & Hl & Hin & _). injection Hl as <-. destruct Hin.
    - change (Sweeper.is_preserve_tag t0 || existsb Sweeper.is_preserve_tag l)
        with (existsb Sweeper.is_preserve_tag (t0 :: l)).
      rewrite existsb_exists. split.
      + intros (t & Hin & Ht). apply is_preserve_tag_iff in Ht.
        exists (t0 :: l), t. tauto.
      + intros (l' & t & Hl & Hin & Ht). injection Hl as <-.
        exists t. split; [assumption |]. now apply is_preserve_tag_iff.
    - split; [discriminate |]. intros (l & t & Hl & _). discriminate. }
  split; [apply Hiff |]. split; [reflexivity |]. split; [reflexivity |].
  intros l Hl.
  destruct (Sweeper.is_resource_preserved resource_id (Some l)) eqn:E;
    [| reflexivity].
  apply Hiff in E. destruct E as (l' & t & Heq & Hin & Hk & Hv).
  injection Heq as <-. exfalso. exact (Hl t Hin Hk Hv).
Qed.

(** The tag lookup of a resource raises: the call [get_resource_tags]
    issues for a resource of kind [k] raises when issued after the calls
    [h].  For a function and a database the sweeper first asks for the
    resource's ARN. *)
Definition tag_lookup_raises (w : Oracle) (k : Sweeper.Kind)
    (region id : string) (h : list Call) : Prop :=
  match k with
  | Sweeper.S3Bucket => exists e, w h (GetBucketTagging id) = Raise e
  | Sweeper.Stack => exists e, w h (DescribeStacks region id) = Raise e
  | Sweeper.Ec2Instance => exists e, w h (DescribeTags region id) = Raise e
  | Sweeper.LambdaFunction =>
      exists arn e,
        w h (GetFunction region id) = Ok (RFunctionArn arn) /\
        w (h ++ [GetFunction region id]) (ListTags region arn) = Raise e
  | Sweeper.RdsInstance =>
      exists d rest e,
        w h (DescribeDBInstances region id) = Ok (RDBInstances (d :: rest)) /\
        w (h ++ [DescribeDBInstances region id])
          (ListTagsForResource region (db_Arn d)) = Raise e
  end.

Definition preserved_entry (k : Sweeper.Kind) (region id : string)
    : LogEntry :=
  mkEntry (Sweeper.kind_type k) id (Sweeper.kind_region k region)
          (Some "Tagged for preservation"%string).

(** C1.  When the tag lookup of a resource raises, the sweeper classifies
    the resource as preserved, whatever its kind, its name and the mode:
    the loop body ends normally, appends the resource to
    [skipped_preserved] (and counts it), leaves the other lists alone, and
    issues no deleting call. *)
Theorem C1_tag_lookup_failure_preserves (w : Oracle) (dry_run : bool)
    (k : Sweeper.Kind) (region id : string) (st : St Sweeper.DeletionLog) :
  tag_lookup_raises w k region id (trace st) ->
  let r := Sweeper.sweep_resource dry_run k region id w st in
  fst r = Ok tt /\
  log (snd r) = Sweeper.log_preserved (preserved_entry k region id) (log st) /\
  Forall (fun c => is_delete_call c = false) (emitted st (snd r)).
Proof.
  intros H r. subst r.
  destruct k; cbn in H.
  - destruct H as (e & H).
    unfold Sweeper.sweep_resource, Sweeper.sweep_bucket,
      Sweeper.get_resource_tags, try_except, bind, call; cbn.
    rewrite H; cbn.
    repeat split.
    unfold emitted; cbn. rewrite skipn_app, Nat.sub_diag, skipn_all; cbn.
    repeat constructor.
  - destruct H as (e & H).
    unfold Sweeper.sweep_resource, Sweeper.sweep_stack,
      Sweeper.get_resource_tags, try_except, bind, call; cbn.
    rewrite H; cbn.
    repeat split.
    unfold emitted; cbn. rewrite skipn_app, Nat.sub_diag, skipn_all; cbn.
    repeat constructor.
  - destruct H as (arn & e & H1 & H2).
    unfold Sweeper.sweep_resource, Sweeper.sweep_function,
      Sweeper.get_resource_tags, try_except, bind, call; cbn.
    rewrite H1; cbn. rewrite H2; cbn.
    repeat split.
    unfold emitted; cbn. rewrite <- app_assoc.
    rewrite skipn_app, Nat.sub_diag, skipn_all; cbn.
    repeat constructor.
  - destruct H as (d & rest & e & H1 & H2).
    unfold Sweeper.sweep_resource, Sweeper.sweep_db,
      Sweeper.get_resource_tags, try_except, bind, call; cbn.
    rewrite H1; cbn. rewrite H2; cbn.
    repeat split.
    unfold emitted; cbn. rewrite <- app_assoc.
    rewrite skipn_app, Nat.sub_diag, skipn_all; cbn.
    repeat constructor.
  - destruct H as (e & H).
    unfold Sweeper.sweep_resource, Sweeper.sweep_instance,
      Sweeper.get_resource_tags, try_except, bind, call; cbn.
    rewrite H; cbn.
    repeat split.
    unfold emitted; cbn. rewrite skipn_app, Nat.sub_diag, skipn_all; cbn.
    repeat constructor.
Qed.

(** Runs whose calls all satisfy [p] and which leave the log alone. *)
Definition quiet {L : Type} (p : Call -> Prop) : Inv L :=
  fun ext l l' => Forall p ext /\ l' = l.

Lemma closed_quiet {L : Type} (p : Call -> Prop) : closed (@quiet L p).
Proof.
  split; unfold quiet.
  - auto.
  - intros e1 e2 l1 l2 l3 [H1 ->] [H2 ->]. split; auto using Forall_app.
    apply Forall_app; auto.
Qed.
#[local] Hint Resolve closed_quiet : runs.

(** Runs that issue no deleting call and leave the log alone. *)
Definition harmless {L : Type} : Inv L :=
  quiet (fun c => is_delete_call c = false).

Lemma closed_harmless {L : Type} : closed (@harmless L).
Proof. apply closed_quiet. Qed.
#[local] Hint Resolve closed_harmless : runs.

Ltac harmless_leaf :=
  unfold harmless, quiet; split; [repeat constructor | reflexivity].

Lemma rebuild_tags_harmless (w : Oracle) (l : list Tag) :
  keeps w harmless (Sweeper.rebuild_tags l).
Proof.
  induction l as [| t l IH]; cbn.
  - keeps_walk.
  - keeps_step.
    + unfold Sweeper.rebuild_tag. keeps_walk.
    + keeps_step; [exact IH | keeps_walk].
Qed.

Lemma get_resource_tags_harmless (w : Oracle) region arn id ty :
  keeps w harmless (Sweeper.get_resource_tags region arn id ty).
Proof.
  unfold Sweeper.get_resource_tags, Sweeper.required.
  keeps_walk; try harmless_leaf; apply rebuild_tags_harmless.
Qed.

(** [get_resource_tags] never raises. *)
Lemma get_resource_tags_returns (w : Oracle) region arn id ty st :
  exists tags, fst (Sweeper.get_resource_tags region arn id ty w st) = Ok tags.
Proof.
  unfold Sweeper.get_resource_tags, try_except.
  match goal with |- context [match ?m w st with _ => _ end] =>
    destruct (m w st) as [[tags | e] st1] end; cbn; eauto.
Qed.

(** The part of a loop body of the sweeper that obtains the tags of the
    resource. *)
Definition lookup_tags (k : Sweeper.Kind) (region id : string)
    : M Sweeper.DeletionLog (list Tag) :=
  match k with
  | Sweeper.S3Bucket =>
      Sweeper.get_resource_tags "" None (Some id) "s3"
  | Sweeper.Stack =>
      Sweeper.get_resource_tags region None (Some id) "cloudformation"
  | Sweeper.Ec2Instance =>
      Sweeper.get_resource_tags region None (Some id) "ec2"
  | Sweeper.LambdaFunction =>
      func_details <- call (GetFunction region id) ;;
      function_arn <-
        match func_details with
        | RFunctionArn arn => ret arn
        | _ => KeyError "Configuration"
        end ;;
      Sweeper.get_resource_tags region (Some function_arn) None "lambda"
  | Sweeper.RdsInstance =>
      response <- call (DescribeDBInstances region id) ;;
      db_details <-
        match response with
        | RDBInstances l => first_of l
        | _ => KeyError "DBInstances"
        end ;;
      Sweeper.get_resource_tags region (Some (db_Arn db_details)) None "rds"
  end.

Lemma lookup_tags_harmless (w : Oracle) k region id :
  keeps w harmless (lookup_tags k region id).
Proof.
  destruct k; cbn [lookup_tags];
    try apply get_resource_tags_harmless;
    keeps_walk; try harmless_leaf; apply get_resource_tags_harmless.
Qed.

(** A resource whose tags make [is_resource_preserved] true is recorded
    as preserved, and the body stops there. *)
Lemma sweep_resource_preserved (w : Oracle) (dry_run : bool)
    (k : Sweeper.Kind) (region id : string) (st st1 : St Sweeper.DeletionLog)
    (tags : list Tag) :
  lookup_tags k region id w st = (Ok tags, st1) ->
  Sweeper.is_resource_preserved id (Some tags) = true ->
  Sweeper.sweep_resource dry_run k region id w st =
  (Ok tt,
   mkSt (trace st1) (out st1)
        (Sweeper.log_preserved (preserved_entry k region id) (log st1))).
Proof.
  intros Hl Hp.
  destruct k; cbn [lookup_tags Sweeper.sweep_resource] in *.
  - unfold Sweeper.sweep_bucket, try_except, bind. rewrite Hl, Hp. reflexivity.
  - unfold Sweeper.sweep_stack, try_except, bind. rewrite Hl, Hp. reflexivity.
  - unfold Sweeper.sweep_function, try_except, bind in *.
    destruct (call (GetFunction region id) w st) as [[fd | e] st2];
      [| discriminate].
    destruct fd; cbn -[Sweeper.is_resource_preserved] in Hl |- *;
      try discriminate.
    rewrite Hl, Hp. reflexivity.
  - unfold Sweeper.sweep_db, try_except, bind in *.
    destruct (call (DescribeDBInstances region id) w st) as [[r | e] st2];
      [| discriminate].
    destruct r; cbn -[Sweeper.is_resource_preserved] in Hl |- *;
      try discriminate.
    destruct dbs as [| d dbs];
      cbn -[Sweeper.is_resource_preserved] in Hl |- *; try discriminate.
    rewrite Hl, Hp. reflexivity.
  - unfold Sweeper.sweep_instance, try_except, bind. rewrite Hl, Hp.
    reflexivity.
Qed.

(** A provider whose lookup of tags fails for every function. *)
Definition tagless_world : Oracle :=
  fun _ c =>
    match c with
    | GetFunction _ name =>
        Ok (RFunctionArn ("arn:aws:lambda:function:" ++ name)%string)
    | ListTags _ _ => Raise (ClientError "AccessDeniedException" "denied")
    | _ => Ok RNone
    end.

Lemma C1_witness :
  let st := mkSt [] ""%string Sweeper.empty_log in
  let r := Sweeper.sweep_resource false Sweeper.LambdaFunction "eu-west-1"
             "nightly-report" tagless_world st in
  fst r = Ok tt /\
  log (snd r) =
    Sweeper.log_preserved
      (preserved_entry Sweeper.LambdaFunction "eu-west-1" "nightly-report")
      (log st) /\
  Forall (fun c => is_delete_call c = false) (emitted st (snd r)).
Proof.
  apply (@C1_tag_lookup_failure_preserves tagless_world false
           Sweeper.LambdaFunction "eu-west-1" "nightly-report"
           (mkSt [] ""%string Sweeper.empty_log)).
  cbn. eexists. eexists. split; reflexivity.
Defined.

(** C2, as amended.  A resource the sweeper classifies as preserved (the
    tags it obtained for it carry decom:preserve=true) is recorded in
    [skipped_preserved] and nothing else, and the sweeper issues no
    deleting call while it handles the resource. *)
Theorem C2_sweeper_never_deletes_preserved (w : Oracle) (dry_run : bool)
    (k : Sweeper.Kind) (region id : string)
    (st st1 : St Sweeper.DeletionLog) (tags : list Tag) :
  lookup_tags k region id w st = (Ok tags, st1) ->
  Sweeper.is_resource_preserved id (Some tags) = true ->
  let r := Sweeper.sweep_resource dry_run k region id w st in
  fst r = Ok tt /\
  log (snd r) = Sweeper.log_preserved (preserved_entry k region id) (log st) /\
  Forall (fun c => is_delete_call c = false) (emitted st (snd r)).
Proof.
  intros Hl Hp r. subst r.
  rewrite (@sweep_resource_preserved w dry_run k region id st st1 tags Hl Hp).
  cbn.
  destruct (lookup_tags_harmless w k region id st) as (ext & Ht & Hf & Hlog).
  rewrite Hl in Ht, Hlog. cbn in Ht, Hlog.
  split; [reflexivity |]. split; [now rewrite Hlog |].
  unfold emitted. cbn. rewrite Ht, skipn_app, Nat.sub_diag, skipn_all.
  exact Hf.
Qed.

(** A provider with one bucket and one function, both tagged
    decom:preserve=true. *)
Definition tagged_world : Oracle :=
  fun _ c =>
    match c with
    | ListBuckets => Ok (RBuckets ["payroll-archive"%string])
    | GetBucketTagging _ => Ok (RTagSet Sweeper.preserve_default)
    | ListFunctions _ => Ok (RFunctions [["payroll-export"%string]])
    | GetFunction _ name =>
        Ok (RFunctionArn ("arn:aws:lambda:function:" ++ name)%string)
    | ListTags _ _ =>
        Ok (RTagMap [("decom:preserve"%string, "true"%string)])
    | _ => Ok RNone
    end.

Lemma C2_witness :
  let st := mkSt [] ""%string Sweeper.empty_log in
  let r := Sweeper.sweep_resource false Sweeper.S3Bucket "" "payroll-archive"
             tagged_world st in
  fst r = Ok tt /\
  log (snd r) =
    Sweeper.log_preserved
      (preserved_entry Sweeper.S3Bucket "" "payroll-archive") (log st) /\
  Forall (fun c => is_delete_call c = false) (emitted st (snd r)).
Proof.
  apply (@C2_sweeper_never_deletes_preserved tagged_world false
           Sweeper.S3Bucket "" "payroll-archive"
           (mkSt [] ""%string Sweeper.empty_log)
           (mkSt [GetBucketTagging "payroll-archive"] ""%string
                 Sweeper.empty_log)
           Sweeper.preserve_default).
  - reflexivity.
  - reflexivity.
Defined.

(** The sweeper on an inventory of two buckets, one tagged for
    preservation and one not, in live mode: one is skipped, the other is
    emptied and deleted. *)
Definition two_buckets_world : Oracle :=
  fun _ c =>
    match c with
    | GetBucketTagging b =>
        if String.eqb b "payroll-archive"
        then Ok (RTagSet Sweeper.preserve_default)
        else Ok (RTagSet [mkTag (Some "team"%string) (Some "data"%string)])
    | ListObjectVersions _ =>
        Ok (RVersionPages
              [mkVersionPage [mkObj "a.csv" (Some "v1"%string)] []])
    | _ => Ok RNone
    end.

Example sweeper_two_buckets_example :
  let inventory :=
    [("us-east-1"%string,
      Sweeper.mkRegion (Some ["payroll-archive"; "scratch"]%string)
        None None None None [])] in
  let r :=
    Sweeper.delete_s3_buckets inventory false two_buckets_world
      (mkSt [] ""%string Sweeper.empty_log) in
  map entry_id (Sweeper.skipped_preserved (log (snd r)))
    = ["payroll-archive"%string] /\
  map entry_id (Sweeper.successful (log (snd r))) = ["scratch"%string] /\
  map entry_id (Sweeper.failed (log (snd r))) = [] /\
  trace (snd r)
    = [GetBucketTagging "payroll-archive"; GetBucketTagging "scratch";
       ListObjectVersions "scratch";
       DeleteObjects "scratch" [mkObj "a.csv" (Some "v1"%string)];
       DeleteBucket "scratch"].
Proof. vm_compute. repeat split. Qed.

(** C2, as stated, fails: the closure agents do not read tags.  With a
    bucket and a function that the sweeper classifies as preserved, the
    storage agent calls [delete_bucket] on the bucket and the compute
    agent calls [delete_function] on the function. *)
Lemma C2_counterexample :
  fst (lookup_tags Sweeper.S3Bucket "" "payroll-archive" tagged_world
         (mkSt [] ""%string Sweeper.empty_log))
    = Ok Sweeper.preserve_default /\
  Sweeper.is_resource_preserved "payroll-archive"
    (Some Sweeper.preserve_default) = true /\
  In (DeleteBucket "payroll-archive")
     (trace (snd (StorageAgent.destroy_s3_buckets tagged_world
                    (mkSt [] ""%string StorageAgent.initial_log)))) /\
  fst (lookup_tags Sweeper.LambdaFunction "us-east-1" "payroll-export"
         tagged_world (mkSt [] ""%string Sweeper.empty_log))
    = Ok Sweeper.preserve_default /\
  In (DeleteFunction "us-east-1" "payroll-export")
     (trace (snd (ComputeAgent.destroy_lambda_functions "us-east-1"
                    tagged_world
                    (mkSt [] ""%string ComputeAgent.initial_log)))).
Proof.
  split; [reflexivity |]. split; [reflexivity |].
  split; [vm_compute; auto 10 |].
  split; [reflexivity |]. vm_compute; auto 10.
Qed.

(* ================================================================== *)
(** * The targeted bucket destroyer: absent buckets, errors, retries *)

Definition not_delete_bucket (c : Call) : Prop :=
  match c with DeleteBucket _ => False | _ => True end.

Ltac list_eq :=
  repeat (cbn [app]; rewrite <- app_assoc); cbn [app]; reflexivity.

Ltac quiet_leaf :=
  unfold quiet; split; [repeat (constructor; cbn; auto) | reflexivity].

Lemma empty_bucket_contents_quiet (w : Oracle) (b : string) :
  keeps w (quiet not_delete_bucket) (TargetedS3.empty_bucket_contents b).
Proof.
  unfold TargetedS3.empty_bucket_contents. keeps_walk; quiet_leaf.
Qed.

Lemma remove_bucket_configurations_quiet (w : Oracle) (b : string) :
  keeps w (quiet not_delete_bucket) (TargetedS3.remove_bucket_configurations b).
Proof.
  unfold TargetedS3.remove_bucket_configurations,
    TargetedS3.remove_configuration.
  keeps_walk; quiet_leaf.
Qed.


(** The [error_type] that the handlers of [destroy_bucket] give to an
    exception. *)
Definition delete_error_type (e : exn) : string :=
  match e with
  | ClientError code msg =>
      if String.eqb code "AccessDenied" then "access_denied"
      else if String.eqb code "BucketNotEmpty" then "bucket_not_empty"
      else if Py.contains "ServiceControlPolicy" msg || Py.contains "SCP" msg
           then "policy_restricted"
      else "other_error"
  | _ => "unexpected_error"
  end%string.


Lemma destroy_bucket_failed_spec (w : Oracle) (e : exn)
    (st : St TargetedS3.Results) :
  TargetedS3.status (TargetedS3.current (log st)) = "failed"%string ->
  exists st',
    TargetedS3.destroy_bucket_failed e w st = (Ok tt, st') /\
    trace st' = trace st /\
    TargetedS3.status (TargetedS3.current (log st')) = "failed"%string /\
    TargetedS3.error_type (TargetedS3.current (log st'))
      = Some (delete_error_type e) /\
    TargetedS3.error_message (TargetedS3.current (log st'))
      = Some (exn_str e).
Proof.
  intros Hs.
  destruct e as [code msg | | msg]; cbn.
  - destruct (String.eqb code "AccessDenied"); cbn;
      [eexists; repeat split; eauto |].
    destruct (String.eqb code "BucketNotEmpty"); cbn;
      [eexists; repeat split; eauto |].
    destruct (Py.contains "ServiceControlPolicy" msg || Py.contains "SCP" msg);
      cbn; eexists; repeat split; eauto.
  - eexists; repeat split; eauto.
  - eexists; repeat split; eauto.
Qed.

(** What the steps of [destroy_bucket] do: some calls that are not
    [delete_bucket], then either nothing more, or one [delete_bucket] on
    which the outcome depends. *)
Lemma destroy_bucket_steps_spec (w : Oracle) (bucket : string)
    (st : St TargetedS3.Results) :
  TargetedS3.status (TargetedS3.current (log st)) = "failed"%string ->
  exists pre r st',
    TargetedS3.destroy_bucket_steps bucket w st = (r, st') /\
    Forall not_delete_bucket pre /\
    ( (trace st' = trace st ++ pre /\
       (forall e, r = Raise e ->
          TargetedS3.status (TargetedS3.current (log st')) = "failed"%string))
      \/ (trace st' = trace st ++ pre ++ [DeleteBucket bucket] /\
          exists x, w (trace st ++ pre) (DeleteBucket bucket) = Ok x /\
          r = Ok tt /\
          TargetedS3.status (TargetedS3.current (log st')) = "success"%string)
      \/ (trace st' = trace st ++ pre ++ [DeleteBucket bucket] /\
          exists e, w (trace st ++ pre) (DeleteBucket bucket) = Raise e /\
          r = Raise e /\
          TargetedS3.status (TargetedS3.current (log st')) = "failed"%string)).
Proof.
  intros Hs.
  unfold TargetedS3.destroy_bucket_steps.
  unfold bind at 1.
  assert (Hcheck :
    (TargetedS3.check_bucket_exists bucket w st =
       (Ok true, mkSt (trace st ++ [HeadBucket bucket]) (out st)
                   (log (snd (TargetedS3.step_completed
                                "bucket_exists_check" w st)))))
    \/ exists r st',
         TargetedS3.check_bucket_exists bucket w st = (r, st') /\
         r <> Ok true /\ trace st' = trace st ++ [HeadBucket bucket] /\
         (forall e, r = Raise e ->
            TargetedS3.status (TargetedS3.current (log st'))
              = "failed"%string)).
  { unfold TargetedS3.check_bucket_exists, try_except_client, try_except,
      bind, call; cbn.
    destruct (w (trace st) (HeadBucket bucket)) as [x | [code msg | | msg]];
      cbn; [now left | right ..].
    - destruct (String.eqb code "NoSuchBucket"); cbn;
        [eexists; eexists; repeat split; eauto; discriminate |].
      destruct (String.eqb code "AccessDenied"); cbn;
        eexists; eexists; repeat split; eauto; discriminate.
    - eexists; eexists; repeat split; eauto; discriminate.
    - eexists; eexists; repeat split; eauto; discriminate. }
  destruct Hcheck as [Hc | (r & st1 & Hc & Hr & Ht & Hf)].
  2: { rewrite Hc. exists [HeadBucket bucket].
       destruct r as [[|] | e]; try congruence; cbn;
         eexists; eexists; (split; [reflexivity |]);
         (split; [repeat constructor |]); left; split; auto.
       - intros e; discriminate.
       - intros e0 _. now apply (Hf e). }
  rewrite Hc. cbn [negb].
  set (st1 := mkSt (trace st ++ [HeadBucket bucket]) (out st) _).
  assert (Hs1 : TargetedS3.status (TargetedS3.current (log st1))
                = "failed"%string) by exact Hs.
  unfold bind at 1.
  destruct (empty_bucket_contents_quiet w bucket st1) as (e2 & Ht2 & Hf2 & Hl2).
  destruct (TargetedS3.empty_bucket_contents bucket w st1)
    as [[[|] | e] st2] eqn:E2; cbn in Ht2, Hl2; cbn [negb].
  3: { exists ([HeadBucket bucket] ++ e2), (Raise e), st2.
       split; [reflexivity |]. split; [constructor; [exact I | exact Hf2] |].
       left. split; [rewrite Ht2; subst st1; cbn; now rewrite <- app_assoc |].
       intros _ _. rewrite Hl2. exact Hs1. }
  2: { exists ([HeadBucket bucket] ++ e2). eexists. eexists.
       split; [reflexivity |]. split; [constructor; [exact I | exact Hf2] |].
       left. split; [cbn; rewrite Ht2; subst st1; cbn;
                     now rewrite <- app_assoc |].
       intros e; discriminate. }
  unfold bind at 1. cbn [TargetedS3.step_completed TargetedS3.set_current modify].
  set (st2' := mkSt (trace st2) (out st2) _).
  unfold bind at 1.
  destruct (remove_bucket_configurations_quiet w bucket st2')
    as (e3 & Ht3 & Hf3 & Hl3).
  destruct (TargetedS3.remove_bucket_configurations bucket w st2')
    as [[removed | e] st3] eqn:E3; cbn in Ht3, Hl3.
  2: { exists ([HeadBucket bucket] ++ e2 ++ e3), (Raise e), st3.
       split; [reflexivity |].
       split; [constructor; [exact I | now apply Forall_app] |].
       left. split; [rewrite Ht3, Ht2; subst st1; cbn;
                     now rewrite <- !app_assoc |].
       intros _ _. rewrite Hl3. cbn. rewrite Hl2. exact Hs1. }
  assert (Htr : trace st3 = trace st ++ ([HeadBucket bucket] ++ e2 ++ e3)).
  { rewrite Ht3. cbn. rewrite Ht2. subst st1. cbn.
    now rewrite <- !app_assoc. }
  exists ([HeadBucket bucket] ++ e2 ++ e3).
  unfold bind, call; cbn.
  rewrite Htr.
  destruct (w (trace st ++ [HeadBucket bucket] ++ e2 ++ e3)
              (DeleteBucket bucket)) as [x | e] eqn:Ed; cbn.
  - eexists. eexists. split; [reflexivity |].
    split; [constructor; [exact I | now apply Forall_app] |].
    right. left. cbn. split; [list_eq |].
    exists x. auto.
  - eexists. eexists. split; [reflexivity |].
    split; [constructor; [exact I | now apply Forall_app] |].
    right. right. cbn. split; [list_eq |].
    exists e. repeat split; auto. rewrite Hl3. cbn. rewrite Hl2. exact Hs1.
Qed.

(** C4, as amended.  [destroy_bucket] calls [delete_bucket] at most once,
    after calls that are not [delete_bucket], and the call is never
    repeated.  When the call succeeds the result is 'success'; when it
    raises, whatever the error, the result is 'failed' with the error's
    type and message.  An access-denied or policy-restricted error is thus
    recorded as failed without a retry; so is every other error. *)
Theorem C4_delete_is_attempted_once (w : Oracle) (bucket : string)
    (st : St TargetedS3.Results) :
  let r := TargetedS3.destroy_bucket bucket w st in
  exists pre result,
    fst r = Ok result /\
    Forall not_delete_bucket pre /\
    ( emitted st (snd r) = pre
      \/ (emitted st (snd r) = pre ++ [DeleteBucket bucket] /\
          exists x, w (trace st ++ pre) (DeleteBucket bucket) = Ok x /\
          TargetedS3.status result = "success"%string)
      \/ (emitted st (snd r) = pre ++ [DeleteBucket bucket] /\
          exists e, w (trace st ++ pre) (DeleteBucket bucket) = Raise e /\
          TargetedS3.status result = "failed"%string /\
          TargetedS3.error_type result = Some (delete_error_type e) /\
          TargetedS3.error_message result = Some (exn_str e)) ).
Proof.
  intros r.
  assert (H : exists pre result st',
    TargetedS3.destroy_bucket bucket w st = (Ok result, st') /\
    Forall not_delete_bucket pre /\
    ( trace st' = trace st ++ pre
      \/ (trace st' = trace st ++ pre ++ [DeleteBucket bucket] /\
          exists x, w (trace st ++ pre) (DeleteBucket bucket) = Ok x /\
          TargetedS3.status result = "success"%string)
      \/ (trace st' = trace st ++ pre ++ [DeleteBucket bucket] /\
          exists e, w (trace st ++ pre) (DeleteBucket bucket) = Raise e /\
          TargetedS3.status result = "failed"%string /\
          TargetedS3.error_type result = Some (delete_error_type e) /\
          TargetedS3.error_message result = Some (exn_str e)) )).
  { unfold TargetedS3.destroy_bucket.
    unfold bind at 1. cbn [TargetedS3.set_current modify].
    set (st0 := mkSt (trace st) (out st) _).
    assert (Hs0 : TargetedS3.status (TargetedS3.current (log st0))
                  = "failed"%string) by reflexivity.
    destruct (destroy_bucket_steps_spec w bucket st0 Hs0)
      as (pre & r0 & st' & Hr & Hpre & Hcases).
    change (trace st0) with (trace st) in Hcases.
    exists pre. unfold bind, try_except. rewrite Hr.
    destruct Hcases as [[Ht Hf] | [(Ht & x & Hx & -> & Hst)
                                  | (Ht & e & He & -> & Hst)]].
    - destruct r0 as [[] | e].
      + eexists. eexists. split; [reflexivity |]. split; [exact Hpre |].
        left. exact Ht.
      + destruct (destroy_bucket_failed_spec w e st' (Hf e eq_refl))
          as (st'' & Hh & Ht' & _).
        rewrite Hh. eexists. eexists. split; [reflexivity |].
        split; [exact Hpre |]. left. now rewrite Ht'.
    - eexists. eexists. split; [reflexivity |]. split; [exact Hpre |].
      right. left. split; [exact Ht |]. eauto.
    - destruct (destroy_bucket_failed_spec w e st' Hst)
        as (st'' & Hh & Ht' & Hs' & Hty & Hmsg).
      rewrite Hh. eexists. eexists. split; [reflexivity |].
      split; [exact Hpre |]. right. right.
      split; [now rewrite Ht' |]. eauto 6. }
  destruct H as (pre & result & st' & Heq & Hpre & Hcases).
  subst r. rewrite Heq. cbn [fst snd].
  exists pre, result. split; [reflexivity |]. split; [exact Hpre |].
  destruct Hcases as [Ht | [(Ht & Hx) | (Ht & He)]].
  - left. now apply emitted_app.
  - right. left. split; [now apply emitted_app | exact Hx].
  - right. right. split; [now apply emitted_app | exact He].
Qed.

Definition is_delete_bucket (c : Call) : bool :=
  match c with DeleteBucket _ => true | _ => false end.

(** A provider whose [delete_bucket] fails twice with the throttling
    error of S3 and succeeds the third time. *)
Definition throttled_world : Oracle :=
  fun h c =>
    match c with
    | DeleteBucket _ =>
        if Nat.ltb (length (filter is_delete_bucket h)) 2
        then Raise (ClientError "SlowDown" "Please reduce your request rate.")
        else Ok RNone
    | _ => Ok RNone
    end.

(** C4, as stated, fails: no caller retries.  Where the third
    [delete_bucket] would succeed, [destroy_bucket] and the sweeper both
    call it once and record a failure. *)
Lemma C4_counterexample :
  throttled_world [DeleteBucket "build-cache"; DeleteBucket "build-cache"]
    (DeleteBucket "build-cache") = Ok RNone /\
  (let r := TargetedS3.destroy_bucket "build-cache" throttled_world
              (mkSt [] ""%string TargetedS3.initial_results) in
   option_map TargetedS3.status
     (match fst r with Ok b => Some b | Raise _ => None end)
     = Some "failed"%string /\
   length (filter is_delete_bucket (trace (snd r))) = 1) /\
  (let r := Sweeper.sweep_bucket false "build-cache" throttled_world
              (mkSt [] ""%string Sweeper.empty_log) in
   map entry_id (Sweeper.failed (log (snd r))) = ["build-cache"%string] /\
   Sweeper.successful (log (snd r)) = [] /\
   length (filter is_delete_bucket (trace (snd r))) = 1).
Proof.
  split; [reflexivity |]. split; vm_compute; auto.
Qed.



(* ================================================================== *)
(** * Order of calls *)

(** In [tr], every call that satisfies [P] comes before every call that
    satisfies [Q]. *)
Definition precedes (P Q : Call -> Prop) (tr : list Call) : Prop :=
  forall i j a b,
    nth_error tr i = Some a -> nth_error tr j = Some b ->
    P a -> Q b -> i < j.

Lemma precedes_no_P (P Q : Call -> Prop) (tr : list Call) :
  Forall (fun c => ~ P c) tr -> precedes P Q tr.
Proof.
  intros H i j a b Ha _ HP _. exfalso.
  rewrite Forall_forall in H. apply (H a); [| exact HP].
  eapply nth_error_In; eauto.
Qed.

Lemma precedes_no_Q (P Q : Call -> Prop) (tr : list Call) :
  Forall (fun c => ~ Q c) tr -> precedes P Q tr.
Proof.
  intros H i j a b _ Hb _ HQ. exfalso.
  rewrite Forall_forall in H. apply (H b); [| exact HQ].
  eapply nth_error_In; eauto.
Qed.

Lemma precedes_app (P Q : Call -> Prop) (e e' : list Call) :
  precedes P Q e -> precedes P Q e' ->
  Forall (fun c => ~ P c) e' \/ Forall (fun c => ~ Q c) e ->
  precedes P Q (e ++ e').
Proof.
  intros He He' Hx i j a b Ha Hb HP HQ.
  rewrite nth_error_app in Ha, Hb.
  destruct (Nat.ltb_spec i (length e)) as [Hi | Hi];
    destruct (Nat.ltb_spec j (length e)) as [Hj | Hj].
  - eapply He; eauto.
  - lia.
  - exfalso. destruct Hx as [Hx | Hx]; rewrite Forall_forall in Hx.
    + apply (Hx a); [eapply nth_error_In; eauto | exact HP].
    + apply (Hx b); [eapply nth_error_In; eauto | exact HQ].
  - assert (i - length e < j - length e) by (eapply He'; eauto). lia.
Qed.

Lemma precedes_cons_other (P Q : Call -> Prop) (c : Call) (e : list Call) :
  ~ Q c -> precedes P Q e -> precedes P Q (c :: e).
Proof.
  intros Hc He. change (c :: e) with ([c] ++ e).
  apply precedes_app;
    [apply precedes_no_Q; repeat constructor; auto
    | assumption
    | right; repeat constructor; auto].
Qed.

Lemma StronglySorted_app (A : Type) (R : A -> A -> Prop) (l1 l2 : list A) :
  StronglySorted R l1 -> StronglySorted R l2 ->
  (forall a b, In a l1 -> In b l2 -> R a b) ->
  StronglySorted R (l1 ++ l2).
Proof.
  induction l1 as [| x l1 IH]; intros H1 H2 H; cbn; [exact H2 |].
  apply StronglySorted_inv in H1. destruct H1 as [H1 Hx].
  constructor.
  - apply IH; auto. intros a b Ha Hb. apply H; [now right | exact Hb].
  - apply Forall_app. split; [exact Hx |].
    apply Forall_forall. intros b Hb. apply H; [now left | exact Hb].
Qed.

(** In a sorted list no element comes before one of a smaller key. *)
Lemma StronglySorted_nth (A : Type) (key : A -> nat) (l : list A) :
  StronglySorted (fun a b => key a <= key b) l ->
  forall i j a b,
    nth_error l i = Some a -> nth_error l j = Some b -> i < j ->
    key a <= key b.
Proof.
  induction 1 as [| x l Hs IH Hx]; intros i j a b Ha Hb Hij.
  - destruct i; discriminate.
  - destruct j as [| j]; [lia |]. cbn in Hb.
    destruct i as [| i]; cbn in Ha.
    + injection Ha as <-. rewrite Forall_forall in Hx. apply Hx.
      eapply nth_error_In; eauto.
    + eapply IH; eauto. lia.
Qed.



Lemma insert_by_perm (A : Type) (key : A -> nat) (x : A) (l : list A) :
  Permutation (x :: l) (Py.insert_by key x l).
Proof.
  induction l as [| y l IH]; cbn; [reflexivity |].
  destruct (Nat.leb (key x) (key y)); [reflexivity |].
  rewrite perm_swap. now constructor.
Qed.

(** [sorted(l, key=key)] has the elements of [l]. *)
Lemma sorted_by_perm (A : Type) (key : A -> nat) (l : list A) :
  Permutation l (Py.sorted_by key l).
Proof.
  induction l as [| x l IH]; cbn; [constructor |].
  rewrite <- insert_by_perm. now constructor.
Qed.

(* ================================================================== *)
(** * CloudFormation stacks are deleted in priority order *)

(** The names of the stacks of [region] that the calls [tr] delete, in
    the order of the calls. *)
Definition deleted_stacks (region : string) (tr : list Call) : list string :=
  flat_map
    (fun c =>
       match c with
       | DeleteStack r name => if String.eqb r region then [name] else []
       | _ => []
       end) tr.





Ltac calls_leaf := unfold calls; repeat (constructor; cbn; auto).











Example C6_sorted_example :
  Py.sorted_by InfraAgent.stack_priority
    ["AWSControlTowerBP-BASELINE"; "StackSet-Audit-1"; "billing-api";
     "aws-landing-zone-core"; "web-frontend"]%string
  = ["billing-api"; "web-frontend"; "StackSet-Audit-1";
     "AWSControlTowerBP-BASELINE"; "aws-landing-zone-core"]%string.
Proof. reflexivity. Qed.

(* ================================================================== *)
(** * The networking pass *)

(** A security group that an answer to [describe_security_groups] listed
    under a name other than 'default'; a VPC that an answer to
    [describe_vpcs] listed as not the default one. *)
Definition listed_custom_sg (w : Oracle) (region id : string) : Prop :=
  exists h sgs sg,
    w h (DescribeSecurityGroups region) = Ok (RSecurityGroups sgs) /\
    In sg sgs /\ sg_GroupId sg = id /\ sg_GroupName sg <> "default"%string.

Definition listed_custom_vpc (w : Oracle) (region id : string) : Prop :=
  exists h vpcs vpc,
    w h (DescribeVpcs region) = Ok (RVpcs vpcs) /\
    In vpc vpcs /\ vpc_VpcId vpc = id /\ vpc_IsDefault vpc = false.

Definition custom_call (w : Oracle) (c : Call) : Prop :=
  match c with
  | DeleteSecurityGroup region id => listed_custom_sg w region id
  | DeleteVpc region id => listed_custom_vpc w region id
  | _ => True
  end.

Definition custom_entry (w : Oracle) (region : string) (e : LogEntry)
    : Prop :=
  (entry_type e = "security_group"%string ->
   listed_custom_sg w region (entry_id e)) /\
  (entry_type e = "vpc"%string -> listed_custom_vpc w region (entry_id e)).

(** The calls delete custom groups and networks only, and so do the
    entries added to the list of destroyed resources. *)
Definition spares_defaults (w : Oracle) (region : string)
    : Inv Closure.DestructionLog :=
  fun ext l l' =>
    Forall (custom_call w) ext /\
    exists new,
      Closure.destroyed l' = Closure.destroyed l ++ new /\
      Forall (custom_entry w region) new.

Lemma closed_spares_defaults (w : Oracle) (region : string) :
  closed (spares_defaults w region).
Proof.
  split; unfold spares_defaults.
  - intros l. split; [constructor |]. exists []. now rewrite app_nil_r.
  - intros e1 e2 l1 l2 l3 (H1 & n1 & Hn1 & Hf1) (H2 & n2 & Hn2 & Hf2).
    split; [now apply Forall_app |].
    exists (n1 ++ n2). rewrite Hn2, Hn1, app_assoc.
    split; [reflexivity | now apply Forall_app].
Qed.
#[local] Hint Resolve closed_spares_defaults : runs.

Lemma custom_sgs_listed (w : Oracle) (region : string) h sgs sg :
  w h (DescribeSecurityGroups region) = Ok (RSecurityGroups sgs) ->
  In sg (InfraAgent.custom_sgs sgs) ->
  listed_custom_sg w region (sg_GroupId sg).
Proof.
  intros Hw Hin. unfold InfraAgent.custom_sgs in Hin.
  apply filter_In in Hin. destruct Hin as [Hin Hname].
  exists h, sgs, sg. repeat split; auto.
  intros Heq. rewrite Heq in Hname. discriminate.
Qed.

Lemma custom_vpcs_listed (w : Oracle) (region : string) h vpcs vpc :
  w h (DescribeVpcs region) = Ok (RVpcs vpcs) ->
  In vpc (InfraAgent.custom_vpcs vpcs) ->
  listed_custom_vpc w region (vpc_VpcId vpc).
Proof.
  intros Hw Hin. unfold InfraAgent.custom_vpcs in Hin.
  apply filter_In in Hin. destruct Hin as [Hin Hd].
  exists h, vpcs, vpc. repeat split; auto.
  now destruct (vpc_IsDefault vpc).
Qed.

Ltac spares_leaf :=
  intros; unfold spares_defaults;
  split;
  [ repeat constructor; cbn; eauto using custom_sgs_listed, custom_vpcs_listed
  | first
      [ exists []; rewrite app_nil_r; split; [reflexivity | constructor]
      | eexists [_]; split;
        [ reflexivity
        | repeat constructor; cbn; intros; try discriminate;
          eauto using custom_sgs_listed, custom_vpcs_listed ] ] ].

Lemma networking_spares_defaults (w : Oracle) (region : string) :
  keeps w (spares_defaults w region) (InfraAgent.destroy_networking region).
Proof.
  unfold InfraAgent.destroy_networking, InfraAgent.destroy_nat_gateways,
    InfraAgent.destroy_internet_gateways, InfraAgent.destroy_security_groups,
    InfraAgent.destroy_vpcs, InfraAgent.destroy_nat_gateway,
    InfraAgent.destroy_internet_gateway, InfraAgent.destroy_security_group,
    InfraAgent.destroy_vpc.
  keeps_walk; spares_leaf.
Qed.

(** C9.  The networking pass of a region calls [delete_security_group]
    only on groups that [describe_security_groups] listed under a name
    other than 'default', and [delete_vpc] only on networks that
    [describe_vpcs] listed with [IsDefault] false; the same holds of the
    security groups and networks it adds to the list of destroyed
    resources.  No tag is read on the way. *)
Theorem C9_networking_spares_defaults (w : Oracle) (region : string)
    (st : St Closure.DestructionLog) :
  let st' := snd (InfraAgent.destroy_networking region w st) in
  (forall r id, In (DeleteSecurityGroup r id) (emitted st st') ->
     listed_custom_sg w r id) /\
  (forall r id, In (DeleteVpc r id) (emitted st st') ->
     listed_custom_vpc w r id) /\
  exists new,
    Closure.destroyed (log st') = Closure.destroyed (log st) ++ new /\
    forall e, In e new ->
      (entry_type e = "security_group"%string ->
       listed_custom_sg w region (entry_id e)) /\
      (entry_type e = "vpc"%string ->
       listed_custom_vpc w region (entry_id e)).
Proof.
  intros st'. subst st'.
  destruct (keeps_emitted st (networking_spares_defaults w region))
    as (Hc & new & Hnew & He).
  rewrite Forall_forall in Hc, He.
  split; [| split].
  - intros r id Hin. exact (Hc _ Hin).
  - intros r id Hin. exact (Hc _ Hin).
  - exists new. split; [exact Hnew |]. intros e Hin. exact (He e Hin).
Qed.

(** The filters of the pass, on an example. *)
Example C9_filters_example :
  InfraAgent.custom_sgs
    [mkSg "sg-0a1" "default"; mkSg "sg-0b2" "web"; mkSg "sg-0c3" "Default"]
    = [mkSg "sg-0b2" "web"; mkSg "sg-0c3" "Default"] /\
  InfraAgent.custom_vpcs [mkVpc "vpc-1" true; mkVpc "vpc-2" false]
    = [mkVpc "vpc-2" false].
Proof. split; reflexivity. Qed.

(** The loop of [destroy_networking] a call belongs to, with its region:
    0 for the NAT gateways, 1 for the internet gateways, 2 for the
    security groups, 3 for the networks. *)
Definition net_stage (c : Call) : option (string * nat) :=
  match c with
  | DescribeNatGateways r | DeleteNatGateway r _ => Some (r, 0)
  | DescribeInternetGateways r | DetachInternetGateway r _ _
  | DeleteInternetGateway r _ => Some (r, 1)
  | DescribeSecurityGroups r | DeleteSecurityGroup r _ => Some (r, 2)
  | DescribeVpcs r | DescribeSubnets r _ | DeleteSubnet r _
  | DescribeRouteTables r _ | DeleteRouteTable r _ | DeleteVpc r _ =>
      Some (r, 3)
  | _ => None
  end.

Definition in_stage (region : string) (k : nat) (c : Call) : Prop :=
  net_stage c = Some (region, k).

Definition stage_number (c : Call) : nat :=
  match net_stage c with Some (_, k) => k | None => 0 end.

Lemma nat_gateways_stage (w : Oracle) (region : string) :
  keeps w (calls (in_stage region 0)) (InfraAgent.destroy_nat_gateways region).
Proof.
  unfold InfraAgent.destroy_nat_gateways, InfraAgent.destroy_nat_gateway.
  keeps_walk; calls_leaf.
Qed.

Lemma internet_gateways_stage (w : Oracle) (region : string) :
  keeps w (calls (in_stage region 1))
    (InfraAgent.destroy_internet_gateways region).
Proof.
  unfold InfraAgent.destroy_internet_gateways,
    InfraAgent.destroy_internet_gateway.
  keeps_walk; calls_leaf.
Qed.

Lemma security_groups_stage (w : Oracle) (region : string) :
  keeps w (calls (in_stage region 2))
    (InfraAgent.destroy_security_groups region).
Proof.
  unfold InfraAgent.destroy_security_groups,
    InfraAgent.destroy_security_group.
  keeps_walk; calls_leaf.
Qed.

Lemma vpcs_stage (w : Oracle) (region : string) :
  keeps w (calls (in_stage region 3)) (InfraAgent.destroy_vpcs region).
Proof.
  unfold InfraAgent.destroy_vpcs, InfraAgent.destroy_vpc.
  keeps_walk; calls_leaf.
Qed.

(** The calls of one networking pass: four runs, one per loop. *)
Definition staged (region : string) (ext : list Call) : Prop :=
  exists e0 e1 e2 e3,
    ext = e0 ++ e1 ++ e2 ++ e3 /\
    Forall (in_stage region 0) e0 /\ Forall (in_stage region 1) e1 /\
    Forall (in_stage region 2) e2 /\ Forall (in_stage region 3) e3.

Lemma staged_nil (region : string) : staged region [].
Proof. exists [], [], [], []. repeat split; constructor. Qed.

Lemma networking_staged (w : Oracle) (region : string)
    (st : St Closure.DestructionLog) :
  exists ext,
    trace (snd (InfraAgent.destroy_networking region w st)) = trace st ++ ext
    /\ staged region ext.
Proof.
  unfold InfraAgent.destroy_networking, try_pass, try_except, bind.
  destruct (nat_gateways_stage w region st) as (e0 & Ht0 & H0).
  destruct (InfraAgent.destroy_nat_gateways region w st) as [[u | x] st0];
    cbn [ret fst snd] in Ht0 |- *.
  2: { exists e0. split; [exact Ht0 |].
       exists e0, [], [], []. rewrite !app_nil_r. repeat split; auto. }
  destruct (internet_gateways_stage w region st0) as (e1 & Ht1 & H1).
  destruct (InfraAgent.destroy_internet_gateways region w st0)
    as [[u1 | x] st1]; cbn [ret fst snd] in Ht1 |- *.
  2: { exists (e0 ++ e1). split; [now rewrite Ht1, Ht0, app_assoc |].
       exists e0, e1, [], []. rewrite !app_nil_r. repeat split; auto. }
  destruct (security_groups_stage w region st1) as (e2 & Ht2 & H2).
  destruct (InfraAgent.destroy_security_groups region w st1)
    as [[u2 | x] st2]; cbn [ret fst snd] in Ht2 |- *.
  2: { exists (e0 ++ e1 ++ e2).
       split; [now rewrite Ht2, Ht1, Ht0, <- !app_assoc |].
       exists e0, e1, e2, []. rewrite !app_nil_r. repeat split; auto. }
  destruct (vpcs_stage w region st2) as (e3 & Ht3 & H3).
  exists (e0 ++ e1 ++ e2 ++ e3).
  split; [| exists e0, e1, e2, e3; repeat split; auto].
  destruct (InfraAgent.destroy_vpcs region w st2) as [[u3 | x] st3];
    cbn [ret fst snd] in Ht3 |- *; now rewrite Ht3, Ht2, Ht1, Ht0, <- !app_assoc.
Qed.

Lemma constant_key_sorted (A : Type) (key : A -> nat) (k : nat)
    (l : list A) :
  Forall (fun a => key a = k) l ->
  StronglySorted (fun a b => key a <= key b) l.
Proof.
  induction 1 as [| x l Hx Hl IH]; constructor; auto.
  eapply Forall_impl; [| exact Hl]. cbn. intros; lia.
Qed.

Lemma in_stage_number (region : string) (k : nat) (c : Call) :
  in_stage region k c -> stage_number c = k.
Proof. unfold in_stage, stage_number. now intros ->. Qed.

Lemma staged_sorted (region : string) (ext : list Call) :
  staged region ext ->
  StronglySorted (fun a b => stage_number a <= stage_number b) ext.
Proof.
  intros (e0 & e1 & e2 & e3 & -> & H0 & H1 & H2 & H3).
  assert (N0 : Forall (fun c => stage_number c = 0) e0)
    by (eapply Forall_impl; [| exact H0]; apply in_stage_number).
  assert (N1 : Forall (fun c => stage_number c = 1) e1)
    by (eapply Forall_impl; [| exact H1]; apply in_stage_number).
  assert (N2 : Forall (fun c => stage_number c = 2) e2)
    by (eapply Forall_impl; [| exact H2]; apply in_stage_number).
  assert (N3 : Forall (fun c => stage_number c = 3) e3)
    by (eapply Forall_impl; [| exact H3]; apply in_stage_number).
  rewrite Forall_forall in N0, N1, N2, N3.
  repeat apply StronglySorted_app;
    try (eapply constant_key_sorted; apply Forall_forall; eauto).
  - intros a b Ha Hb. rewrite (N2 a Ha), (N3 b Hb). lia.
  - intros a b Ha Hb. rewrite (N1 a Ha).
    apply in_app_or in Hb. destruct Hb as [Hb | Hb];
      [rewrite (N2 b Hb) | rewrite (N3 b Hb)]; lia.
  - intros a b Ha Hb. rewrite (N0 a Ha). lia.
Qed.

Lemma staged_precedes (region : string) (ext : list Call) (i j : nat) :
  staged region ext -> i < j ->
  precedes (in_stage region i) (in_stage region j) ext.
Proof.
  intros Hs Hij x y a b Ha Hb Pa Qb.
  apply in_stage_number in Pa. apply in_stage_number in Qb.
  pose proof (StronglySorted_nth stage_number (staged_sorted Hs)) as Hm.
  destruct (Nat.lt_trichotomy x y) as [Hlt | [Heq | Hgt]]; [exact Hlt | |].
  - subst y. rewrite Ha in Hb. injection Hb as <-. lia.
  - specialize (Hm y x b a Hb Ha Hgt). lia.
Qed.

Lemma staged_region (region : string) (ext : list Call) :
  staged region ext ->
  Forall (fun c => exists k, net_stage c = Some (region, k)) ext.
Proof.
  intros (e0 & e1 & e2 & e3 & -> & H0 & H1 & H2 & H3).
  repeat (apply Forall_app; split);
    (eapply Forall_impl; [| eassumption]); cbn; eauto.
Qed.

(** The calls of the networking passes of a list of regions. *)
Inductive passes : list string -> list Call -> Prop :=
  | passes_nil : passes [] []
  | passes_cons (r : string) (rs : list string) (e e' : list Call) :
      staged r e -> passes rs e' -> passes (r :: rs) (e ++ e').

Lemma passes_empty (rs : list string) : passes rs [].
Proof.
  induction rs as [| r rs IH]; [constructor |].
  change (@nil Call) with (@nil Call ++ []). constructor; auto.
  apply staged_nil.
Qed.

Lemma passes_regions (rs : list string) (ext : list Call) :
  passes rs ext ->
  Forall (fun c => exists r k, In r rs /\ net_stage c = Some (r, k)) ext.
Proof.
  induction 1 as [| r rs e e' Hs _ IH]; [constructor |].
  apply Forall_app. split.
  - eapply Forall_impl; [| exact (staged_region Hs)].
    intros c (k & Hk). exists r, k. split; [now left | exact Hk].
  - eapply Forall_impl; [| exact IH].
    intros c (r' & k & Hin & Hk). exists r', k. split; [now right | exact Hk].
Qed.

Lemma passes_precedes (rs : list string) (ext : list Call) :
  NoDup rs -> passes rs ext ->
  forall region i j, i < j ->
    precedes (in_stage region i) (in_stage region j) ext.
Proof.
  intros Hnd Hp. induction Hp as [| r rs e e' Hs Hp IH];
    intros region i j Hij.
  - intros x y a b Ha. destruct x; discriminate.
  - inversion Hnd as [| ? ? Hnotin Hnd']; subst.
    destruct (string_dec region r) as [-> | Hne].
    + assert (Hno : Forall (fun c => ~ in_stage r i c) e').
      { eapply Forall_impl; [| exact (passes_regions Hp)].
        intros c (r' & k & Hin & Hk) Hc. unfold in_stage in Hc.
        rewrite Hk in Hc. injection Hc as -> _. contradiction. }
      apply precedes_app.
      * now apply staged_precedes.
      * now apply precedes_no_P.
      * now left.
    + assert (Hno : forall k, Forall (fun c => ~ in_stage region k c) e).
      { intros k. eapply Forall_impl; [| exact (staged_region Hs)].
        intros c (k' & Hk) Hc. unfold in_stage in Hc.
        rewrite Hk in Hc. injection Hc as -> _. contradiction. }
      apply precedes_app.
      * apply precedes_no_P. apply Hno.
      * now apply IH.
      * right. apply Hno.
Qed.

Lemma for_each_networking_passes (w : Oracle) (rs : list string)
    (st : St Closure.DestructionLog) :
  exists ext,
    trace (snd (for_each rs
                  (fun region =>
                     try_pass (InfraAgent.destroy_networking region)) w st))
      = trace st ++ ext /\
    passes rs ext.
Proof.
  revert st. induction rs as [| r rs IH]; intros st.
  - exists []. cbn. rewrite app_nil_r. split; [reflexivity | constructor].
  - cbn [for_each]. unfold bind.
    destruct (networking_staged w r st) as (e & Ht & Hs).
    unfold try_pass at 1, try_except at 1.
    destruct (InfraAgent.destroy_networking r w st) as [[[] | x] st1];
      cbn [ret fst snd] in Ht |- *.
    + destruct (IH st1) as (e' & Ht' & Hp).
      exists (e ++ e'). rewrite Ht', Ht, app_assoc.
      split; [reflexivity | now constructor].
    + destruct (IH st1) as (e' & Ht' & Hp).
      exists (e ++ e'). rewrite Ht', Ht, app_assoc.
      split; [reflexivity | now constructor].
Qed.

Lemma precedes_weaken (P Q P' Q' : Call -> Prop) (tr : list Call) :
  (forall c, P' c -> P c) -> (forall c, Q' c -> Q c) ->
  precedes P Q tr -> precedes P' Q' tr.
Proof.
  intros HP HQ H i j a b Ha Hb Pa Qb. eapply H; eauto.
Qed.

(** Calls that are neither [P] nor [Q], before and after, change
    nothing. *)
Lemma precedes_sandwich (P Q : Call -> Prop) (pre mid post : list Call) :
  Forall (fun c => ~ P c /\ ~ Q c) pre ->
  Forall (fun c => ~ P c /\ ~ Q c) post ->
  precedes P Q mid -> precedes P Q (pre ++ mid ++ post).
Proof.
  intros Hpre Hpost Hmid.
  assert (Hpre' : Forall (fun c => ~ Q c) pre)
    by (eapply Forall_impl; [| exact Hpre]; cbn; tauto).
  assert (Hpost' : Forall (fun c => ~ P c) post)
    by (eapply Forall_impl; [| exact Hpost]; cbn; tauto).
  apply precedes_app; [now apply precedes_no_Q | | now right].
  apply precedes_app; [exact Hmid | now apply precedes_no_P | now left].
Qed.

Lemma try_pass_returns (L : Type) (m : M L unit) (w : Oracle) (st : St L) :
  fst (try_pass m w st) = Ok tt.
Proof.
  unfold try_pass, try_except. destruct (m w st) as [[[] | e] st']; auto.
Qed.

Lemma for_each_try_pass_returns (L X : Type) (f : X -> M L unit)
    (xs : list X) (w : Oracle) (st : St L) :
  fst (for_each xs (fun x => try_pass (f x)) w st) = Ok tt.
Proof.
  revert st. induction xs as [| x xs IH]; intros st; cbn; [reflexivity |].
  unfold bind. pose proof (try_pass_returns (f x) w st) as H.
  destruct (try_pass (f x) w st) as [r st']. cbn in H. subst r. apply IH.
Qed.

(** The calls of the CloudFormation phase, with the pause that follows
    each [delete_stack]. *)
Definition is_stack_call (c : Call) : Prop :=
  match c with
  | ListStacks _ | DescribeStacks _ _ | UpdateTerminationProtection _ _
  | DeleteStack _ _ => True
  | _ => False
  end.

Definition stack_phase_call (c : Call) : Prop :=
  is_stack_call c \/ c = Sleep 2.

Definition is_networking_call (c : Call) : Prop := net_stage c <> None.

Lemma stack_phase_calls (w : Oracle) (rs : list string) :
  keeps w (calls stack_phase_call)
    (for_each rs
       (fun region =>
          try_pass (InfraAgent.destroy_cloudformation_stacks region))).
Proof.
  unfold InfraAgent.destroy_cloudformation_stacks, InfraAgent.destroy_stack.
  keeps_walk; intros; unfold calls;
    first [ apply Forall_nil
          | apply Forall_cons; [unfold stack_phase_call; cbn; auto
                               | apply Forall_nil] ].
Qed.

(** The calls of a whole run of the infrastructure agent: the listing of
    the regions, the CloudFormation phase, the pause, the networking
    passes, the writing of the log. *)
Lemma infrastructure_run_shape (w : Oracle) (file : string)
    (st : St Closure.DestructionLog) :
  let ext :=
    emitted st (snd (InfraAgent.destroy_all_infrastructure file w st)) in
  ext = [DescribeRegions] \/
  exists regions cfn net,
    w (trace st) DescribeRegions = Ok (RRegions regions) /\
    ext = [DescribeRegions] ++ cfn ++ [Sleep 30] ++ net ++ [WriteFile file] /\
    Forall stack_phase_call cfn /\
    passes (Closure.all_regions regions) net.
Proof.
  intros ext. subst ext.
  assert (H : exists ext,
    trace (snd (InfraAgent.destroy_all_infrastructure file w st))
      = trace st ++ ext /\
    (ext = [DescribeRegions] \/
     exists regions cfn net,
       w (trace st) DescribeRegions = Ok (RRegions regions) /\
       ext = [DescribeRegions] ++ cfn ++ [Sleep 30] ++ net
             ++ [WriteFile file] /\
       Forall stack_phase_call cfn /\
       passes (Closure.all_regions regions) net)).
  { unfold InfraAgent.destroy_all_infrastructure, Closure.describe_regions.
    unfold bind at 1. unfold bind at 1. unfold call at 1.
    destruct (w (trace st) DescribeRegions) as [response | e] eqn:E;
      [| exists [DescribeRegions]; split; [reflexivity | now left]].
    destruct response;
      try (exists [DescribeRegions]; split; [reflexivity | now left]).
    cbn [ret].
    set (st1 := mkSt (trace st ++ [DescribeRegions]) (out st) (log st)).
    set (rs := Closure.all_regions names).
    unfold bind at 1.
    destruct (stack_phase_calls w rs st1) as (cfn & Ht1 & Hcfn).
    pose proof (for_each_try_pass_returns
                  InfraAgent.destroy_cloudformation_stacks rs w st1) as Hok1.
    destruct (for_each rs _ w st1) as [r1 st2]. cbn in Hok1, Ht1. subst r1.
    unfold bind at 1. unfold sleep at 1.
    set (st3 := mkSt (trace st2 ++ [Sleep 30]) (out st2) (log st2)).
    unfold bind at 1.
    destruct (for_each_networking_passes w rs st3) as (net & Ht3 & Hnet).
    pose proof (for_each_try_pass_returns
                  InfraAgent.destroy_networking rs w st3) as Hok3.
    destruct (for_each rs _ w st3) as [r3 st4]. cbn in Hok3, Ht3. subst r3.
    exists ([DescribeRegions] ++ cfn ++ [Sleep 30] ++ net
            ++ [WriteFile file]).
    split.
    - unfold bind, call.
      destruct (w (trace st4) (WriteFile file)); cbn;
        rewrite Ht3, Ht1; list_eq.
    - right. exists names, cfn, net. repeat split; auto. }
  destruct H as (ext & Ht & H). rewrite (emitted_app _ _ _ Ht).
  destruct H as [H | (regions & cfn & net & Hw & H & Hcfn & Hnet)].
  - now left.
  - right. exists regions, cfn, net. repeat split; auto.
Qed.

Lemma all_regions_NoDup (regions : list string) :
  NoDup regions -> NoDup (Closure.all_regions regions).
Proof.
  intros H. unfold Closure.all_regions. apply NoDup_app.
  - unfold Closure.priority_regions.
    repeat constructor; cbn; intuition discriminate.
  - now apply NoDup_filter.
  - intros a Ha Hf. apply filter_In in Hf. destruct Hf as [_ Hf].
    apply negb_true_iff in Hf.
    assert (Ht : existsb (String.eqb a) Closure.priority_regions = true).
    { apply existsb_exists. exists a. split; [exact Ha |].
      apply String.eqb_refl. }
    congruence.
Qed.

Lemma stack_phase_not_networking (c : Call) :
  stack_phase_call c -> ~ is_networking_call c.
Proof.
  intros [H | ->] Hn; [destruct c; cbn in *; try contradiction; auto |];
    apply Hn; reflexivity.
Qed.

Lemma networking_not_stack (c : Call) : is_networking_call c -> ~ is_stack_call c.
Proof.
  intros Hn Hs. destruct c; cbn in *; try contradiction; auto.
Qed.

(** C5.  In a run of the infrastructure agent over regions listed once
    each, and for every region: every [delete_nat_gateway] call precedes
    every [delete_internet_gateway] call, which precedes every
    [delete_security_group] call, which precedes every [delete_vpc] call;
    and every call of the CloudFormation phase, whatever its region,
    precedes every call of the networking passes. *)
Theorem C5_networking_last_and_in_order (w : Oracle) (file : string)
    (st : St Closure.DestructionLog) :
  (forall regions,
     w (trace st) DescribeRegions = Ok (RRegions regions) -> NoDup regions) ->
  let ext :=
    emitted st (snd (InfraAgent.destroy_all_infrastructure file w st)) in
  (forall region,
     precedes (fun c => exists id, c = DeleteNatGateway region id)
              (fun c => exists id, c = DeleteInternetGateway region id) ext /\
     precedes (fun c => exists id, c = DeleteInternetGateway region id)
              (fun c => exists id, c = DeleteSecurityGroup region id) ext /\
     precedes (fun c => exists id, c = DeleteSecurityGroup region id)
              (fun c => exists id, c = DeleteVpc region id) ext) /\
  precedes is_stack_call is_networking_call ext.
Proof.
  intros Hnd ext.
  destruct (infrastructure_run_shape w file st)
    as [H | (regions & cfn & net & Hw & H & Hcfn & Hnet)];
    fold ext in H; rewrite H; clear H.
  - split; [intros region; repeat split |];
      apply precedes_no_P; repeat constructor;
      try (intros [id Hid]; discriminate); auto.
  - pose proof (all_regions_NoDup (Hnd _ Hw)) as Hnd'.
    pose proof (passes_regions Hnet) as Hreg.
    assert (Hstage : forall region i j, i < j ->
      precedes (in_stage region i) (in_stage region j)
        ([DescribeRegions] ++ cfn ++ [Sleep 30] ++ net ++ [WriteFile file])).
    { intros region i j Hij.
      replace ([DescribeRegions] ++ cfn ++ [Sleep 30] ++ net
               ++ [WriteFile file])
        with (([DescribeRegions] ++ cfn ++ [Sleep 30]) ++ net
              ++ [WriteFile file]) by list_eq.
      apply precedes_sandwich.
      - repeat (apply Forall_app; split);
          try (repeat constructor; unfold in_stage; cbn; discriminate).
        eapply Forall_impl; [| exact Hcfn].
        intros c Hc. apply stack_phase_not_networking in Hc.
        unfold is_networking_call, in_stage in *.
        split; intros Heq; apply Hc; rewrite Heq; discriminate.
      - repeat constructor; unfold in_stage; cbn; discriminate.
      - now apply (passes_precedes Hnd' Hnet). }
    split.
    + intros region. repeat split.
      * eapply precedes_weaken; [| | apply (Hstage region 0 1); lia];
          intros c [id ->]; reflexivity.
      * eapply precedes_weaken; [| | apply (Hstage region 1 2); lia];
          intros c [id ->]; reflexivity.
      * eapply precedes_weaken; [| | apply (Hstage region 2 3); lia];
          intros c [id ->]; reflexivity.
    + change ([DescribeRegions] ++ cfn ++ [Sleep 30] ++ net
              ++ [WriteFile file])
        with ([DescribeRegions] ++ (cfn ++ [Sleep 30] ++ net
              ++ [WriteFile file])).
      apply precedes_app;
        [apply precedes_no_P; repeat constructor; auto | | right;
         repeat constructor; unfold is_networking_call; cbn; auto].
      apply precedes_app.
      * apply precedes_no_Q. eapply Forall_impl; [| exact Hcfn].
        apply stack_phase_not_networking.
      * apply precedes_no_P. repeat (apply Forall_app; split || constructor);
          auto.
        eapply Forall_impl; [| exact Hreg].
        intros c (r & k & _ & Hk). apply networking_not_stack.
        unfold is_networking_call. rewrite Hk. discriminate.
      * right. eapply Forall_impl; [| exact Hcfn].
        apply stack_phase_not_networking.
Qed.

(** A provider with two regions beyond the four the agent always visits;
    the second one has a NAT gateway, an internet gateway, two security
    groups and two networks. *)
Definition sample_world : Oracle :=
  fun _ c =>
    match c with
    | DescribeRegions => Ok (RRegions ["us-east-1"; "eu-west-1"]%string)
    | ListStacks r =>
        if String.eqb r "us-east-1"
        then Ok (RStackSummaries
                   [["AWSControlTowerBP-BASELINE"; "billing-api"]%string])
        else Ok (RStackSummaries [])
    | DescribeStacks _ _ => Ok (RStacks [mkStackDetail None (Some true)])
    | DescribeNatGateways r =>
        Ok (RNatGateways
              (if String.eqb r "eu-west-1" then ["nat-1"%string] else []))
    | DescribeInternetGateways r =>
        Ok (RInternetGateways
              (if String.eqb r "eu-west-1"
               then [mkIgw "igw-1" ["vpc-2"%string]] else []))
    | DescribeSecurityGroups r =>
        Ok (RSecurityGroups
              (if String.eqb r "eu-west-1"
               then [mkSg "sg-1" "default"; mkSg "sg-2" "web"] else []))
    | DescribeVpcs r =>
        Ok (RVpcs
              (if String.eqb r "eu-west-1"
               then [mkVpc "vpc-1" true; mkVpc "vpc-2" false] else []))
    | DescribeSubnets _ _ => Ok (RSubnets ["subnet-1"%string])
    | DescribeRouteTables _ _ =>
        Ok (RRouteTables [mkRt "rtb-1" [true]; mkRt "rtb-2" [false]])
    | _ => Ok RNone
    end.

(** One networking pass, on the example. *)
Example networking_pass_example :
  trace (snd (InfraAgent.destroy_networking "eu-west-1" sample_world
                (mkSt [] ""%string InfraAgent.initial_log)))
  = [DescribeNatGateways "eu-west-1"; DeleteNatGateway "eu-west-1" "nat-1";
     DescribeInternetGateways "eu-west-1";
     DetachInternetGateway "eu-west-1" "igw-1" "vpc-2";
     DeleteInternetGateway "eu-west-1" "igw-1";
     DescribeSecurityGroups "eu-west-1";
     DeleteSecurityGroup "eu-west-1" "sg-2";
     DescribeVpcs "eu-west-1"; DescribeSubnets "eu-west-1" "vpc-2";
     DeleteSubnet "eu-west-1" "subnet-1";
     DescribeRouteTables "eu-west-1" "vpc-2";
     DeleteRouteTable "eu-west-1" "rtb-2"; DeleteVpc "eu-west-1" "vpc-2"].
Proof. reflexivity. Qed.

(** The CloudFormation pass of a region, on the example. *)
Example stack_pass_example :
  trace (snd (InfraAgent.destroy_cloudformation_stacks "us-east-1"
                sample_world (mkSt [] ""%string InfraAgent.initial_log)))
  = [ListStacks "us-east-1";
     DescribeStacks "us-east-1" "billing-api";
     UpdateTerminationProtection "us-east-1" "billing-api";
     DeleteStack "us-east-1" "billing-api"; Sleep 2;
     DescribeStacks "us-east-1" "AWSControlTowerBP-BASELINE";
     UpdateTerminationProtection "us-east-1" "AWSControlTowerBP-BASELINE";
     DeleteStack "us-east-1" "AWSControlTowerBP-BASELINE"; Sleep 2].
Proof. reflexivity. Qed.

Lemma C5_witness :
  let st := mkSt [] ""%string InfraAgent.initial_log in
  let ext :=
    emitted st
      (snd (InfraAgent.destroy_all_infrastructure "infrastructure.json"
              sample_world st)) in
  (forall region,
     precedes (fun c => exists id, c = DeleteNatGateway region id)
              (fun c => exists id, c = DeleteInternetGateway region id) ext /\
     precedes (fun c => exists id, c = DeleteInternetGateway region id)
              (fun c => exists id, c = DeleteSecurityGroup region id) ext /\
     precedes (fun c => exists id, c = DeleteSecurityGroup region id)
              (fun c => exists id, c = DeleteVpc region id) ext) /\
  precedes is_stack_call is_networking_call ext.
Proof.
  apply (@C5_networking_last_and_in_order sample_world "infrastructure.json"
           (mkSt [] ""%string InfraAgent.initial_log)).
  intros regions H. injection H as <-.
  repeat constructor; cbn; intuition discriminate.
Defined.

(* ================================================================== *)
(** * The orchestrators: barriers and counts *)

(** The two calls by which [run_agent] launches a script. *)
Definition agent_call (script profile : string) (c : Call) : Prop :=
  c = Chmod (Orchestrator.agents_dir ++ "/" ++ script)%string \/
  c = RunPython (Orchestrator.agents_dir ++ "/" ++ script)%string profile.

(** The counts of a phase are absent (the agent timed out or could not be
    launched), or they are what [scan_output] reads in the text the
    agent printed. *)
Definition phase_scanned (w : Oracle) (profile : string)
    (p : Orchestrator.PhaseResult) : Prop :=
  (Orchestrator.resources_destroyed p = None /\
   Orchestrator.failures p = None) \/
  exists h script returncode text err,
    w h (RunPython script profile) = Ok (RProcess returncode text err) /\
    Orchestrator.resources_destroyed p
      = Some (Orchestrator.destroyed_count (Orchestrator.scan_output text)) /\
    Orchestrator.failures p
      = Some (Orchestrator.failed_count (Orchestrator.scan_output text)).

(** [run_agent] returns a phase result, leaves the log alone, and issues
    the two launching calls at most. *)
Lemma run_agent_spec (w : Oracle) (profile script name : string)
    (st : St Orchestrator.ClosureLog) :
  exists p st' ext,
    Orchestrator.run_agent profile script name w st = (Ok p, st') /\
    trace st' = trace st ++ ext /\ log st' = log st /\
    Forall (agent_call script profile) ext /\
    phase_scanned w profile p.
Proof.
  unfold Orchestrator.run_agent, try_except, bind, call, agent_call.
  cbv zeta.
  remember (Orchestrator.agents_dir ++ "/" ++ script)%string as path
    eqn:Hpath.
  clear Hpath.
  destruct (w (trace st) (Chmod path)) as [r0 | e0]; cbn.
  2: { destruct e0; eexists; eexists; exists [Chmod path];
       (split; [reflexivity |]); cbn; repeat split;
       try (repeat constructor; now left); left; auto. }
  destruct (w (trace st ++ [Chmod path]) (RunPython path profile))
    as [r1 | e1] eqn:E1; cbn.
  2: { destruct e1; eexists; eexists;
       exists [Chmod path; RunPython path profile];
       (split; [reflexivity |]); cbn; rewrite <- app_assoc;
       repeat split;
       try (constructor; [now left | constructor; [now right | constructor]]);
       left; auto. }
  destruct r1; cbn;
    eexists; eexists; exists [Chmod path; RunPython path profile];
    (split; [reflexivity |]); cbn; rewrite <- app_assoc; repeat split;
    try (constructor; [now left | constructor; [now right | constructor]]);
    try (left; split; reflexivity).
  right. exists (trace st ++ [Chmod path]), path, returncode, stdout, stderr.
  auto.
Qed.

Definition is_write_file (c : Call) : Prop :=
  match c with WriteFile _ => True | _ => False end.

Definition is_sleep (c : Call) : Prop :=
  match c with Sleep _ => True | _ => False end.

(** What a run of [orchestrate_account_closure] does: the three agents in
    turn, one pause before the third, the two files; and the log it
    leaves. *)
Lemma orchestrate_spec (w : Oracle) (profile now : string)
    (st : St Orchestrator.ClosureLog) :
  exists storage compute infra es ec ei tail r st',
    Orchestrator.orchestrate_account_closure profile now w st = (r, st') /\
    trace st' = trace st ++ es ++ ec ++ [Sleep 30] ++ ei ++ tail /\
    Forall (agent_call "storage_destruction_agent.py" profile) es /\
    Forall (agent_call "compute_destruction_agent.py" profile) ec /\
    Forall (agent_call "infrastructure_destruction_agent.py" profile) ei /\
    Forall is_write_file tail /\
    phase_scanned w profile storage /\
    phase_scanned w profile compute /\
    phase_scanned w profile infra /\
    let phases :=
      Orchestrator.dict_set "infrastructure" infra
        (Orchestrator.dict_set "compute" compute
           (Orchestrator.dict_set "storage" storage
              (Orchestrator.phases (log st)))) in
    log st'
      = Orchestrator.mkLog phases (Orchestrator.total_destroyed phases)
          (Orchestrator.total_failed phases)
          (if Orchestrator.all_successful phases
           then "completed" else "partial")%string.
Proof.
  unfold Orchestrator.orchestrate_account_closure.
  destruct (run_agent_spec w profile "storage_destruction_agent.py" "Storage"
              st) as (ps & st1 & es & Hr1 & Ht1 & Hl1 & Hc1 & Hs1).
  unfold bind at 1. rewrite Hr1.
  unfold bind at 1. cbn [Orchestrator.set_phase modify].
  set (st1' := mkSt (trace st1) (out st1) _).
  destruct (run_agent_spec w profile "compute_destruction_agent.py" "Compute"
              st1') as (pc & st2 & ec & Hr2 & Ht2 & Hl2 & Hc2 & Hs2).
  unfold bind at 1. rewrite Hr2.
  unfold bind at 1. cbn [Orchestrator.set_phase modify].
  set (st2' := mkSt (trace st2) (out st2) _).
  unfold bind at 1. unfold sleep at 1.
  set (st3 := mkSt (trace st2' ++ [Sleep 30]) (out st2') (log st2')).
  destruct (run_agent_spec w profile "infrastructure_destruction_agent.py"
              "Infrastructure" st3)
    as (pi & st4 & ei & Hr4 & Ht4 & Hl4 & Hc4 & Hs4).
  unfold bind at 1. rewrite Hr4.
  unfold bind at 1. cbn [Orchestrator.set_phase modify].
  unfold bind at 1. cbn [Orchestrator.summarise modify].
  set (st4' := mkSt (trace st4) (out st4) _).
  set (st5 := mkSt (trace st4') (out st4') _).
  assert (Ht5 : trace st5 = trace st ++ es ++ ec ++ [Sleep 30] ++ ei).
  { subst st5 st4' st3 st2' st1'. cbn. rewrite Ht4. cbn. rewrite Ht2. cbn.
    rewrite Ht1. list_eq. }
  assert (Hl5 : log st5 =
    let phases :=
      Orchestrator.dict_set "infrastructure" pi
        (Orchestrator.dict_set "compute" pc
           (Orchestrator.dict_set "storage" ps
              (Orchestrator.phases (log st)))) in
    Orchestrator.mkLog phases (Orchestrator.total_destroyed phases)
      (Orchestrator.total_failed phases)
      (if Orchestrator.all_successful phases
       then "completed" else "partial")%string).
  { subst st5 st4' st3 st2' st1'. cbn [log Orchestrator.phases].
    rewrite Hl4. cbn [log Orchestrator.phases]. rewrite Hl2.
    cbn [log Orchestrator.phases]. rewrite Hl1. reflexivity. }
  clearbody st5.
  exists ps, pc, pi, es, ec, ei.
  unfold bind, call.
  match goal with
  | |- context [w (trace st5) (WriteFile ?f)] =>
      remember f as file1 eqn:Hf1; clear Hf1
  end.
  match goal with
  | |- context [w _ (WriteFile (?a ++ ?b))%string] =>
      remember (a ++ b)%string as file2 eqn:Hf2; clear Hf2
  end.
  destruct (w (trace st5) (WriteFile file1)) as [r | e]; cbn.
  - destruct (w (trace st5 ++ [WriteFile file1]) (WriteFile file2));
      exists [WriteFile file1; WriteFile file2]; eexists; eexists;
      (split; [reflexivity |]); cbn [trace log];
      (split; [rewrite Ht5; list_eq |]);
      repeat split; auto; repeat constructor.
  - exists [WriteFile file1]. eexists. eexists.
    split; [reflexivity |]. cbn [trace log].
    split; [rewrite Ht5; list_eq |].
    repeat split; auto; repeat constructor.
Qed.


(** The sum [scan_output] computes for the destroyed resources. *)
Definition line_destroyed (line : string) : N :=
  let low := Py.lower line in
  if Py.contains "destroyed:" low || Py.contains "complete!" low
  then Orchestrator.first_number line else 0%N.

Lemma scan_lines_destroyed (lines : list string) (c : Orchestrator.Counts) :
  Orchestrator.destroyed_count (fold_left Orchestrator.scan_line lines c)
  = (Orchestrator.destroyed_count c
     + fold_right N.add 0%N (map line_destroyed lines))%N.
Proof.
  revert c. induction lines as [| line lines IH]; intros c; cbn.
  - now rewrite N.add_0_r.
  - rewrite IH. unfold Orchestrator.scan_line, line_destroyed. cbv zeta.
    destruct (_ || _); cbn.
    + now rewrite N.add_assoc.
    + destruct (Py.contains "failed:" _); [destruct (Orchestrator.re_bound c) |];
        reflexivity.
Qed.

Lemma scan_output_destroyed (text : string) :
  Orchestrator.destroyed_count (Orchestrator.scan_output text)
  = fold_right N.add 0%N (map line_destroyed (Py.split_lines text)).
Proof. unfold Orchestrator.scan_output. now rewrite scan_lines_destroyed. Qed.




(** What the orchestrator reads, on lines of the agents. *)
Example scan_example :
  Orchestrator.scan_output
    ("    ✅ DESTROYED: export-report-2024" ++ Py.nl
     ++ "  EC2 Instances destroyed: 0" ++ Py.nl
     ++ "  Lambda Functions destroyed: 1" ++ Py.nl
     ++ "  CloudFormation Stacks: 3" ++ Py.nl
     ++ "  Failed: 2" ++ Py.nl)%string
  = Orchestrator.mkCounts true 2027 2.
Proof. reflexivity. Qed.

(** A line with 'failed:' that comes before the first line with
    'destroyed:' or 'complete!' is not counted. *)
Example scan_failed_first_example :
  Orchestrator.scan_output
    ("    ❌ FAILED: vpc-7 - DependencyViolation" ++ Py.nl
     ++ "  VPCs destroyed: 0" ++ Py.nl
     ++ "    ❌ FAILED: vpc-8 - DependencyViolation" ++ Py.nl
     ++ "  Failed: 2" ++ Py.nl)%string
  = Orchestrator.mkCounts true 0 10.
Proof. reflexivity. Qed.

(** The launch of an agent by the second orchestrator: one call. *)
Lemma complete_run_agent_spec (w : Oracle) (profile script phase : string)
    (st : St CompleteOrchestrator.OrchestrationLog) :
  exists b st',
    CompleteOrchestrator.run_agent profile script phase w st = (Ok b, st') /\
    trace st' = trace st ++ [RunPython script profile].
Proof.
  unfold CompleteOrchestrator.run_agent, try_except, bind, call.
  destruct (w (trace st) (RunPython script profile)) as [r | e]; cbn.
  - destruct r; cbn; try (eexists; eexists; split; reflexivity).
    destruct (Z.eqb returncode 0); cbn; eexists; eexists; split; reflexivity.
  - destruct e; cbn; eexists; eexists; split; reflexivity.
Qed.

Lemma after_barrier_no_sleep (w : Oracle) (profile file : string) :
  keeps w (calls (fun c => ~ is_sleep c))
    (CompleteOrchestrator.run_cli_nuke profile ;;;
     CompleteOrchestrator.verify_account_empty profile ;;;
     call (WriteFile file) ;;; ret tt).
Proof.
  unfold CompleteOrchestrator.run_cli_nuke,
    CompleteOrchestrator.verify_account_empty,
    CompleteOrchestrator.nuke_region.
  keeps_walk; intros; unfold calls; repeat constructor; cbn; auto.
Qed.

(** The two launches of the first phase, in the order they are issued. *)
Definition first_phase (profile : string) (storage_first : bool)
    : list Call :=
  let storage :=
    RunPython (CompleteOrchestrator.agents_dir
               ++ "/storage_destruction_agent.py")%string profile in
  let compute :=
    RunPython (CompleteOrchestrator.agents_dir
               ++ "/compute_destruction_agent.py")%string profile in
  if storage_first then [storage; compute] else [compute; storage].

Lemma comprehensive_nuke_shape (w : Oracle) (profile now : string)
    (storage_first : bool) (st : St CompleteOrchestrator.OrchestrationLog) :
  exists rest,
    trace (snd (CompleteOrchestrator.run_comprehensive_nuke profile
                  storage_first now w st))
      = trace st ++ first_phase profile storage_first ++ [Sleep 10] ++ rest /\
    Forall (fun c => ~ is_sleep c) rest.
Proof.
  unfold CompleteOrchestrator.run_comprehensive_nuke, first_phase.
  unfold CompleteOrchestrator.storage_phase,
    CompleteOrchestrator.compute_phase.
  match goal with
  | |- context [call (WriteFile ?f)] => remember f as file eqn:Hf; clear Hf
  end.
  remember (CompleteOrchestrator.agents_dir
            ++ "/storage_destruction_agent.py")%string as s eqn:Hs.
  remember (CompleteOrchestrator.agents_dir
            ++ "/compute_destruction_agent.py")%string as c eqn:Hc.
  clear Hs Hc. cbv zeta.
  destruct storage_first.
  - unfold bind at 1. unfold bind at 1. unfold bind at 1.
    destruct (complete_run_agent_spec w profile s "STORAGE_DESTRUCTION" st)
      as (b1 & st1 & Hr1 & Ht1).
    rewrite Hr1. cbn [ret].
    unfold bind at 1.
    destruct (complete_run_agent_spec w profile c "COMPUTE_DESTRUCTION" st1)
      as (b2 & st2 & Hr2 & Ht2).
    rewrite Hr2. cbn [ret].
    unfold bind at 1. unfold sleep at 1.
    set (st3 := mkSt (trace st2 ++ [Sleep 10]) (out st2) (log st2)).
    destruct (after_barrier_no_sleep w profile file st3) as (rest & Ht & Hf).
    exists rest. split; [| exact Hf].
    rewrite Ht. subst st3. cbn [trace]. rewrite Ht2, Ht1. list_eq.
  - unfold bind at 1. unfold bind at 1. unfold bind at 1.
    destruct (complete_run_agent_spec w profile c "COMPUTE_DESTRUCTION" st)
      as (b1 & st1 & Hr1 & Ht1).
    rewrite Hr1. cbn [ret].
    unfold bind at 1.
    destruct (complete_run_agent_spec w profile s "STORAGE_DESTRUCTION" st1)
      as (b2 & st2 & Hr2 & Ht2).
    rewrite Hr2. cbn [ret].
    unfold bind at 1. unfold sleep at 1.
    set (st3 := mkSt (trace st2 ++ [Sleep 10]) (out st2) (log st2)).
    destruct (after_barrier_no_sleep w profile file st3) as (rest & Ht & Hf).
    exists rest. split; [| exact Hf].
    rewrite Ht. subst st3. cbn [trace]. rewrite Ht2, Ht1. list_eq.
Qed.

(** C7, as amended.  Each orchestrator pauses once, for a fixed time.
    The account-closure orchestrator launches the storage agent and the
    compute agent with no pause between them, pauses 30 seconds, and
    launches the infrastructure agent; nothing pauses after that.  The
    complete-closure orchestrator launches the storage and compute agents
    together, pauses 10 seconds, and goes through its command-line phase
    and its verification phase with no pause between them. *)
Theorem C7_one_barrier_per_run (w : Oracle) (profile now : string) :
  (forall st : St Orchestrator.ClosureLog,
     let ext :=
       emitted st
         (snd (Orchestrator.orchestrate_account_closure profile now w st)) in
     exists storage compute infra tail,
       ext = storage ++ compute ++ [Sleep 30] ++ infra ++ tail /\
       Forall (agent_call "storage_destruction_agent.py" profile) storage /\
       Forall (agent_call "compute_destruction_agent.py" profile) compute /\
       Forall (agent_call "infrastructure_destruction_agent.py" profile)
         infra /\
       Forall is_write_file tail)
  /\
  (forall (storage_first : bool)
          (st : St CompleteOrchestrator.OrchestrationLog),
     let ext :=
       emitted st
         (snd (CompleteOrchestrator.run_comprehensive_nuke profile
                 storage_first now w st)) in
     exists rest,
       ext = first_phase profile storage_first ++ [Sleep 10] ++ rest /\
       Forall (fun c => ~ is_sleep c) rest).
Proof.
  split.
  - intros st ext. subst ext.
    destruct (orchestrate_spec w profile now st)
      as (ps & pc & pi & es & ec & ei & tail & r & st' & Heq & Ht & Hes & Hec
          & Hei & Htail & _).
    rewrite Heq. cbn [snd]. rewrite (emitted_app _ _ _ Ht).
    exists es, ec, ei, tail. auto.
  - intros storage_first st ext. subst ext.
    destruct (comprehensive_nuke_shape w profile now storage_first st)
      as (rest & Ht & Hrest).
    rewrite (emitted_app _ _ _ Ht). exists rest. auto.
Qed.

(** A machine on which every call succeeds and every agent exits with
    status 0, having printed nothing. *)
Definition quiet_machine : Oracle :=
  fun _ c =>
    match c with
    | RunPython _ _ => Ok (RProcess 0 "" "")
    | _ => Ok RNone
    end.

(** Whether a pause stands between the launch of [script1] and the
    launch of [script2], where [tr] launches them in this order. *)
Definition pause_between (script1 script2 : string) (tr : list Call) : Prop :=
  exists i j k p1 p2 seconds,
    nth_error tr i = Some (RunPython script1 p1) /\
    nth_error tr j = Some (Sleep seconds) /\
    nth_error tr k = Some (RunPython script2 p2) /\
    i < j /\ j < k.

(** C7, as stated, fails at the first phase boundary: the compute agent
    is launched right after the storage agent has returned.  The only
    pause of the run stands between the compute agent and the
    infrastructure agent. *)
Lemma C7_counterexample :
  let dir := Orchestrator.agents_dir in
  let tr :=
    trace (snd (Orchestrator.orchestrate_account_closure "Development-Admin"
                  "20250101_000000" quiet_machine
                  (mkSt [] ""%string Orchestrator.initial_log))) in
  firstn 7 tr
    = [Chmod (dir ++ "/storage_destruction_agent.py")%string;
       RunPython (dir ++ "/storage_destruction_agent.py")%string
         "Development-Admin";
       Chmod (dir ++ "/compute_destruction_agent.py")%string;
       RunPython (dir ++ "/compute_destruction_agent.py")%string
         "Development-Admin";
       Sleep 30;
       Chmod (dir ++ "/infrastructure_destruction_agent.py")%string;
       RunPython (dir ++ "/infrastructure_destruction_agent.py")%string
         "Development-Admin"] /\
  ~ pause_between (dir ++ "/storage_destruction_agent.py")%string
      (dir ++ "/compute_destruction_agent.py")%string tr.
Proof.
  cbv zeta. split; [vm_compute; reflexivity |].
  intros (i & j & k & p1 & p2 & seconds & _ & Hj & Hk & _ & Hjk).
  vm_compute in Hj, Hk.
  do 4 (destruct j as [| j]; [discriminate |]).
  do 4 (destruct k as [| k]; [lia |]).
  do 5 (destruct k as [| k]; [discriminate |]).
  destruct k; discriminate.
Qed.

(* ================================================================== *)
(** * Further properties of the agents *)

(** ** The sweeper: dry runs, outcomes, order *)

(** The calls by which the sweeper looks a resource up. *)
Definition is_lookup_call (c : Call) : Prop :=
  match c with
  | GetBucketTagging _ | DescribeTags _ _ | DescribeStacks _ _
  | GetFunction _ _ | ListTags _ _ | DescribeDBInstances _ _
  | ListTagsForResource _ _ => True
  | _ => False
  end.

Lemma get_resource_tags_lookups (w : Oracle) region arn id ty :
  keeps w (calls is_lookup_call) (Sweeper.get_resource_tags region arn id ty).
Proof.
  unfold Sweeper.get_resource_tags, Sweeper.required.
  assert (Hr : forall l, keeps w (calls is_lookup_call) (Sweeper.rebuild_tags l)).
  { induction l as [| t l IH]; cbn.
    - keeps_walk.
    - keeps_step.
      + unfold Sweeper.rebuild_tag. keeps_walk.
      + keeps_step; [exact IH | keeps_walk]. }
  keeps_walk; try calls_leaf; apply Hr.
Qed.

Ltac dry := cbv beta iota delta [negb andb].

Lemma dry_sweep_resource_lookups (w : Oracle) k region id :
  keeps w (calls is_lookup_call) (Sweeper.sweep_resource true k region id).
Proof.
  pose proof (get_resource_tags_lookups w) as Ht.
  destruct k; cbn [Sweeper.sweep_resource];
    unfold Sweeper.sweep_bucket, Sweeper.sweep_stack, Sweeper.sweep_function,
      Sweeper.sweep_db, Sweeper.sweep_instance, Sweeper.record_preserved,
      Sweeper.record_successful, Sweeper.record_failed; dry.
  all: repeat first [ apply Ht | keeps_step ]; calls_leaf.
Qed.

(** X1.  A dry run of the sweeper changes nothing: whatever the inventory
    and the profile, the only calls [sweep_account] issues with
    [dry_run] set are the lookups of tags and of resource details, and
    the writing of its results file. *)
Theorem X1_dry_run_only_reads (w : Oracle) (profile : string)
    (inventory : Sweeper.Inventory) (file : string)
    (st : St Sweeper.DeletionLog) :
  Forall (fun c => is_lookup_call c \/ c = WriteFile file)
    (emitted st (snd (Sweeper.sweep_account profile inventory true file w st))).
Proof.
  apply (@keeps_emitted w _ (calls (fun c => is_lookup_call c \/ c = WriteFile file))).
  assert (Hb : forall k region id,
    keeps w (calls (fun c => is_lookup_call c \/ c = WriteFile file))
      (Sweeper.sweep_resource true k region id)).
  { intros. eapply keeps_weaken; [apply dry_sweep_resource_lookups |].
    unfold calls. intros e _ _ H. eapply Forall_impl; [| exact H].
    cbn. auto. }
  unfold Sweeper.sweep_account, Sweeper.delete_lambda_functions,
    Sweeper.delete_ec2_resources, Sweeper.delete_rds_resources,
    Sweeper.delete_s3_buckets, Sweeper.delete_cloudformation_stacks.
  dry.
  repeat first
    [ apply (Hb Sweeper.S3Bucket ""%string)
    | apply (Hb Sweeper.Stack)
    | apply (Hb Sweeper.LambdaFunction)
    | apply (Hb Sweeper.RdsInstance)
    | apply (Hb Sweeper.Ec2Instance)
    | keeps_step ];
    calls_leaf.
Qed.

(** A method that returns, whatever the provider answers. *)
Definition returns {L A : Type} (w : Oracle) (m : M L A) : Prop :=
  forall st, exists a, fst (m w st) = Ok a.

Lemma returns_ret {L A : Type} (w : Oracle) (a : A) : returns w (@ret L A a).
Proof. intros st. now exists a. Qed.

Lemma returns_modify {L : Type} (w : Oracle) (f : L -> L) :
  returns w (modify f).
Proof. intros st. now exists tt. Qed.

Lemma returns_bind {L A B : Type} (w : Oracle) (m : M L A) (f : A -> M L B) :
  returns w m -> (forall a, returns w (f a)) -> returns w (bind m f).
Proof.
  intros Hm Hf st. unfold bind. destruct (Hm st) as (a & Ha).
  destruct (m w st) as [r st1]. cbn in Ha. subst r. apply Hf.
Qed.

Lemma returns_try_except {L A : Type} (w : Oracle) (m : M L A)
    (h : exn -> M L A) :
  (forall e, returns w (h e)) -> returns w (try_except m h).
Proof.
  intros Hh st. unfold try_except.
  destruct (m w st) as [[a | e] st1]; [now exists a | apply Hh].
Qed.

Lemma returns_for_each {L X : Type} (w : Oracle) (xs : list X)
    (body : X -> M L unit) :
  (forall x, returns w (body x)) -> returns w (for_each xs body).
Proof.
  intros Hb. induction xs as [| x xs IH]; cbn [for_each].
  - apply returns_ret.
  - apply returns_bind; auto.
Qed.

Lemma returns_unit {L : Type} (w : Oracle) (m : M L unit) (st : St L) :
  returns w m -> fst (m w st) = Ok tt.
Proof. intros H. destruct (H st) as ([] & Ha). exact Ha. Qed.

(** Runs that leave the log alone. *)
Definition silent {L : Type} : Inv L := quiet (fun _ => True).

Lemma closed_silent {L : Type} : closed (@silent L).
Proof. apply closed_quiet. Qed.
#[local] Hint Resolve closed_silent : runs.

Ltac silent_leaf :=
  unfold silent, quiet; split; [repeat constructor | reflexivity].

Lemma quiet_silent {L A : Type} (w : Oracle) (p : Call -> Prop) (m : M L A) :
  keeps w (quiet p) m -> keeps w silent m.
Proof.
  intros H. eapply keeps_weaken; [exact H |].
  intros e l l' [Hf ->]. split; [| reflexivity].
  eapply Forall_impl; [| exact Hf]. auto.
Qed.

(** A method that writes the log once, as its last step: it returns
    having applied [fp] or [fs] to the log, or it raises having left the
    log alone. *)
Definition ends_recorded {L : Type} (w : Oracle) (m : M L unit)
    (fp fs : L -> L) : Prop :=
  forall st,
    (fst (m w st) = Ok tt /\
     (log (snd (m w st)) = fp (log st) \/ log (snd (m w st)) = fs (log st)))
    \/ (exists e, fst (m w st) = Raise e /\ log (snd (m w st)) = log st).

Lemma ends_recorded_bind {L A : Type} (w : Oracle) (m : M L A)
    (k : A -> M L unit) (fp fs : L -> L) :
  keeps w silent m -> (forall a, ends_recorded w (k a) fp fs) ->
  ends_recorded w (bind m k) fp fs.
Proof.
  intros Hm Hk st. unfold bind.
  destruct (Hm st) as (ext & _ & _ & Hl).
  destruct (m w st) as [[a | e] st1]; cbn in Hl.
  - rewrite <- Hl. apply Hk.
  - right. exists e. auto.
Qed.

Lemma ends_recorded_first {L : Type} (w : Oracle) (fp fs : L -> L) :
  ends_recorded w (modify fp) fp fs.
Proof. intros st. left. cbn. auto. Qed.

Lemma ends_recorded_second {L : Type} (w : Oracle) (fp fs : L -> L) :
  ends_recorded w (modify fs) fp fs.
Proof. intros st. left. cbn. auto. Qed.

Lemma ends_recorded_raise {L : Type} (w : Oracle) (e : exn) (fp fs : L -> L) :
  ends_recorded w (raise e) fp fs.
Proof. intros st. right. exists e. cbn. auto. Qed.

Lemma get_resource_tags_silent (w : Oracle) region arn id ty :
  keeps w silent (Sweeper.get_resource_tags region arn id ty).
Proof.
  eapply quiet_silent. apply get_resource_tags_harmless.
Qed.

Ltac ends_step :=
  lazymatch goal with
  | |- ends_recorded _ (bind (Sweeper.get_resource_tags _ _ _ _) _) _ _ =>
      apply ends_recorded_bind; [apply get_resource_tags_silent | intros ?]
  | |- ends_recorded _ (bind _ _) _ _ =>
      apply ends_recorded_bind; [keeps_walk; try silent_leaf | intros ?]
  | |- ends_recorded _ (Sweeper.record_preserved _ _ _) _ _ =>
      apply ends_recorded_first
  | |- ends_recorded _ (Sweeper.record_successful _ _ _) _ _ =>
      apply ends_recorded_second
  | |- ends_recorded _ (if ?b then _ else _) _ _ => destruct b
  end.

(** What a loop body of the sweeper does before its handler. *)
Lemma sweep_resource_outcome (w : Oracle) (dry_run : bool)
    (k : Sweeper.Kind) (region id : string) (st : St Sweeper.DeletionLog) :
  let ty := Sweeper.kind_type k in
  let reg := Sweeper.kind_region k region in
  exists st',
    Sweeper.sweep_resource dry_run k region id w st = (Ok tt, st') /\
    (log st' = Sweeper.log_preserved (preserved_entry k region id) (log st)
     \/ log st' = Sweeper.log_successful (mkEntry ty id reg None) (log st)
     \/ exists e,
          log st'
          = Sweeper.log_failed (mkEntry ty id reg (Some (exn_str e))) (log st)).
Proof.
  cbv zeta.
  assert (H : forall (m : M Sweeper.DeletionLog unit) fp fs ff,
    ends_recorded w m fp fs ->
    exists st',
      try_except m (fun e => modify (ff e)) w st = (Ok tt, st') /\
      (log st' = fp (log st) \/ log st' = fs (log st)
       \/ exists e, log st' = ff e (log st))).
  { intros m fp fs ff Hm. unfold try_except.
    destruct (Hm st) as [[Hr Hl] | (e & Hr & Hl)];
      destruct (m w st) as [r st1]; cbn in Hr, Hl; subst r.
    - exists st1. split; [reflexivity |]. tauto.
    - eexists. split; [reflexivity |]. cbn. right. right. exists e.
      now rewrite Hl. }
  destruct k; cbn [Sweeper.sweep_resource Sweeper.kind_type
                   Sweeper.kind_region];
    unfold Sweeper.sweep_bucket, Sweeper.sweep_stack, Sweeper.sweep_function,
      Sweeper.sweep_db, Sweeper.sweep_instance, Sweeper.record_failed;
    apply H; repeat ends_step.
Qed.

(** X2.  Every resource the sweeper handles gets exactly one outcome.
    The loop body of each kind of resource returns normally, whatever the
    provider answers and whatever the mode, and its whole effect on the
    log is one entry for the resource: in [skipped_preserved], in
    [successful], or in [failed] with the text of the exception; the
    matching counter goes up by one. *)
Theorem X2_one_outcome_per_resource (w : Oracle) (dry_run : bool)
    (k : Sweeper.Kind) (region id : string) (st : St Sweeper.DeletionLog) :
  let r := Sweeper.sweep_resource dry_run k region id w st in
  let ty := Sweeper.kind_type k in
  let reg := Sweeper.kind_region k region in
  fst r = Ok tt /\
  (log (snd r)
     = Sweeper.log_preserved
         (mkEntry ty id reg (Some "Tagged for preservation"%string)) (log st)
   \/ log (snd r) = Sweeper.log_successful (mkEntry ty id reg None) (log st)
   \/ exists e,
        log (snd r)
        = Sweeper.log_failed (mkEntry ty id reg (Some (exn_str e))) (log st)).
Proof.
  cbv zeta.
  destruct (sweep_resource_outcome w dry_run k region id st) as (st' & Hr & H).
  rewrite Hr. cbn [fst snd]. split; [reflexivity | exact H].
Qed.























(** *** The passes of a sweep *)

Section Passes.
Variable w : Oracle.
Variable L : Type.
Variable pass : Call -> nat.

(** The calls [ext] are in the order of their passes, none before the
    pass [n]. *)
Definition from_pass (n : nat) (ext : list Call) : Prop :=
  StronglySorted (fun a b => pass a <= pass b) ext /\
  Forall (fun c => n <= pass c) ext.

Definition emits (S : list Call -> Prop) (A : Type) (m : M L A) : Prop :=
  forall st, exists ext, trace (snd (m w st)) = trace st ++ ext /\ S ext.

Lemma from_pass_app (n n' : nat) (e1 e2 : list Call) :
  Forall (fun c => pass c = n) e1 -> from_pass n' e2 -> n <= n' ->
  from_pass n (e1 ++ e2).
Proof.
  intros H1 [Hs2 Hf2] Hn. split.
  - apply StronglySorted_app; [| exact Hs2 |].
    + eapply constant_key_sorted. exact H1.
    + intros a b Ha Hb. rewrite Forall_forall in H1, Hf2.
      rewrite (H1 a Ha). specialize (Hf2 b Hb). cbn in Hf2. lia.
  - apply Forall_app. split.
    + eapply Forall_impl; [| exact H1]. cbn. intros; lia.
    + eapply Forall_impl; [| exact Hf2]. cbn. intros; lia.
Qed.

Lemma from_pass_nil (n : nat) : from_pass n [].
Proof. split; constructor. Qed.

(** A pass, then the later passes. *)
Lemma emits_pass_then (n n' : nat) (A B : Type) (m : M L A)
    (k : A -> M L B) :
  keeps w (calls (fun c => pass c = n)) m ->
  (forall a, emits (from_pass n') (k a)) -> n <= n' ->
  emits (from_pass n) (bind m k).
Proof.
  intros Hm Hk Hn st. unfold bind.
  destruct (Hm st) as (e1 & Ht1 & H1). unfold calls in H1.
  destruct (m w st) as [[a | e] st1]; cbn in Ht1 |- *.
  - destruct (Hk a st1) as (e2 & Ht2 & H2).
    exists (e1 ++ e2). rewrite Ht2, Ht1, app_assoc.
    split; [reflexivity |]. eapply from_pass_app; eauto.
  - exists e1. split; [exact Ht1 |].
    rewrite <- (app_nil_r e1).
    eapply from_pass_app; eauto using from_pass_nil.
Qed.

Lemma emits_pass_last (n : nat) (A : Type) (m : M L A) :
  keeps w (calls (fun c => pass c = n)) m -> emits (from_pass n) m.
Proof.
  intros Hm st. destruct (Hm st) as (e1 & Ht1 & H1). unfold calls in H1.
  exists e1. split; [exact Ht1 |].
  rewrite <- (app_nil_r e1).
  eapply from_pass_app; eauto using from_pass_nil.
Qed.

End Passes.

(** The pass of [sweep_account] that issues a call: 1 for the functions,
    instances and databases, 2 for the buckets, 3 for the stacks, 4 for
    the results file. *)
Definition sweep_pass (c : Call) : nat :=
  match c with
  | GetFunction _ _ | ListTags _ _ | DeleteFunction _ _
  | DescribeTags _ _ | DescribeInstanceAttribute _ _
  | ModifyInstanceAttribute _ _ | TerminateInstances _ _
  | DescribeDBInstances _ _ | ListTagsForResource _ _
  | ModifyDBInstance _ _ | Sleep _ | DeleteDBInstance _ _ => 1
  | GetBucketTagging _ | ListObjectVersions _ | DeleteObjects _ _
  | DeleteBucket _ => 2
  | DescribeStacks _ _ | UpdateTerminationProtection _ _ | DeleteStack _ _
  | WaitStackDeleteComplete _ _ => 3
  | _ => 4
  end.

(** The pass of each kind of resource. *)
Definition kind_pass (k : Sweeper.Kind) : nat :=
  match k with
  | Sweeper.S3Bucket => 2
  | Sweeper.Stack => 3
  | _ => 1
  end.

Lemma rebuild_tags_calls (w : Oracle) (p : Call -> Prop) (l : list Tag) :
  keeps w (calls p) (Sweeper.rebuild_tags l).
Proof.
  induction l as [| t l IH]; cbn.
  - keeps_walk.
  - keeps_step.
    + unfold Sweeper.rebuild_tag. keeps_walk.
    + keeps_step; [exact IH | keeps_walk].
Qed.

Lemma sweep_resource_pass (w : Oracle) (dry_run : bool) (k : Sweeper.Kind)
    (region id : string) :
  keeps w (calls (fun c => sweep_pass c = kind_pass k))
    (Sweeper.sweep_resource dry_run k region id).
Proof.
  destruct k; cbn [Sweeper.sweep_resource kind_pass];
    unfold Sweeper.sweep_bucket, Sweeper.sweep_stack, Sweeper.sweep_function,
      Sweeper.sweep_db, Sweeper.sweep_instance, Sweeper.record_preserved,
      Sweeper.record_successful, Sweeper.record_failed,
      Sweeper.get_resource_tags, Sweeper.required;
    cbn [String.eqb Ascii.eqb Bool.eqb];
    repeat first [ apply rebuild_tags_calls | keeps_step ]; calls_leaf.
Qed.

Lemma sweep_compute_pass (w : Oracle) inventory dry_run :
  keeps w (calls (fun c => sweep_pass c = 1))
    (for_each (map fst inventory)
       (fun region =>
          Sweeper.delete_lambda_functions inventory dry_run region ;;;
          Sweeper.delete_ec2_resources inventory dry_run region ;;;
          Sweeper.delete_rds_resources inventory dry_run region)).
Proof.
  unfold Sweeper.delete_lambda_functions, Sweeper.delete_ec2_resources,
    Sweeper.delete_rds_resources. cbv zeta.
  repeat first
    [ apply (sweep_resource_pass w dry_run Sweeper.LambdaFunction)
    | apply (sweep_resource_pass w dry_run Sweeper.RdsInstance)
    | apply (sweep_resource_pass w dry_run Sweeper.Ec2Instance)
    | keeps_step ].
Qed.

Lemma sweep_storage_pass (w : Oracle) inventory dry_run :
  keeps w (calls (fun c => sweep_pass c = 2))
    (Sweeper.delete_s3_buckets inventory dry_run).
Proof.
  unfold Sweeper.delete_s3_buckets.
  repeat first
    [ apply (sweep_resource_pass w dry_run Sweeper.S3Bucket ""%string)
    | keeps_step ].
Qed.

Lemma sweep_stack_pass (w : Oracle) inventory dry_run :
  keeps w (calls (fun c => sweep_pass c = 3))
    (for_each (map fst inventory)
       (Sweeper.delete_cloudformation_stacks inventory dry_run)).
Proof.
  unfold Sweeper.delete_cloudformation_stacks.
  repeat first
    [ apply (sweep_resource_pass w dry_run Sweeper.Stack) | keeps_step ].
Qed.

(** X4.  A sweep deletes in the order of dependency its source
    announces: every call about a function, an instance or a database
    (lookups and deletions) is issued before every call about a bucket,
    every call about a bucket before every call about a stack, and the
    results file is written last.  So no bucket is emptied or deleted
    while compute resources are still being handled, and no stack is
    deleted before the buckets. *)
Theorem X4_sweep_passes_in_order (w : Oracle) (profile : string)
    (inventory : Sweeper.Inventory) (dry_run : bool) (file : string)
    (st : St Sweeper.DeletionLog) :
  let tr :=
    emitted st
      (snd (Sweeper.sweep_account profile inventory dry_run file w st)) in
  StronglySorted (fun a b => sweep_pass a <= sweep_pass b) tr /\
  precedes (fun c => sweep_pass c = 1) (fun c => sweep_pass c = 2) tr /\
  precedes (fun c => sweep_pass c = 2) (fun c => sweep_pass c = 3) tr /\
  precedes (fun c => sweep_pass c = 3) (fun c => sweep_pass c = 4) tr.
Proof.
  cbv zeta.
  assert (H : emits w (from_pass sweep_pass 1)
                (Sweeper.sweep_account profile inventory dry_run file)).
  { unfold Sweeper.sweep_account.
    destruct (negb dry_run && existsb _ _).
    - intros st0. exists []. cbn. rewrite app_nil_r.
      split; [reflexivity | apply from_pass_nil].
    - eapply emits_pass_then with (n' := 2);
        [apply sweep_compute_pass | intros _ | lia].
      eapply emits_pass_then with (n' := 3);
        [apply sweep_storage_pass | intros _ | lia].
      eapply emits_pass_then with (n' := 4);
        [apply sweep_stack_pass | intros _ | lia].
      apply emits_pass_last. keeps_walk; calls_leaf. }
  destruct (H st) as (ext & Ht & Hs & _).
  rewrite (emitted_app _ _ _ Ht).
  assert (Hp : forall n n', n < n' ->
    precedes (fun c => sweep_pass c = n) (fun c => sweep_pass c = n') ext).
  { intros n n' Hn i j a b Ha Hb Pa Pb.
    pose proof (StronglySorted_nth sweep_pass Hs) as Hm.
    destruct (Nat.lt_trichotomy i j) as [Hlt | [Heq | Hgt]]; [exact Hlt | |].
    - subst j. rewrite Ha in Hb. injection Hb as <-. lia.
    - specialize (Hm j i b a Hb Ha Hgt). lia. }
  split; [exact Hs |]. repeat split; apply Hp; lia.
Qed.

(** *** The lookup of tags *)

Lemma rebuild_tags_pure (w : Oracle) (l : list Tag)
    (st : St Sweeper.DeletionLog) :
  snd (Sweeper.rebuild_tags l w st) = st.
Proof.
  induction l as [| t l IH]; cbn; [reflexivity |].
  unfold bind, Sweeper.rebuild_tag.
  destruct (tag_Key t), (tag_Value t); cbn; try reflexivity.
  destruct (Sweeper.rebuild_tags l w st) as [[r | e] st1]; cbn in *;
    exact IH.
Qed.

(** X5.  [get_resource_tags] fails safe.  Whatever the resource type and
    the arguments, it returns a list of tags and never raises; it leaves
    the log alone and issues at most one call, a lookup; and when that
    call raises, whatever the exception, what it returns is the tag
    decom:preserve=true. *)
Theorem X5_get_resource_tags_fails_safe (w : Oracle) (region : string)
    (arn id : option string) (ty : string) (st : St Sweeper.DeletionLog) :
  let r := Sweeper.get_resource_tags region arn id ty w st in
  (exists tags, fst r = Ok tags) /\
  log (snd r) = log st /\
  Forall is_lookup_call (emitted st (snd r)) /\
  length (emitted st (snd r)) <= 1 /\
  (forall c e, In c (emitted st (snd r)) -> w (trace st) c = Raise e ->
               fst r = Ok Sweeper.preserve_default).
Proof.
  cbv zeta.
  assert (Hnil : forall (x : res (list Tag)),
    (exists tags, x = Ok tags) ->
    (exists tags, fst (x, st) = Ok tags) /\
    log (snd (x, st)) = log st /\
    Forall is_lookup_call (emitted st (snd (x, st))) /\
    length (emitted st (snd (x, st))) <= 1 /\
    (forall c e, In c (emitted st (snd (x, st))) -> w (trace st) c = Raise e ->
                 fst (x, st) = Ok Sweeper.preserve_default)).
  { intros x Hx. unfold emitted. cbn. rewrite skipn_all. cbn.
    repeat split; auto. intros c e []. }
  assert (Hone : forall (c : Call) (x : res (list Tag)),
    is_lookup_call c ->
    (exists tags, x = Ok tags) ->
    (forall e, w (trace st) c = Raise e -> x = Ok Sweeper.preserve_default) ->
    let st1 := mkSt (trace st ++ [c]) (out st) (log st) in
    (exists tags, fst (x, st1) = Ok tags) /\
    log (snd (x, st1)) = log st /\
    Forall is_lookup_call (emitted st (snd (x, st1))) /\
    length (emitted st (snd (x, st1))) <= 1 /\
    (forall c' e, In c' (emitted st (snd (x, st1))) ->
                  w (trace st) c' = Raise e ->
                  fst (x, st1) = Ok Sweeper.preserve_default)).
  { intros c x Hc Hx Hraise st1. subst st1. unfold emitted. cbn.
    rewrite skipn_app, Nat.sub_diag, skipn_all. cbn.
    repeat split; auto.
    intros c' e [<- | []] He. eauto. }
  unfold Sweeper.get_resource_tags, try_except, Sweeper.required.
  destruct (String.eqb ty "s3").
  { destruct id as [i |]; cbn; [| apply Hnil; eauto].
    destruct (w (trace st) (GetBucketTagging i)) as [x | e] eqn:E; cbn.
    - apply (Hone (GetBucketTagging i)); cbn; eauto. congruence.
    - apply (Hone (GetBucketTagging i)); cbn; eauto. }
  destruct (String.eqb ty "ec2").
  { destruct id as [i |]; cbn; [| apply Hnil; eauto].
    destruct (w (trace st) (DescribeTags region i)) as [x | e] eqn:E; cbn.
    - match goal with
      | |- context [Sweeper.rebuild_tags ?l w ?s] =>
          pose proof (rebuild_tags_pure w l s) as Hp;
          destruct (Sweeper.rebuild_tags l w s) as [[tags | e] st1]
      end; cbn in Hp; subst st1; cbn;
        apply (Hone (DescribeTags region i)); cbn; eauto; congruence.
    - apply (Hone (DescribeTags region i)); cbn; eauto. }
  destruct (String.eqb ty "cloudformation").
  { destruct id as [i |]; cbn; [| apply Hnil; eauto].
    destruct (w (trace st) (DescribeStacks region i)) as [x | e] eqn:E; cbn.
    - destruct x; cbn; try (apply (Hone (DescribeStacks region i)); cbn;
                            eauto; congruence).
      destruct stacks; cbn;
        apply (Hone (DescribeStacks region i)); cbn; eauto; congruence.
    - apply (Hone (DescribeStacks region i)); cbn; eauto. }
  destruct (String.eqb ty "lambda").
  { destruct arn as [a |]; cbn; [| apply Hnil; eauto].
    destruct (w (trace st) (ListTags region a)) as [x | e] eqn:E; cbn.
    - apply (Hone (ListTags region a)); cbn; eauto. congruence.
    - apply (Hone (ListTags region a)); cbn; eauto. }
  destruct (String.eqb ty "rds").
  { destruct arn as [a |]; cbn; [| apply Hnil; eauto].
    destruct (w (trace st) (ListTagsForResource region a)) as [x | e] eqn:E;
      cbn.
    - apply (Hone (ListTagsForResource region a)); cbn; eauto. congruence.
    - apply (Hone (ListTagsForResource region a)); cbn; eauto. }
  cbn. apply Hnil. eauto.
Qed.

(** *** No success without a deletion *)

Section Deleting.
Variable w : Oracle.
Variable L : Type.
Variable d : Call -> Prop.

(** Among the calls [ext] issued after [h], one satisfies [d] and
    returned. *)
Definition deleted_in (h ext : list Call) : Prop :=
  exists pre c post x,
    ext = pre ++ c :: post /\ d c /\ w (h ++ pre) c = Ok x.

Lemma deleted_in_shift (h e1 e2 : list Call) :
  deleted_in (h ++ e1) e2 -> deleted_in h (e1 ++ e2).
Proof.
  intros (pre & c & post & x & -> & Hd & Hw).
  exists (e1 ++ pre), c, post, x.
  rewrite <- app_assoc in Hw. rewrite <- app_assoc. auto.
Qed.

Lemma deleted_in_more (h e1 e2 : list Call) :
  deleted_in h e1 -> deleted_in h (e1 ++ e2).
Proof.
  intros (pre & c & post & x & -> & Hd & Hw).
  exists pre, c, (post ++ e2), x.
  rewrite <- app_assoc. auto.
Qed.

(** The live branch of a loop body: it leaves the log alone, and when
    it returns a deleting call has returned. *)
Definition live (A : Type) (m : M L A) : Prop :=
  forall st, exists ext,
    trace (snd (m w st)) = trace st ++ ext /\
    log (snd (m w st)) = log st /\
    (forall a, fst (m w st) = Ok a -> deleted_in (trace st) ext).

Lemma live_bind_silent (A B : Type) (m : M L A) (k : A -> M L B) :
  keeps w silent m -> (forall a, live (k a)) -> live (bind m k).
Proof.
  intros Hm Hk st. unfold bind.
  destruct (Hm st) as (e1 & Ht1 & _ & Hl1).
  destruct (m w st) as [[a | e] st1]; cbn in Ht1, Hl1 |- *.
  - destruct (Hk a st1) as (e2 & Ht2 & Hl2 & Hd2).
    exists (e1 ++ e2). rewrite Ht2, Ht1, app_assoc.
    split; [reflexivity |]. split; [congruence |].
    intros b Hb. apply deleted_in_shift. rewrite <- Ht1. eauto.
  - exists e1. split; [exact Ht1 |]. split; [exact Hl1 | discriminate].
Qed.

Lemma live_call (B : Type) (c : Call) (k : Response -> M L B) :
  d c -> (forall r, keeps w silent (k r)) -> live (bind (call c) k).
Proof.
  intros Hd Hk st. unfold bind, call.
  destruct (w (trace st) c) as [r | e] eqn:E; cbn.
  - destruct (Hk r (mkSt (trace st ++ [c]) (out st) (log st)))
      as (e2 & Ht2 & _ & Hl2). cbn in Ht2, Hl2.
    exists ([c] ++ e2). rewrite Ht2, <- app_assoc.
    split; [reflexivity |]. split; [exact Hl2 |].
    intros _ _. exists [], c, e2, r. rewrite app_nil_r. auto.
  - exists [c]. split; [reflexivity |]. split; [reflexivity | discriminate].
Qed.

(** A loop body before its handler: it returns having applied [fp], or
    having applied [fs] after a deleting call that returned, or it
    raises having left the log alone. *)
Definition outcome (m : M L unit) (fp fs : L -> L) : Prop :=
  forall st, exists ext,
    trace (snd (m w st)) = trace st ++ ext /\
    ((fst (m w st) = Ok tt /\ log (snd (m w st)) = fp (log st))
     \/ (fst (m w st) = Ok tt /\ log (snd (m w st)) = fs (log st) /\
         deleted_in (trace st) ext)
     \/ (exists e, fst (m w st) = Raise e /\ log (snd (m w st)) = log st)).

Lemma outcome_bind_silent (A : Type) (m : M L A) (k : A -> M L unit)
    (fp fs : L -> L) :
  keeps w silent m -> (forall a, outcome (k a) fp fs) ->
  outcome (bind m k) fp fs.
Proof.
  intros Hm Hk st. unfold bind.
  destruct (Hm st) as (e1 & Ht1 & _ & Hl1).
  destruct (m w st) as [[a | e] st1]; cbn in Ht1, Hl1 |- *.
  - destruct (Hk a st1) as (e2 & Ht2 & H).
    exists (e1 ++ e2). rewrite Ht2, Ht1, app_assoc.
    split; [reflexivity |]. rewrite <- Hl1.
    destruct H as [H | [(H1 & H2 & H3) | H]]; auto.
    right. left. repeat split; auto.
    apply deleted_in_shift. now rewrite <- Ht1.
  - exists e1. split; [exact Ht1 |]. right. right. eauto.
Qed.

Lemma outcome_first (fp fs : L -> L) : outcome (modify fp) fp fs.
Proof.
  intros st. exists []. cbn. rewrite app_nil_r. auto.
Qed.

Lemma outcome_live (m : M L unit) (fp fs : L -> L) :
  live m -> outcome (m ;;; modify fs) fp fs.
Proof.
  intros Hm st. unfold bind.
  destruct (Hm st) as (e1 & Ht1 & Hl1 & Hd1).
  destruct (m w st) as [[[] | e] st1]; cbn in Ht1, Hl1, Hd1 |- *.
  - exists e1. split; [exact Ht1 |]. right. left.
    rewrite Hl1. repeat split. eauto.
  - exists e1. split; [exact Ht1 |]. right. right. eauto.
Qed.

End Deleting.

Ltac live_step :=
  lazymatch goal with
  | |- live _ _ (bind (call ?c) _) =>
      first
        [ apply live_call;
          [ cbn; first [ reflexivity
                       | eexists; split; [reflexivity | now left] ]
          | intros ?; keeps_walk; silent_leaf ]
        | apply live_bind_silent; [keeps_walk; silent_leaf | intros ?] ]
  | |- live _ _ (bind _ _) =>
      apply live_bind_silent; [keeps_walk; silent_leaf | intros ?]
  end.

Ltac outcome_step :=
  lazymatch goal with
  | |- outcome _ _ (bind (Sweeper.get_resource_tags _ _ _ _) _) _ _ =>
      apply outcome_bind_silent; [apply get_resource_tags_silent | intros ?]
  | |- outcome _ _ (modify _) _ _ => apply outcome_first
  | |- outcome _ _ (bind _ (fun _ => modify _)) _ _ => apply outcome_live
  | |- outcome _ _ (bind _ _) _ _ =>
      apply outcome_bind_silent; [keeps_walk; try silent_leaf | intros ?]
  | |- outcome _ _ (if ?b then _ else _) _ _ => destruct b
  end.

Lemma live_sweep_outcome (w : Oracle) (k : Sweeper.Kind)
    (region id : string) (st : St Sweeper.DeletionLog) :
  exists ext st' r,
    Sweeper.sweep_resource false k region id w st = (r, st') /\
    trace st' = trace st ++ ext /\
    (Sweeper.successful (log st') = Sweeper.successful (log st) \/
     deleted_in w (Sweeper.is_delete_of k region id) (trace st) ext).
Proof.
  assert (H : forall (m : M Sweeper.DeletionLog unit) e1 e2 ty reg,
    outcome w (Sweeper.is_delete_of k region id) m
      (Sweeper.log_preserved e1) (Sweeper.log_successful e2) ->
    exists ext st' r,
      try_except m (Sweeper.record_failed ty id reg) w st = (r, st') /\
      trace st' = trace st ++ ext /\
      (Sweeper.successful (log st') = Sweeper.successful (log st) \/
       deleted_in w (Sweeper.is_delete_of k region id) (trace st) ext)).
  { intros m e1 e2 ty reg Hm. unfold try_except.
    destruct (Hm st) as (ext & Ht & Hc).
    destruct (m w st) as [r st1]; cbn in Ht, Hc.
    destruct Hc as [[-> Hl] | [(-> & Hl & Hd) | (e & -> & Hl)]].
    - exists ext, st1, (Ok tt). rewrite Hl. cbn. auto.
    - exists ext, st1, (Ok tt). auto.
    - exists ext. eexists. eexists. split; [reflexivity |]. cbn.
      rewrite Hl. auto. }
  destruct k; cbn [Sweeper.sweep_resource];
    unfold Sweeper.sweep_bucket, Sweeper.sweep_stack, Sweeper.sweep_function,
      Sweeper.sweep_db, Sweeper.sweep_instance, Sweeper.record_preserved,
      Sweeper.record_successful;
    eapply H; repeat outcome_step; repeat live_step.
Qed.

(** X6.  The sweeper records no success without a deletion.  In live
    mode, the loop body of a resource adds to [successful] only when the
    call that deletes this very resource ([delete_bucket],
    [delete_stack], [delete_function], [delete_db_instance], or
    [terminate_instances] on the instance) was issued and returned:
    whatever the provider answers, either [successful] is as it was, or
    such a call stands among the calls of the body and did not raise. *)
Theorem X6_no_success_without_deletion (w : Oracle) (k : Sweeper.Kind)
    (region id : string) (st : St Sweeper.DeletionLog) :
  let r := Sweeper.sweep_resource false k region id w st in
  Sweeper.successful (log (snd r)) = Sweeper.successful (log st) \/
  exists pre c post x,
    emitted st (snd r) = pre ++ c :: post /\
    Sweeper.is_delete_of k region id c /\
    w (trace st ++ pre) c = Ok x.
Proof.
  cbv zeta.
  destruct (live_sweep_outcome w k region id st)
    as (ext & st' & r & -> & Ht & H).
  cbn [snd]. rewrite (emitted_app _ _ _ Ht).
  destruct H as [H | H]; [now left | right; exact H].
Qed.

(* ------------------------------------------------------------------ *)
(** ** The targeted bucket destroyer: totals, stops, exit status *)

(** The sum of the three error counters of the summary. *)
Definition error_count (r : TargetedS3.Results) : nat :=
  TargetedS3.access_denied_errors r + TargetedS3.policy_restricted_errors r
  + TargetedS3.other_errors r.

(** Runs that touch nothing of the results but the fields of the bucket
    in progress. *)
Definition steady : Inv TargetedS3.Results :=
  fun _ l l' =>
    TargetedS3.buckets_processed l' = TargetedS3.buckets_processed l /\
    TargetedS3.total_attempted l' = TargetedS3.total_attempted l /\
    TargetedS3.successful_deletions l' = TargetedS3.successful_deletions l /\
    TargetedS3.failed_deletions l' = TargetedS3.failed_deletions l /\
    error_count l' = error_count l /\
    TargetedS3.bucket_name (TargetedS3.current l')
      = TargetedS3.bucket_name (TargetedS3.current l).

Lemma closed_steady : closed steady.
Proof.
  split; unfold steady.
  - intros l. repeat split.
  - intros e1 e2 l1 l2 l3 (A1 & A2 & A3 & A4 & A5 & A6)
      (B1 & B2 & B3 & B4 & B5 & B6).
    repeat split; congruence.
Qed.
#[local] Hint Resolve closed_steady : runs.

Lemma quiet_steady (w : Oracle) (A : Type) (p : Call -> Prop)
    (m : M TargetedS3.Results A) :
  keeps w (quiet p) m -> keeps w steady m.
Proof.
  intros H. eapply keeps_weaken; [exact H |].
  intros e l l' [_ ->]. unfold steady. repeat split.
Qed.

Lemma destroy_bucket_steps_steady (w : Oracle) (bucket : string) :
  keeps w steady (TargetedS3.destroy_bucket_steps bucket).
Proof.
  pose proof (quiet_steady (empty_bucket_contents_quiet w bucket)) as He.
  pose proof (quiet_steady (remove_bucket_configurations_quiet w bucket))
    as Hr.
  unfold TargetedS3.destroy_bucket_steps, TargetedS3.check_bucket_exists,
    TargetedS3.step_completed, TargetedS3.set_status,
    TargetedS3.set_error_type, TargetedS3.set_error_message,
    TargetedS3.set_configurations_removed, TargetedS3.set_current.
  repeat first [ apply He | apply Hr | keeps_step ];
    unfold steady; cbn; repeat split.
Qed.

(** The handlers of [destroy_bucket] return; they count one error at
    most, and leave the status alone. *)
Lemma destroy_bucket_failed_counts (w : Oracle) (e : exn)
    (st : St TargetedS3.Results) :
  exists st',
    TargetedS3.destroy_bucket_failed e w st = (Ok tt, st') /\
    TargetedS3.buckets_processed (log st')
      = TargetedS3.buckets_processed (log st) /\
    TargetedS3.total_attempted (log st')
      = TargetedS3.total_attempted (log st) /\
    TargetedS3.successful_deletions (log st')
      = TargetedS3.successful_deletions (log st) /\
    TargetedS3.failed_deletions (log st')
      = TargetedS3.failed_deletions (log st) /\
    TargetedS3.bucket_name (TargetedS3.current (log st'))
      = TargetedS3.bucket_name (TargetedS3.current (log st)) /\
    TargetedS3.status (TargetedS3.current (log st'))
      = TargetedS3.status (TargetedS3.current (log st)) /\
    error_count (log st) <= error_count (log st') <= error_count (log st) + 1.
Proof.
  unfold error_count.
  destruct e as [code msg | | msg]; cbn.
  - destruct (String.eqb code "AccessDenied"); cbn;
      [eexists; split; [reflexivity |]; cbn; repeat split; lia |].
    destruct (String.eqb code "BucketNotEmpty"); cbn;
      [eexists; split; [reflexivity |]; cbn; repeat split; lia |].
    destruct (Py.contains "ServiceControlPolicy" msg || Py.contains "SCP" msg);
      cbn; eexists; (split; [reflexivity |]); cbn; repeat split; lia.
  - eexists; split; [reflexivity |]; cbn; repeat split; lia.
  - eexists; split; [reflexivity |]; cbn; repeat split; lia.
Qed.

Definition is_success (b : TargetedS3.BucketResult) : bool :=
  String.eqb (TargetedS3.status b) "success".

(** [destroy_bucket] returns a result for the bucket it was given; it
    counts an error only for a result that is not a success. *)
Lemma destroy_bucket_result (w : Oracle) (bucket : string)
    (st : St TargetedS3.Results) :
  exists b st',
    TargetedS3.destroy_bucket bucket w st = (Ok b, st') /\
    TargetedS3.bucket_name b = bucket /\
    TargetedS3.buckets_processed (log st')
      = TargetedS3.buckets_processed (log st) /\
    TargetedS3.total_attempted (log st')
      = TargetedS3.total_attempted (log st) /\
    TargetedS3.successful_deletions (log st')
      = TargetedS3.successful_deletions (log st) /\
    TargetedS3.failed_deletions (log st')
      = TargetedS3.failed_deletions (log st) /\
    error_count (log st')
      <= error_count (log st) + (if is_success b then 0 else 1).
Proof.
  unfold TargetedS3.destroy_bucket.
  unfold bind at 1. cbn [TargetedS3.set_current modify].
  set (st0 := mkSt (trace st) (out st) _).
  assert (Hs0 : TargetedS3.status (TargetedS3.current (log st0))
                = "failed"%string) by reflexivity.
  destruct (destroy_bucket_steps_spec w bucket st0 Hs0)
    as (pre & r0 & st1 & Hr & _ & Hcases).
  destruct (destroy_bucket_steps_steady w bucket st0)
    as (ext & _ & A1 & A2 & A3 & A4 & A5 & A6).
  rewrite Hr in A1, A2, A3, A4, A5, A6. cbn [snd] in *.
  unfold error_count in A5. subst st0. cbn in A1, A2, A3, A4, A5, A6.
  unfold bind, try_except. rewrite Hr.
  destruct r0 as [[] | e].
  - cbn. eexists. eexists. split; [reflexivity |].
    repeat split; auto. unfold error_count. lia.
  - assert (Hf : TargetedS3.status (TargetedS3.current (log st1))
                 = "failed"%string).
    { destruct Hcases as [[_ Hf] | [(_ & x & _ & Hx & _) | (_ & e' & _ & _ & Hf)]];
        [now apply (Hf e) | discriminate | exact Hf]. }
    destruct (destroy_bucket_failed_counts w e st1)
      as (st2 & Hh & B1 & B2 & B3 & B4 & B5 & B6 & B7).
    rewrite Hh. cbn. eexists. eexists. split; [reflexivity |].
    unfold is_success. rewrite B6, Hf. cbn.
    unfold error_count in *.
    repeat split; try congruence. lia.
Qed.

(** The loop of [destroy_target_buckets]. *)
Lemma destroy_targets_loop (w : Oracle) (targets : list string) :
  forall st, exists results st',
    for_each targets
      (fun bucket =>
         b <- TargetedS3.destroy_bucket bucket ;;
         TargetedS3.record_result b) w st = (Ok tt, st') /\
    TargetedS3.buckets_processed (log st')
      = TargetedS3.buckets_processed (log st) ++ results /\
    map TargetedS3.bucket_name results = targets /\
    TargetedS3.total_attempted (log st')
      = TargetedS3.total_attempted (log st) /\
    TargetedS3.successful_deletions (log st')
      = TargetedS3.successful_deletions (log st)
        + length (filter is_success results) /\
    TargetedS3.failed_deletions (log st')
      = TargetedS3.failed_deletions (log st)
        + length (filter (fun b => negb (is_success b)) results) /\
    error_count (log st')
      <= error_count (log st)
         + length (filter (fun b => negb (is_success b)) results).
Proof.
  induction targets as [| bucket targets IH]; intros st.
  - exists [], st. cbn. rewrite app_nil_r. repeat split; lia.
  - cbn [for_each]. unfold bind at 1. unfold bind at 1.
    destruct (destroy_bucket_result w bucket st)
      as (b & st1 & Hr & Hn & A1 & A2 & A3 & A4 & A5).
    rewrite Hr. cbn [TargetedS3.record_result modify].
    match goal with
    | |- context [for_each targets ?f w ?s] =>
        destruct (IH s) as (results & st2 & Hl & B1 & B2 & B3 & B4 & B5 & B6)
    end.
    rewrite Hl. exists (b :: results), st2.
    split; [reflexivity |].
    cbn [log TargetedS3.buckets_processed TargetedS3.total_attempted
         TargetedS3.successful_deletions TargetedS3.failed_deletions] in *.
    fold (is_success b) in *.
    unfold error_count in *.
    cbn [log TargetedS3.access_denied_errors
         TargetedS3.policy_restricted_errors TargetedS3.other_errors] in *.
    split; [rewrite B1, A1, <- app_assoc; reflexivity |].
    split; [cbn; congruence |].
    split; [congruence |].
    cbn [filter]. destruct (is_success b); cbn [negb length]; repeat split; lia.
Qed.

Lemma filter_split_length (A : Type) (p : A -> bool) (l : list A) :
  length (filter p l) + length (filter (fun a => negb (p a)) l) = length l.
Proof.
  induction l as [| a l IH]; cbn; [reflexivity |].
  destruct (p a); cbn; lia.
Qed.

Lemma destroy_target_buckets_spec (w : Oracle) (targets : list string)
    (tr : list Call) (o : string) :
  exists results st',
    TargetedS3.destroy_target_buckets targets w
      (mkSt tr o TargetedS3.initial_results) = (Ok tt, st') /\
    TargetedS3.buckets_processed (log st') = results /\
    map TargetedS3.bucket_name results = targets /\
    TargetedS3.total_attempted (log st') = length targets /\
    TargetedS3.successful_deletions (log st')
      = length (filter is_success results) /\
    TargetedS3.failed_deletions (log st')
      = length (filter (fun b => negb (is_success b)) results) /\
    error_count (log st') <= TargetedS3.failed_deletions (log st').
Proof.
  unfold TargetedS3.destroy_target_buckets.
  unfold bind at 1. cbn [modify].
  match goal with
  | |- context [for_each targets ?f w ?s] =>
      destruct (destroy_targets_loop w targets s)
        as (results & st' & Hl & B1 & B2 & B3 & B4 & B5 & B6)
  end.
  rewrite Hl. unfold error_count in *. cbn in B1, B3, B4, B5, B6.
  exists results, st'. repeat split; auto. lia.
Qed.

(** X7.  [destroy_target_buckets] gives every target one result and the
    totals add up.  Run on fresh results, it returns normally whatever
    the provider answers; [buckets_processed] then holds one result per
    target, in the order of the targets; [total_attempted] is their
    number, [successful_deletions] the number of results whose status is
    'success', [failed_deletions] the number of the others, and the two
    add up to the number of targets. *)
Theorem X7_targeted_totals_add_up (w : Oracle) (targets : list string)
    (tr : list Call) (o : string) :
  let r :=
    TargetedS3.destroy_target_buckets targets w
      (mkSt tr o TargetedS3.initial_results) in
  let l := log (snd r) in
  fst r = Ok tt /\
  map TargetedS3.bucket_name (TargetedS3.buckets_processed l) = targets /\
  TargetedS3.total_attempted l = length targets /\
  TargetedS3.successful_deletions l
    = length (filter is_success (TargetedS3.buckets_processed l)) /\
  TargetedS3.failed_deletions l
    = length (filter (fun b => negb (is_success b))
                (TargetedS3.buckets_processed l)) /\
  TargetedS3.successful_deletions l + TargetedS3.failed_deletions l
    = length targets.
Proof.
  cbv zeta.
  destruct (destroy_target_buckets_spec w targets tr o)
    as (results & st' & Hr & B1 & B2 & B3 & B4 & B5 & _).
  rewrite Hr. cbn [fst snd]. rewrite B4, B5, B1, B3.
  repeat split; auto.
  rewrite filter_split_length, <- B2. now rewrite length_map.
Qed.

(** X8.  The error counters of the summary never exceed the failures:
    after [destroy_target_buckets] on fresh results, the access-denied,
    policy-restricted and other errors counted are together at most
    [failed_deletions].  (They may be fewer: a bucket whose existence
    check is denied, one that could not be emptied and one that was not
    empty are failures that no error counter counts.) *)
Theorem X8_targeted_errors_within_failures (w : Oracle)
    (targets : list string) (tr : list Call) (o : string) :
  let l :=
    log (snd (TargetedS3.destroy_target_buckets targets w
                (mkSt tr o TargetedS3.initial_results))) in
  TargetedS3.access_denied_errors l + TargetedS3.policy_restricted_errors l
  + TargetedS3.other_errors l
  <= TargetedS3.failed_deletions l.
Proof.
  cbv zeta.
  destruct (destroy_target_buckets_spec w targets tr o)
    as (results & st' & Hr & _ & _ & _ & _ & _ & B6).
  rewrite Hr. exact B6.
Qed.


(** A provider that refuses to list the contents of any bucket. *)
Definition unlistable_world : Oracle :=
  fun _ c =>
    match c with
    | ListObjectVersions _ =>
        Raise (ClientError "AccessDenied" "Access Denied")
    | _ => Ok RNone
    end.


(** Such a failure is one that no error counter counts. *)
Example targeted_uncounted_failure_example :
  let l :=
    log (snd (TargetedS3.destroy_target_buckets ["audit-trail"%string]
                unlistable_world
                (mkSt [] ""%string TargetedS3.initial_results))) in
  TargetedS3.failed_deletions l = 1 /\
  TargetedS3.access_denied_errors l + TargetedS3.policy_restricted_errors l
  + TargetedS3.other_errors l = 0.
Proof. vm_compute. split; reflexivity. Qed.

(** The five configurations [remove_bucket_configurations] removes, with
    the names it reports them under. *)
Definition configuration_calls (bucket : string) : list (Call * string) :=
  [(DeleteBucketPolicy bucket, "bucket_policy"%string);
   (DeleteBucketLifecycle bucket, "lifecycle"%string);
   (DeleteBucketCors bucket, "cors"%string);
   (PutBucketVersioning bucket, "versioning"%string);
   (PutBucketNotificationConfiguration bucket, "notifications"%string)].

(** The names of the calls of [cs] that succeed when issued in turn
    after the calls [h]. *)
Fixpoint succeeded (w : Oracle) (h : list Call) (cs : list (Call * string))
    : list string :=
  match cs with
  | [] => []
  | (c, name) :: rest =>
      match w h c with
      | Ok _ => name :: succeeded w (h ++ [c]) rest
      | Raise _ => succeeded w (h ++ [c]) rest
      end
  end.

(** The provider fails with [ClientError]s only. *)
Definition client_errors_only (w : Oracle) : Prop :=
  forall h c e, w h c = Raise e -> exists code msg, e = ClientError code msg.

(** X10.  The five configurations are removed independently of each
    other.  Against a provider whose failures are [ClientError]s,
    [remove_bucket_configurations] always issues its five calls (policy,
    lifecycle, CORS, versioning, notifications) in this order, whichever
    of them fail; it returns the names of those that succeeded, in the
    same order, and leaves the results alone. *)
Theorem X10_configurations_removed_independently (w : Oracle)
    (bucket : string) (st : St TargetedS3.Results) :
  client_errors_only w ->
  let r := TargetedS3.remove_bucket_configurations bucket w st in
  fst r = Ok (succeeded w (trace st) (configuration_calls bucket)) /\
  emitted st (snd r) = map fst (configuration_calls bucket) /\
  log (snd r) = log st.
Proof.
  intros Hw r. subst r.
  assert (H : exists st',
    TargetedS3.remove_bucket_configurations bucket w st
      = (Ok (succeeded w (trace st) (configuration_calls bucket)), st') /\
    trace st' = trace st ++ map fst (configuration_calls bucket) /\
    log st' = log st).
  { unfold TargetedS3.remove_bucket_configurations,
      TargetedS3.remove_configuration, try_except_client, try_except, bind,
      call, configuration_calls.
    cbn [succeeded map fst trace out log ret].
    repeat match goal with
    | |- context [w ?h ?c] =>
        let E := fresh "E" in
        destruct (w h c) as [? | ?e] eqn:E;
          [| destruct (Hw _ _ _ E) as (? & ? & ->)]; cbn
    end;
    eexists; (split; [reflexivity |]); cbn; split; try reflexivity;
      list_eq. }
  destruct H as (st' & Hr & Ht & Hl).
  rewrite Hr. cbn [fst snd]. split; [reflexivity |].
  split; [now apply emitted_app | exact Hl].
Qed.

(** A provider on which a bucket has no policy and no CORS rules. *)
Definition bare_bucket_world : Oracle :=
  fun _ c =>
    match c with
    | DeleteBucketPolicy _ =>
        Raise (ClientError "NoSuchBucketPolicy" "no policy")
    | DeleteBucketCors _ =>
        Raise (ClientError "NoSuchCORSConfiguration" "no CORS")
    | _ => Ok RNone
    end.

Lemma X10_witness :
  let st := mkSt [] ""%string TargetedS3.initial_results in
  let r :=
    TargetedS3.remove_bucket_configurations "site-assets" bare_bucket_world
      st in
  fst r = Ok (succeeded bare_bucket_world (trace st)
                (configuration_calls "site-assets")) /\
  emitted st (snd r) = map fst (configuration_calls "site-assets") /\
  log (snd r) = log st.
Proof.
  apply (@X10_configurations_removed_independently bare_bucket_world
           "site-assets" (mkSt [] ""%string TargetedS3.initial_results)).
  intros h c e. unfold bare_bucket_world.
  destruct c; intros H; try discriminate; injection H as <-; eauto.
Defined.

Example configurations_example :
  fst (TargetedS3.remove_bucket_configurations "site-assets"
         bare_bucket_world
         (mkSt [] ""%string TargetedS3.initial_results))
  = Ok ["lifecycle"; "versioning"; "notifications"]%string.
Proof. reflexivity. Qed.

Lemma no_failure_all_success (results : list TargetedS3.BucketResult) :
  length (filter (fun b => negb (is_success b)) results) = 0 <->
  Forall (fun b => TargetedS3.status b = "success"%string) results.
Proof.
  induction results as [| b results IH]; cbn.
  - split; auto.
  - unfold is_success at 1.
    destruct (String.eqb_spec (TargetedS3.status b) "success"); cbn.
    + rewrite IH. split; [auto | now inversion 1].
    + split; [discriminate | inversion 1; contradiction].
Qed.

(** X11.  The exit status of the targeted destroyer tells whether every
    target is gone.  Run on fresh results, [main] exits with status 0 or
    1; the status is 0 exactly when every target bucket has a result
    whose status is 'success' (deleted, or already absent) and the
    results file was written; one failed bucket, or a failure to write
    the file, gives 1. *)
Theorem X11_targeted_exit_status (w : Oracle) (profile now : string)
    (tr : list Call) (o : string) :
  let r :=
    TargetedS3Script.main profile now w
      (mkSt tr o TargetedS3.initial_results) in
  let l := log (snd r) in
  let file :=
    (Closure.results_dir ++ "/targeted_s3_destruction_" ++ profile ++ "_"
     ++ now ++ ".json")%string in
  exists code,
    fst r = Ok code /\ (code = 0 \/ code = 1)%Z /\
    map TargetedS3.bucket_name (TargetedS3.buckets_processed l)
      = TargetedS3Script.TARGET_BUCKETS /\
    (code = 0%Z <->
     Forall (fun b => TargetedS3.status b = "success"%string)
       (TargetedS3.buckets_processed l) /\
     exists h x,
       trace (snd r) = h ++ [WriteFile file] /\ w h (WriteFile file) = Ok x).
Proof.
  cbv zeta.
  remember (Closure.results_dir ++ "/targeted_s3_destruction_" ++ profile
            ++ "_" ++ now ++ ".json")%string as file eqn:Hfile.
  assert (H : exists code st',
    TargetedS3Script.main profile now w
      (mkSt tr o TargetedS3.initial_results) = (Ok code, st') /\
    (code = 0 \/ code = 1)%Z /\
    map TargetedS3.bucket_name (TargetedS3.buckets_processed (log st'))
      = TargetedS3Script.TARGET_BUCKETS /\
    (code = 0%Z <->
     Forall (fun b => TargetedS3.status b = "success"%string)
       (TargetedS3.buckets_processed (log st')) /\
     exists h x,
       trace st' = h ++ [WriteFile file] /\ w h (WriteFile file) = Ok x)).
  { unfold TargetedS3Script.main, TargetedS3Script.save_results.
    rewrite <- Hfile. clear Hfile.
    destruct (destroy_target_buckets_spec w TargetedS3Script.TARGET_BUCKETS
                tr o) as (results & st1 & Hr & B1 & B2 & _ & _ & B5 & _).
    unfold try_except. unfold bind at 1. rewrite Hr.
    unfold bind, call, get_log.
    destruct (w (trace st1) (WriteFile file)) as [x | e] eqn:E; cbn.
    - eexists. eexists. split; [reflexivity |]. cbn [log].
      rewrite B1, B5.
      destruct (length (filter _ results)) as [| n] eqn:En; cbn.
      + split; [now left |]. split; [exact B2 |].
        split; [| reflexivity]. intros _.
        split; [now apply no_failure_all_success | eauto].
      + split; [now right |]. split; [exact B2 |].
        split; [discriminate |]. intros [Hall _].
        apply no_failure_all_success in Hall. congruence.
    - eexists. eexists. split; [reflexivity |]. cbn [log trace].
      split; [now right |]. split; [now rewrite B1 |].
      split; [discriminate |]. intros [_ (h & x & Ht & Hx)].
      apply app_inj_tail in Ht. destruct Ht as [<- _]. congruence. }
  destruct H as (code & st' & Hr & H).
  rewrite Hr. cbn [fst snd]. exists code. split; [reflexivity | exact H].
Qed.

(* ------------------------------------------------------------------ *)
(** ** Emptying a bucket: the batches of [delete_objects] *)

Lemma batches_fuel_spec (A : Type) (size : nat) :
  0 < size ->
  forall (fuel : nat) (l : list A),
    length l <= fuel ->
    concat (Py.batches_fuel fuel size l) = l /\
    Forall (fun b => 1 <= length b <= size) (Py.batches_fuel fuel size l).
Proof.
  intros Hs. induction fuel as [| fuel IH]; intros l Hl.
  - destruct l; [| cbn in Hl; lia]. cbn. split; constructor.
  - destruct l as [| a l]; [cbn; split; constructor |].
    cbn [Py.batches_fuel concat].
    assert (Hk : length (skipn size (a :: l)) <= fuel).
    { rewrite length_skipn. cbn [length] in *. lia. }
    destruct (IH _ Hk) as [Hc Hf].
    split.
    + rewrite Hc. apply firstn_skipn.
    + constructor; [| exact Hf].
      rewrite length_firstn. cbn [length]. lia.
Qed.

(** X12.  The batches of a list are a partition of it into runs of at
    most [size] elements: cut as the agents cut the objects of a bucket
    ([l[i:i+size]] for [i] from 0 in steps of [size]), the batches are
    never empty, never longer than [size], and put end to end they give
    the list back, so that no object is left out and none is sent
    twice. *)
Theorem X12_batches_partition (A : Type) (size : nat) (l : list A) :
  0 < size ->
  concat (Py.batches size l) = l /\
  Forall (fun b => 1 <= length b <= size) (Py.batches size l).
Proof.
  intros Hs. unfold Py.batches. now apply batches_fuel_spec.
Qed.

Lemma X12_witness :
  concat (Py.batches 2 [1; 2; 3; 4; 5]) = [1; 2; 3; 4; 5] /\
  Forall (fun b => 1 <= length b <= 2) (Py.batches 2 [1; 2; 3; 4; 5]).
Proof.
  apply (@X12_batches_partition nat 2 [1; 2; 3; 4; 5]). lia.
Defined.

(** A [delete_objects] request within the limit of the service: between
    1 and 1000 keys. *)
Definition within_limit (c : Call) : Prop :=
  match c with
  | DeleteObjects _ objects => 1 <= length objects <= 1000
  | _ => True
  end.

Lemma batch_within_limit (A : Type) (batch l : list A) :
  In batch (Py.batches 1000 l) -> 1 <= length batch <= 1000.
Proof.
  intros H.
  assert (Hs : 0 < 1000) by lia.
  destruct (batches_fuel_spec Hs (fuel := length l) l (le_n _)) as [_ Hf].
  rewrite Forall_forall in Hf. now apply Hf.
Qed.

Ltac limit_leaf :=
  intros; unfold calls;
  first [ apply Forall_nil
        | apply Forall_cons;
          [ first [ exact I | eapply batch_within_limit; eassumption ]
          | apply Forall_nil ] ].

Lemma get_resource_tags_within_limit (w : Oracle) region arn id ty :
  keeps w (calls within_limit) (Sweeper.get_resource_tags region arn id ty).
Proof.
  unfold Sweeper.get_resource_tags, Sweeper.required.
  repeat first [ apply rebuild_tags_calls | keeps_step ]; limit_leaf.
Qed.

(** X13.  No request to delete objects exceeds the limit of the service.
    In the four places where a bucket is emptied (the sweeper, the
    storage agent, the targeted destroyer and the manual destroyer),
    whatever the provider lists, every [delete_objects] call carries at
    least 1 and at most 1000 keys. *)
Theorem X13_delete_objects_within_limit (w : Oracle) (bucket : string) :
  (forall (dry_run : bool) (st : St Sweeper.DeletionLog),
     Forall within_limit
       (emitted st (snd (Sweeper.sweep_bucket dry_run bucket w st)))) /\
  (forall st : St Closure.DestructionLog,
     Forall within_limit
       (emitted st (snd (StorageAgent.destroy_bucket bucket w st)))) /\
  (forall st : St TargetedS3.Results,
     Forall within_limit
       (emitted st (snd (TargetedS3.destroy_bucket bucket w st)))) /\
  (forall st : St ManualS3.Tally,
     Forall within_limit
       (emitted st (snd (ManualS3.destroy_bucket bucket w st)))).
Proof.
  repeat split; intros.
  - apply (@keeps_emitted w _ (calls within_limit)).
    unfold Sweeper.sweep_bucket, Sweeper.record_preserved,
      Sweeper.record_successful, Sweeper.record_failed.
    repeat first [ apply get_resource_tags_within_limit | keeps_step ];
      limit_leaf.
  - apply (@keeps_emitted w _ (calls within_limit)).
    unfold StorageAgent.destroy_bucket. keeps_walk; limit_leaf.
  - apply (@keeps_emitted w _ (calls within_limit)).
    unfold TargetedS3.destroy_bucket, TargetedS3.destroy_bucket_steps,
      TargetedS3.destroy_bucket_failed, TargetedS3.check_bucket_exists,
      TargetedS3.empty_bucket_contents,
      TargetedS3.remove_bucket_configurations,
      TargetedS3.remove_configuration, TargetedS3.get_current,
      TargetedS3.step_completed, TargetedS3.set_status,
      TargetedS3.set_error_type, TargetedS3.set_error_message,
      TargetedS3.set_configurations_removed, TargetedS3.bump_access_denied,
      TargetedS3.bump_policy_restricted, TargetedS3.bump_other_errors,
      TargetedS3.set_current.
    keeps_walk; limit_leaf.
  - apply (@keeps_emitted w _ (calls within_limit)).
    unfold ManualS3.destroy_bucket. keeps_walk; limit_leaf.
Qed.

(* ------------------------------------------------------------------ *)
(** ** The closure agents: every listed resource is attempted *)

(** A block [try: m except: pass] whose calls satisfy [p] and which
    leaves the log alone: the run goes on after it. *)
Lemma bind_try_pass_quiet (w : Oracle) (L B : Type) (p : Call -> Prop)
    (m : M L unit) (k : unit -> M L B) (st : St L) :
  keeps w (quiet p) m ->
  exists e1 st1,
    trace st1 = trace st ++ e1 /\ Forall p e1 /\ log st1 = log st /\
    bind (try_pass m) k w st = k tt w st1.
Proof.
  intros Hm.
  assert (Hk : keeps w (quiet p) (try_pass m))
    by (apply keeps_try_pass; auto with runs).
  destruct (Hk st) as (e1 & Ht & Hf & Hl).
  pose proof (try_pass_returns m w st) as Hr.
  unfold bind. destruct (try_pass m w st) as [r st1]. cbn in *. subst r.
  exists e1, st1. auto.
Qed.

(** Steps over the block [try: ... except: pass] that heads the run. *)
Ltac over_try_pass p w :=
  match goal with
  | |- context [bind (try_pass ?m) ?k w ?st] =>
      let e := fresh "e" in
      let st1 := fresh "st" in
      let Ht := fresh "Ht" in
      let Hf := fresh "Hf" in
      let Hl := fresh "Hl" in
      let Heq := fresh "Heq" in
      destruct (@bind_try_pass_quiet w _ _ p m k st)
        as (e & st1 & Ht & Hf & Hl & Heq);
      [ keeps_walk; quiet_leaf | rewrite Heq; clear Heq; cbv beta ]
  end.

(** The body of the loop of the storage agent: calls that are not
    [delete_bucket], then [delete_bucket] once, on which the entry
    depends. *)
Lemma storage_destroy_bucket_spec (w : Oracle) (bucket : string)
    (st : St Closure.DestructionLog) :
  exists pre st',
    StorageAgent.destroy_bucket bucket w st = (Ok tt, st') /\
    trace st' = trace st ++ pre ++ [DeleteBucket bucket] /\
    Forall not_delete_bucket pre /\
    ((exists x, w (trace st ++ pre) (DeleteBucket bucket) = Ok x /\
        log st'
        = Closure.log_destroyed "s3_bucket" bucket None "s3_buckets" (log st))
     \/ (exists e, w (trace st ++ pre) (DeleteBucket bucket) = Raise e /\
           log st' = Closure.log_failed "s3_bucket" bucket None e (log st))).
Proof.
  unfold StorageAgent.destroy_bucket, try_except.
  do 4 over_try_pass not_delete_bucket w.
  match goal with
  | Ht : trace ?s = _ |- context [bind (call _) _ w ?s] =>
      assert (Htr : trace s = trace st ++ (e ++ e0 ++ e1 ++ e2))
        by (rewrite Ht; repeat match goal with H : trace _ = _ |- _ =>
              rewrite H; clear H end; now rewrite <- !app_assoc);
      assert (Hlog : log s = log st) by congruence
  end.
  exists (e ++ e0 ++ e1 ++ e2).
  unfold bind, call. rewrite Htr.
  destruct (w (trace st ++ e ++ e0 ++ e1 ++ e2) (DeleteBucket bucket))
    as [x | err] eqn:E; cbn.
  - eexists. split; [reflexivity |]. cbn. rewrite Hlog.
    split; [now rewrite <- !app_assoc |].
    split; [repeat (apply Forall_app; split); assumption |].
    left. eauto.
  - eexists. split; [reflexivity |]. cbn. rewrite Hlog.
    split; [now rewrite <- !app_assoc |].
    split; [repeat (apply Forall_app; split); assumption |].
    right. eauto.
Qed.

Lemma no_delete_bucket_filter (l : list Call) :
  Forall not_delete_bucket l -> filter is_delete_bucket l = [].
Proof.
  induction 1 as [| c l Hc _ IH]; cbn; [reflexivity |].
  destruct c; cbn in *; try contradiction; exact IH.
Qed.

(** The number of entries of the two lists of the log of a closure
    agent. *)
Definition recorded (l : Closure.DestructionLog) : nat :=
  length (Closure.destroyed l) + length (Closure.failed l).

Lemma storage_loop_spec (w : Oracle) (names : list string) :
  forall st, exists ext st',
    for_each names StorageAgent.destroy_bucket w st = (Ok tt, st') /\
    trace st' = trace st ++ ext /\
    filter is_delete_bucket ext = map DeleteBucket names /\
    recorded (log st') = recorded (log st) + length names.
Proof.
  induction names as [| b names IH]; intros st.
  - exists [], st. cbn. rewrite app_nil_r. repeat split. lia.
  - cbn [for_each]. unfold bind.
    destruct (storage_destroy_bucket_spec w b st)
      as (pre & st1 & -> & Ht1 & Hpre & Hlog).
    destruct (IH st1) as (ext & st2 & -> & Ht2 & Hf & Hn).
    exists ((pre ++ [DeleteBucket b]) ++ ext), st2.
    split; [reflexivity |].
    split; [rewrite Ht2, Ht1; now rewrite <- !app_assoc |].
    split.
    + rewrite !filter_app, (no_delete_bucket_filter Hpre), Hf. reflexivity.
    + rewrite Hn. unfold recorded.
      destruct Hlog as [(x & _ & ->) | (e & _ & ->)]; cbn;
        rewrite length_app; cbn; lia.
Qed.

(** X14.  The storage agent attempts every bucket the account lists.
    When [list_buckets] answers, [destroy_s3_buckets] returns normally
    and has called [delete_bucket] exactly once for each listed bucket,
    in the order of the listing, whatever went wrong while removing the
    policy or the lifecycle or while emptying the bucket; and each bucket
    has left one entry, in [destroyed] or in [failed]. *)
Theorem X14_storage_attempts_every_bucket (w : Oracle) (names : list string)
    (st : St Closure.DestructionLog) :
  w (trace st) ListBuckets = Ok (RBuckets names) ->
  let r := StorageAgent.destroy_s3_buckets w st in
  fst r = Ok tt /\
  filter is_delete_bucket (emitted st (snd r)) = map DeleteBucket names /\
  recorded (log (snd r)) = recorded (log st) + length names.
Proof.
  intros Hw r. subst r.
  assert (H : exists ext st',
    StorageAgent.destroy_s3_buckets w st = (Ok tt, st') /\
    trace st' = trace st ++ ext /\
    filter is_delete_bucket ext = map DeleteBucket names /\
    recorded (log st') = recorded (log st) + length names).
  { unfold StorageAgent.destroy_s3_buckets, try_pass, try_except.
    unfold bind at 1. unfold call at 1. rewrite Hw.
    unfold bind at 1. cbn [ret].
    destruct (storage_loop_spec w names
                (mkSt (trace st ++ [ListBuckets]) (out st) (log st)))
      as (ext & st' & -> & Ht & Hf & Hn).
    exists ([ListBuckets] ++ ext), st'.
    split; [reflexivity |].
    split; [rewrite Ht; cbn; now rewrite <- app_assoc |].
    split; [exact Hf | exact Hn]. }
  destruct H as (ext & st' & -> & Ht & Hf & Hn). cbn [fst snd].
  rewrite (emitted_app _ _ _ Ht). auto.
Qed.

(** A provider with two buckets, one of which refuses to be deleted. *)
Definition stubborn_world : Oracle :=
  fun _ c =>
    match c with
    | ListBuckets => Ok (RBuckets ["tmp-exports"; "billing-raw"]%string)
    | DeleteBucket b =>
        if String.eqb b "billing-raw"
        then Raise (ClientError "BucketNotEmpty" "The bucket is not empty")
        else Ok RNone
    | _ => Ok RNone
    end.

Lemma X14_witness :
  let st := mkSt [] ""%string StorageAgent.initial_log in
  let r := StorageAgent.destroy_s3_buckets stubborn_world st in
  fst r = Ok tt /\
  filter is_delete_bucket (emitted st (snd r))
    = map DeleteBucket ["tmp-exports"; "billing-raw"]%string /\
  recorded (log (snd r)) = recorded (log st) + 2.
Proof.
  apply (@X14_storage_attempts_every_bucket stubborn_world
           ["tmp-exports"; "billing-raw"]%string
           (mkSt [] ""%string StorageAgent.initial_log)).
  reflexivity.
Defined.

Definition not_delete_stack (c : Call) : Prop :=
  match c with DeleteStack _ _ => False | _ => True end.

Lemma no_delete_stack (region : string) (l : list Call) :
  Forall not_delete_stack l -> deleted_stacks region l = [].
Proof.
  induction 1 as [| c l Hc _ IH]; cbn; [reflexivity |].
  destruct c; cbn in *; try contradiction; exact IH.
Qed.

Lemma infra_destroy_stack_spec (w : Oracle) (region x : string)
    (st : St Closure.DestructionLog) :
  exists ext st',
    InfraAgent.destroy_stack region x w st = (Ok tt, st') /\
    trace st' = trace st ++ ext /\
    deleted_stacks region ext = [x] /\
    recorded (log st') = recorded (log st) + 1.
Proof.
  unfold InfraAgent.destroy_stack, try_except.
  over_try_pass not_delete_stack w.
  unfold bind, call, sleep.
  assert (Hd : forall tail,
    Forall not_delete_stack tail ->
    deleted_stacks region (e ++ [DeleteStack region x] ++ tail) = [x]).
  { intros tail Htail. unfold deleted_stacks. rewrite !flat_map_app.
    fold (deleted_stacks region e). fold (deleted_stacks region tail).
    rewrite (no_delete_stack region Hf), (no_delete_stack region Htail).
    cbn. now rewrite String.eqb_refl. }
  destruct (w (trace st0) (DeleteStack region x)) as [r | err]; cbn.
  - exists (e ++ [DeleteStack region x] ++ [Sleep 2]). eexists.
    split; [reflexivity |]. cbn [trace log].
    split; [rewrite Ht; now rewrite <- !app_assoc |].
    split; [apply Hd; repeat constructor |].
    rewrite Hl. unfold recorded. cbn. rewrite length_app. cbn. lia.
  - exists (e ++ [DeleteStack region x] ++ []). eexists.
    split; [reflexivity |]. cbn [trace log].
    split; [rewrite Ht; now rewrite <- !app_assoc |].
    split; [apply Hd; constructor |].
    rewrite Hl. unfold recorded. cbn. rewrite length_app. cbn. lia.
Qed.

Lemma infra_stack_loop_spec (w : Oracle) (region : string)
    (stacks : list string) :
  forall st, exists ext st',
    for_each stacks (InfraAgent.destroy_stack region) w st = (Ok tt, st') /\
    trace st' = trace st ++ ext /\
    deleted_stacks region ext = stacks /\
    recorded (log st') = recorded (log st) + length stacks.
Proof.
  induction stacks as [| x stacks IH]; intros st.
  - exists [], st. cbn. rewrite app_nil_r. repeat split. lia.
  - cbn [for_each]. unfold bind.
    destruct (infra_destroy_stack_spec w region x st)
      as (e1 & st1 & -> & Ht1 & Hd1 & Hn1).
    destruct (IH st1) as (e2 & st2 & -> & Ht2 & Hd2 & Hn2).
    exists (e1 ++ e2), st2. split; [reflexivity |].
    split; [rewrite Ht2, Ht1; now rewrite <- app_assoc |].
    split.
    + unfold deleted_stacks in *. now rewrite flat_map_app, Hd1, Hd2.
    + rewrite Hn2, Hn1. cbn. lia.
Qed.

(** X15.  The infrastructure agent attempts every stack a region lists,
    once.  When [list_stacks] answers, [destroy_cloudformation_stacks]
    returns normally and its [delete_stack] calls for the region are the
    listed stacks sorted by priority: each listed stack is deleted once,
    none is skipped because looking up or lifting its termination
    protection failed, and none is deleted twice; each leaves one entry,
    in [destroyed] or in [failed]. *)
Theorem X15_infra_attempts_every_stack (w : Oracle) (region : string)
    (pages : list (list string)) (st : St Closure.DestructionLog) :
  w (trace st) (ListStacks region) = Ok (RStackSummaries pages) ->
  let r := InfraAgent.destroy_cloudformation_stacks region w st in
  let deleted := deleted_stacks region (emitted st (snd r)) in
  fst r = Ok tt /\
  deleted = Py.sorted_by InfraAgent.stack_priority (concat pages) /\
  Permutation (concat pages) deleted /\
  recorded (log (snd r)) = recorded (log st) + length (concat pages).
Proof.
  intros Hw r deleted. subst deleted r.
  assert (H : exists ext st',
    InfraAgent.destroy_cloudformation_stacks region w st = (Ok tt, st') /\
    trace st' = trace st ++ ext /\
    deleted_stacks region ext
      = Py.sorted_by InfraAgent.stack_priority (concat pages) /\
    recorded (log st') = recorded (log st) + length (concat pages)).
  { unfold InfraAgent.destroy_cloudformation_stacks, try_pass, try_except.
    unfold bind at 1. unfold call at 1. rewrite Hw.
    unfold bind at 1. cbn [ret].
    match goal with
    | |- context [match concat pages with [] => ?a | _ :: _ => ?b end] =>
        replace (match concat pages with [] => a | _ :: _ => b end) with b
          by (destruct (concat pages); reflexivity)
    end.
    destruct (infra_stack_loop_spec w region
                (Py.sorted_by InfraAgent.stack_priority (concat pages))
                (mkSt (trace st ++ [ListStacks region]) (out st) (log st)))
      as (ext & st' & -> & Ht & Hd & Hn).
    exists ([ListStacks region] ++ ext), st'.
    split; [reflexivity |].
    split; [rewrite Ht; cbn; now rewrite <- app_assoc |].
    split; [exact Hd |].
    rewrite Hn. cbn [log].
    now rewrite <- (Permutation_length
                      (sorted_by_perm InfraAgent.stack_priority
                         (concat pages))). }
  destruct H as (ext & st' & -> & Ht & Hd & Hn). cbn [fst snd].
  rewrite (emitted_app _ _ _ Ht), Hd.
  repeat split; auto. apply sorted_by_perm.
Qed.

(** A region with three stacks, where one cannot be described. *)
Definition stacks_world : Oracle :=
  fun _ c =>
    match c with
    | ListStacks _ =>
        Ok (RStackSummaries
              [["AWSControlTowerBP-BASELINE"; "billing-api"];
               ["StackSet-Audit-1"]]%string)
    | DescribeStacks _ name =>
        if String.eqb name "billing-api"
        then Raise (ClientError "ValidationError" "does not exist")
        else Ok (RStacks [mkStackDetail None (Some true)])
    | _ => Ok RNone
    end.

Lemma X15_witness :
  let st := mkSt [] ""%string InfraAgent.initial_log in
  let pages :=
    [["AWSControlTowerBP-BASELINE"; "billing-api"];
     ["StackSet-Audit-1"]]%string in
  let r :=
    InfraAgent.destroy_cloudformation_stacks "eu-west-1" stacks_world st in
  let deleted := deleted_stacks "eu-west-1" (emitted st (snd r)) in
  fst r = Ok tt /\
  deleted = Py.sorted_by InfraAgent.stack_priority (concat pages) /\
  Permutation (concat pages) deleted /\
  recorded (log (snd r)) = recorded (log st) + length (concat pages).
Proof.
  apply (@X15_infra_attempts_every_stack stacks_world "eu-west-1"
           [["AWSControlTowerBP-BASELINE"; "billing-api"];
            ["StackSet-Audit-1"]]%string
           (mkSt [] ""%string InfraAgent.initial_log)).
  reflexivity.
Defined.

(* ------------------------------------------------------------------ *)
(** ** The compute agent: instances are terminated together *)

Lemma count_bump_other (key key' : string) (s : list (string * nat)) :
  key <> key' ->
  Closure.count key (Closure.bump key' s) = Closure.count key s.
Proof.
  intros Hk. induction s as [| [k n] s IH]; cbn; [reflexivity |].
  destruct (String.eqb_spec k key'); cbn.
  - destruct (String.eqb_spec k key); [congruence | exact IH].
  - destruct (String.eqb_spec k key); [reflexivity | exact IH].
Qed.

Definition ec2_entry (region instance_id : string) : LogEntry :=
  mkEntry "ec2_instance" instance_id (Some region) None.

(** The loop that records the instances once they are terminated. *)
Lemma record_instances_spec (w : Oracle) (region : string)
    (ids : list string) :
  forall st : St Closure.DestructionLog, exists st',
    for_each ids
      (fun instance_id =>
         modify (Closure.log_destroyed "ec2_instance" instance_id
                   (Some region) "ec2_instances") ;;;
         print ("    ✅ TERMINATED: " ++ instance_id)) w st = (Ok tt, st') /\
    trace st' = trace st /\
    Closure.destroyed (log st')
      = Closure.destroyed (log st) ++ map (ec2_entry region) ids /\
    Closure.failed (log st') = Closure.failed (log st) /\
    Closure.count "failed" (Closure.summary (log st'))
      = Closure.count "failed" (Closure.summary (log st)).
Proof.
  induction ids as [| i ids IH]; intros st.
  - exists st. cbn. rewrite app_nil_r. auto.
  - cbn [for_each]. unfold bind at 1. unfold bind at 1.
    cbn [modify print].
    match goal with
    | |- context [for_each ids ?f w ?s] =>
        destruct (IH s) as (st' & -> & Ht & Hd & Hf & Hc)
    end.
    exists st'. split; [reflexivity |].
    cbn in Ht, Hd, Hf, Hc.
    split; [exact Ht |].
    split; [rewrite Hd; cbn; now rewrite <- app_assoc |].
    split; [exact Hf |].
    rewrite Hc. apply count_bump_other. discriminate.
Qed.

(** X16.  The compute agent terminates the instances of a region in one
    call, and records them together or not at all.
    [destroy_ec2_instances] returns normally whatever the provider
    answers.  It adds to [destroyed] either nothing, or one entry for
    each instance of the region, in the order listed, and this only when
    the single [terminate_instances] call for all of them succeeded.  It
    never adds to [failed] nor counts a failure: an error of the listing
    or of the termination is printed and otherwise lost. *)
Theorem X16_instances_terminated_together (w : Oracle) (region : string)
    (st : St Closure.DestructionLog) :
  let r := ComputeAgent.destroy_ec2_instances region w st in
  let l := log st in
  let l' := log (snd r) in
  fst r = Ok tt /\
  Closure.failed l' = Closure.failed l /\
  Closure.count "failed" (Closure.summary l')
    = Closure.count "failed" (Closure.summary l) /\
  (l' = l \/
   exists ids pre post x,
     emitted st (snd r) = pre ++ [TerminateInstances region ids] ++ post /\
     w (trace st ++ pre) (TerminateInstances region ids) = Ok x /\
     Closure.destroyed l'
       = Closure.destroyed l ++ map (ec2_entry region) ids).
Proof.
  cbv zeta.
  assert (H : exists st',
    ComputeAgent.destroy_ec2_instances region w st = (Ok tt, st') /\
    Closure.failed (log st') = Closure.failed (log st) /\
    Closure.count "failed" (Closure.summary (log st'))
      = Closure.count "failed" (Closure.summary (log st)) /\
    (log st' = log st \/
     exists ids pre post x,
       trace st' = trace st ++ pre ++ [TerminateInstances region ids] ++ post
       /\ w (trace st ++ pre) (TerminateInstances region ids) = Ok x
       /\ Closure.destroyed (log st')
          = Closure.destroyed (log st) ++ map (ec2_entry region) ids)).
  { unfold ComputeAgent.destroy_ec2_instances.
    unfold bind at 1. cbn [print].
    set (st0 := mkSt (trace st) _ (log st)).
    unfold try_except. unfold bind at 1. unfold call at 1.
    destruct (w (trace st0) (DescribeInstances region)) as [resp | e0];
      [| cbn; eexists; split; [reflexivity |]; cbn; auto].
    unfold bind at 1.
    destruct resp;
      try (cbn; eexists; split; [reflexivity |]; cbn; now auto).
    cbn [ret].
    destruct (concat reservations) as [| i ids] eqn:Eids;
      [cbn; eexists; split; [reflexivity |]; cbn; now auto |].
    cbv iota.
    set (all := i :: ids) in *.
    unfold bind at 1. cbn [print trace out log].
    unfold bind at 1.
    match goal with
    | |- context [for_each all ?f w ?s] =>
        assert (Hq : keeps w silent (for_each all f))
          by (keeps_walk; silent_leaf);
        destruct (Hq s) as (e1 & Ht1 & _ & Hl1);
        assert (Hr1 : fst (for_each all f w s) = Ok tt)
          by apply (for_each_try_pass_returns
                      (fun instance_id =>
                         call (ModifyInstanceAttribute region instance_id)
                         ;;; ret tt));
        destruct (for_each all f w s) as [r1 st2]
    end.
    cbn [fst snd trace out log] in Ht1, Hl1, Hr1. subst r1.
    unfold bind at 1. cbn [print trace out log].
    unfold bind at 1. unfold call at 1. cbn [trace out log].
    destruct (w (trace st2) (TerminateInstances region all)) as [x | e2]
      eqn:Et; [| cbn; eexists; split; [reflexivity |]; cbn;
                 rewrite Hl1; now auto].
    match goal with
    | |- context [for_each all ?f w ?s] =>
        destruct (record_instances_spec w region all s)
          as (st4 & -> & Ht4 & Hd4 & Hf4 & Hc4)
    end.
    exists st4. split; [reflexivity |].
    cbn [trace out log] in Ht4, Hd4, Hf4, Hc4. rewrite Hl1 in Hd4, Hf4, Hc4.
    split; [exact Hf4 |]. split; [exact Hc4 |].
    right. exists all, ([DescribeInstances region] ++ e1), [], x.
    split; [rewrite Ht4, Ht1; now rewrite <- !app_assoc |].
    split; [| exact Hd4].
    subst st0. cbn [trace] in Ht1.
    rewrite app_assoc, <- Ht1. exact Et. }
  destruct H as (st' & -> & Hf & Hc & Hd). cbn [fst snd].
  split; [reflexivity |]. split; [exact Hf |]. split; [exact Hc |].
  destruct Hd as [Hd | (ids & pre & post & x & Ht & Hw & Hd)];
    [now left | right].
  exists ids, pre, post, x. split; [| split; assumption].
  now apply emitted_app.
Qed.

(* ------------------------------------------------------------------ *)
(** ** The closure agents: the summary agrees with the lists *)

(** The number of entries of type [ty] in [destroyed]. *)
Definition tally (ty : string) (l : Closure.DestructionLog) : nat :=
  length (filter (fun e => String.eqb (entry_type e) ty)
            (Closure.destroyed l)).

(** The summary each agent should show, computed from its two lists. *)
Definition storage_summary (l : Closure.DestructionLog)
    : list (string * nat) :=
  [("s3_buckets", tally "s3_bucket" l); ("ebs_volumes", 0);
   ("snapshots", 0); ("failed", length (Closure.failed l))]%string.

Definition compute_summary (l : Closure.DestructionLog)
    : list (string * nat) :=
  [("ec2_instances", tally "ec2_instance" l);
   ("lambda_functions", tally "lambda_function" l);
   ("rds_instances", 0); ("rds_clusters", 0); ("ecs_clusters", 0);
   ("failed", length (Closure.failed l))]%string.

Definition infra_summary (l : Closure.DestructionLog)
    : list (string * nat) :=
  [("cloudformation_stacks", tally "cloudformation_stack" l);
   ("vpcs", tally "vpc" l);
   ("security_groups", tally "security_group" l);
   ("internet_gateways", tally "internet_gateway" l);
   ("nat_gateways", tally "nat_gateway" l);
   ("failed", length (Closure.failed l))]%string.

(** Runs that keep the summary equal to [f] of the log. *)
Definition in_step (f : Closure.DestructionLog -> list (string * nat))
    : Inv Closure.DestructionLog :=
  fun _ l l' => Closure.summary l = f l -> Closure.summary l' = f l'.

Lemma closed_in_step f : closed (in_step f).
Proof. split; unfold in_step; auto. Qed.
#[local] Hint Resolve closed_in_step : runs.

Ltac in_step_leaf :=
  intros; unfold in_step; intros Hsum;
  first
    [ exact Hsum
    | unfold Closure.log_destroyed, Closure.log_failed, storage_summary,
        compute_summary, infra_summary, tally in *;
      cbn [Closure.summary Closure.destroyed Closure.failed] in *;
      rewrite Hsum; cbn;
      rewrite ?filter_app, ?length_app; cbn;
      rewrite ?Nat.add_0_r; reflexivity ].

Lemma storage_in_step (w : Oracle) :
  keeps w (in_step storage_summary) StorageAgent.destroy_s3_buckets.
Proof.
  unfold StorageAgent.destroy_s3_buckets, StorageAgent.destroy_bucket.
  keeps_walk; in_step_leaf.
Qed.

Lemma compute_in_step (w : Oracle) (profile now : string) :
  keeps w (in_step compute_summary) (ComputeAgent.main profile now).
Proof.
  unfold ComputeAgent.main, ComputeAgent.destroy_all_compute,
    ComputeAgent.destroy_lambda_functions, ComputeAgent.destroy_function,
    ComputeAgent.destroy_ec2_instances, ComputeAgent.show_count,
    Closure.get_account_id, Closure.describe_regions.
  keeps_walk; in_step_leaf.
Qed.

Lemma infra_in_step (w : Oracle) (file : string) :
  keeps w (in_step infra_summary) (InfraAgent.destroy_all_infrastructure file).
Proof.
  unfold InfraAgent.destroy_all_infrastructure,
    InfraAgent.destroy_cloudformation_stacks, InfraAgent.destroy_stack,
    InfraAgent.destroy_networking, InfraAgent.destroy_nat_gateways,
    InfraAgent.destroy_nat_gateway, InfraAgent.destroy_internet_gateways,
    InfraAgent.destroy_internet_gateway, InfraAgent.destroy_security_groups,
    InfraAgent.destroy_security_group, InfraAgent.destroy_vpcs,
    InfraAgent.destroy_vpc, Closure.describe_regions.
  keeps_walk; in_step_leaf.
Qed.

(** X17.  The summary of a closure agent agrees with its lists.  After
    any run started on the initial log, whatever the provider answers,
    each counter of ['summary'] is the number of entries of its type in
    ['destroyed'] and the counter 'failed' is the number of entries of
    ['failed']: for the S3 pass of the storage agent, for the whole run
    of the compute agent, and for the whole run of the infrastructure
    agent.  The counters the code never touches stay at 0. *)
Theorem X17_summary_agrees_with_lists (w : Oracle) (tr : list Call)
    (o : string) :
  (let l :=
     log (snd (StorageAgent.destroy_s3_buckets w
                 (mkSt tr o StorageAgent.initial_log))) in
   Closure.summary l = storage_summary l) /\
  (forall profile now,
     let l :=
       log (snd (ComputeAgent.main profile now w
                   (mkSt tr o ComputeAgent.initial_log))) in
     Closure.summary l = compute_summary l) /\
  (forall file,
     let l :=
       log (snd (InfraAgent.destroy_all_infrastructure file w
                   (mkSt tr o InfraAgent.initial_log))) in
     Closure.summary l = infra_summary l).
Proof.
  split; [| split]; intros; cbv zeta.
  - destruct (storage_in_step w (mkSt tr o StorageAgent.initial_log))
      as (ext & _ & H). now apply H.
  - destruct (compute_in_step w profile now
                (mkSt tr o ComputeAgent.initial_log)) as (ext & _ & H).
    now apply H.
  - destruct (infra_in_step w file (mkSt tr o InfraAgent.initial_log))
      as (ext & _ & H). now apply H.
Qed.

(* ------------------------------------------------------------------ *)
(** ** The closure agents: what can stop a run *)

Lemma returns_print {L : Type} (w : Oracle) (s : string) :
  returns w (@print L s).
Proof. intros st. now exists tt. Qed.

Lemma returns_try_pass {L : Type} (w : Oracle) (m : M L unit) :
  returns w (try_pass m).
Proof. intros st. exists tt. apply try_pass_returns. Qed.

(** A method that returns hands the run over to what follows. *)
Lemma bind_returns {L B : Type} (w : Oracle) (m : M L unit)
    (k : unit -> M L B) (st : St L) :
  returns w m -> exists st1, bind m k w st = k tt w st1.
Proof.
  intros Hm. unfold bind. pose proof (returns_unit st Hm) as Hr.
  destruct (m w st) as [r st1]. cbn in Hr. subst r. now exists st1.
Qed.

Ltac over_returning w :=
  match goal with
  | |- context [bind ?m ?k w ?st] =>
      let st1 := fresh "st" in
      let Heq := fresh "Heq" in
      destruct (@bind_returns _ _ w m k st) as (st1 & Heq);
      [ | rewrite Heq; clear Heq; cbv beta ]
  end.

(** How a run that lists the regions, works through them and writes its
    results may end. *)
Definition ends_well (w : Oracle) (L : Type) (st : St L)
    (r : res unit * St L) : Prop :=
  fst r = Ok tt \/
  exists e,
    fst r = Raise e /\
    (emitted st (snd r) = [DescribeRegions] \/
     exists h file, w h (WriteFile file) = Raise e).

Lemma infra_ends_well (w : Oracle) (file : string)
    (st : St Closure.DestructionLog) :
  ends_well w st (InfraAgent.destroy_all_infrastructure file w st).
Proof.
  unfold InfraAgent.destroy_all_infrastructure, Closure.describe_regions.
  unfold bind at 1. unfold bind at 1. unfold call at 1.
  assert (He : emitted st
                 (mkSt (trace st ++ [DescribeRegions]) (out st) (log st))
               = [DescribeRegions]) by now apply emitted_app.
  destruct (w (trace st) DescribeRegions) as [resp | e0];
    [| right; exists e0; split; [reflexivity | now left]].
  destruct resp; cbn [ret KeyError raise];
    try (right; eexists; split; [reflexivity | now left]).
  over_returning w;
    [apply returns_for_each; intros; apply returns_try_pass |].
  unfold bind at 1. cbn [sleep].
  over_returning w;
    [apply returns_for_each; intros; apply returns_try_pass |].
  unfold bind, call.
  match goal with
  | |- context [w ?h (WriteFile file)] =>
      destruct (w h (WriteFile file)) as [x | e] eqn:E
  end.
  - now left.
  - right. exists e. split; [reflexivity |]. right. eauto.
Qed.

Lemma compute_ends_well (w : Oracle) (account now : string)
    (st : St Closure.DestructionLog) :
  ends_well w st (ComputeAgent.destroy_all_compute account now w st).
Proof.
  unfold ComputeAgent.destroy_all_compute, Closure.describe_regions,
    ComputeAgent.show_count.
  unfold bind at 1. cbn [print]. unfold bind at 1. cbn [print].
  unfold bind at 1. unfold bind at 1. unfold call at 1.
  cbn [trace out log].
  match goal with
  | |- ends_well w st (match match w ?h DescribeRegions with _ => _ end
                       with _ => _ end) =>
      assert (He : forall o,
                emitted st (mkSt (h ++ [DescribeRegions]) o (log st))
                = [DescribeRegions]) by (intros; now apply emitted_app);
      destruct (w h DescribeRegions) as [resp | e0]
  end; [| right; exists e0; split; [reflexivity | left; apply He]].
  destruct resp; cbn [ret KeyError raise];
    try (right; eexists; split; [reflexivity | left; apply He]).
  over_returning w;
    [apply returns_for_each; intros; apply returns_try_except; intros;
     apply returns_print |].
  unfold bind at 1. unfold call at 1.
  match goal with
  | |- context [w ?h (WriteFile ?f)] =>
      destruct (w h (WriteFile f)) as [x | e] eqn:E
  end.
  - left. reflexivity.
  - right. exists e. split; [reflexivity |]. right. eauto.
Qed.

(** X18.  Only two failures stop a closure agent.  Whatever the provider
    answers, a run of [destroy_all_compute] or of
    [destroy_all_infrastructure] returns normally, or raises in one of
    two cases only: the listing of the regions is the single call the
    run issued, or the exception is one that the writing of a file
    raises.  No error met while working in a region escapes. *)
Theorem X18_only_listing_or_writing_stops_a_run (w : Oracle) :
  (forall account now (st : St Closure.DestructionLog),
     ends_well w st (ComputeAgent.destroy_all_compute account now w st)) /\
  (forall file (st : St Closure.DestructionLog),
     ends_well w st (InfraAgent.destroy_all_infrastructure file w st)).
Proof.
  split; intros.
  - apply compute_ends_well.
  - apply infra_ends_well.
Qed.

(* ------------------------------------------------------------------ *)
(** ** The networking pass: route tables and internet gateways *)

(** A route table that an answer to [describe_route_tables] listed with
    no main association. *)
Definition listed_side_route_table (w : Oracle) (region id : string) : Prop :=
  exists h vpc rts rt,
    w h (DescribeRouteTables region vpc) = Ok (RRouteTables rts) /\
    In rt rts /\ rt_Id rt = id /\
    Forall (fun main => main = false) (rt_AssociationsMain rt).

Definition spares_main (w : Oracle) (c : Call) : Prop :=
  match c with
  | DeleteRouteTable region id => listed_side_route_table w region id
  | _ => True
  end.

Lemma keeps_when_true (w : Oracle) (L : Type) (I : Inv L) (b : bool)
    (m : M L unit) :
  closed I -> (b = true -> keeps w I m) -> keeps w I (when b m).
Proof.
  intros Hc Hm. destruct b; cbn; [auto | apply keeps_ret; auto].
Qed.

Lemma no_main_association (l : list bool) :
  negb (existsb (fun main => main) l) = true ->
  Forall (fun main => main = false) l.
Proof.
  intros H. apply negb_true_iff in H.
  apply Forall_forall. intros b Hb. destruct b; [| reflexivity].
  assert (Ht : existsb (fun main => main) l = true)
    by (apply existsb_exists; eauto).
  congruence.
Qed.

Ltac main_leaf :=
  intros; unfold calls;
  first
    [ apply Forall_nil
    | apply Forall_cons;
      [ first
          [ exact I
          | cbn; eexists; eexists; eexists; eexists;
            split; [eassumption |];
            split; [eassumption |];
            split; [reflexivity | now apply no_main_association] ]
      | apply Forall_nil ] ].

Lemma networking_spares_main (w : Oracle) (region : string) :
  keeps w (calls (spares_main w)) (InfraAgent.destroy_networking region).
Proof.
  unfold InfraAgent.destroy_networking, InfraAgent.destroy_nat_gateways,
    InfraAgent.destroy_internet_gateways, InfraAgent.destroy_security_groups,
    InfraAgent.destroy_vpcs, InfraAgent.destroy_nat_gateway,
    InfraAgent.destroy_internet_gateway, InfraAgent.destroy_security_group,
    InfraAgent.destroy_vpc.
  repeat first
    [ apply keeps_when_true; [auto with runs | intros ?] | keeps_step ];
    main_leaf.
Qed.

(** X19.  The networking pass never deletes the main route table of a
    network.  Every [delete_route_table] call of [destroy_networking] is
    for a route table that [describe_route_tables] listed in the region
    with no association marked Main; a table with a main association is
    left to go with its network. *)
Theorem X19_main_route_table_is_spared (w : Oracle) (region : string)
    (st : St Closure.DestructionLog) :
  Forall (spares_main w)
    (emitted st (snd (InfraAgent.destroy_networking region w st))).
Proof.
  apply (@keeps_emitted w _ (calls (spares_main w))).
  apply networking_spares_main.
Qed.

(** The loop that detaches a gateway: it goes through every attachment,
    or stops at the first detachment that raises. *)
Lemma detach_loop_spec (w : Oracle) (region igw_id : string)
    (vpcs : list string) :
  forall st : St Closure.DestructionLog,
    let detaches := map (DetachInternetGateway region igw_id) vpcs in
    exists r st',
      for_each vpcs
        (fun vpc_id =>
           call (DetachInternetGateway region igw_id vpc_id) ;;; ret tt)
        w st = (r, st') /\
      log st' = log st /\
      ((r = Ok tt /\ trace st' = trace st ++ detaches)
       \/ (exists n e,
             n < length vpcs /\ r = Raise e /\
             trace st' = trace st ++ firstn (S n) detaches)).
Proof.
  induction vpcs as [| v vpcs IH]; intros st; cbv zeta.
  - exists (Ok tt), st. cbn. rewrite app_nil_r. auto.
  - cbn [for_each map]. unfold bind at 1. unfold bind at 1.
    unfold call at 1.
    destruct (w (trace st) (DetachInternetGateway region igw_id v))
      as [x | e].
    + cbn [ret].
      destruct (IH (mkSt (trace st
                          ++ [DetachInternetGateway region igw_id v])
                      (out st) (log st)))
        as (r & st' & -> & Hl & H).
      exists r, st'. split; [reflexivity |]. split; [exact Hl |].
      destruct H as [[-> Ht] | (n & e & Hn & -> & Ht)].
      * left. split; [reflexivity |].
        rewrite Ht. cbn. now rewrite <- app_assoc.
      * right. exists (S n), e. split; [cbn; lia |].
        split; [reflexivity |].
        rewrite Ht. cbn. now rewrite <- app_assoc.
    + eexists. eexists. split; [reflexivity |]. cbn.
      split; [reflexivity |]. right. exists 0, e.
      split; [lia |]. split; reflexivity.
Qed.

(** X20.  An internet gateway is deleted only once it is detached from
    every network.  The loop body of the gateways returns normally.
    Either one of the detachments raised: then no later call is issued,
    [delete_internet_gateway] among them, and the gateway is recorded in
    [failed]; or the gateway was detached from all its attachments, in
    their order, and [delete_internet_gateway] was called once, the
    gateway being recorded in [destroyed] when the call returned and in
    [failed] when it raised. *)
Theorem X20_gateway_detached_before_deleted (w : Oracle) (region : string)
    (igw : InternetGateway) (st : St Closure.DestructionLog) :
  let r := InfraAgent.destroy_internet_gateway region igw w st in
  let id := igw_Id igw in
  let detaches :=
    map (DetachInternetGateway region id) (igw_Attachments igw) in
  fst r = Ok tt /\
  ((exists n e,
      n < length detaches /\
      emitted st (snd r) = firstn (S n) detaches /\
      log (snd r)
        = Closure.log_failed "internet_gateway" id (Some region) e (log st))
   \/ (emitted st (snd r) = detaches ++ [DeleteInternetGateway region id] /\
       ((exists x,
           w (trace st ++ detaches) (DeleteInternetGateway region id) = Ok x /\
           log (snd r)
             = Closure.log_destroyed "internet_gateway" id (Some region)
                 "internet_gateways" (log st))
        \/ (exists e,
              w (trace st ++ detaches) (DeleteInternetGateway region id)
                = Raise e /\
              log (snd r)
                = Closure.log_failed "internet_gateway" id (Some region) e
                    (log st))))).
Proof.
  cbv zeta.
  set (id := igw_Id igw).
  set (detaches := map (DetachInternetGateway region id) (igw_Attachments igw)).
  assert (H : exists st',
    InfraAgent.destroy_internet_gateway region igw w st = (Ok tt, st') /\
    ((exists n e,
        n < length detaches /\
        trace st' = trace st ++ firstn (S n) detaches /\
        log st'
          = Closure.log_failed "internet_gateway" id (Some region) e (log st))
     \/ (trace st' = trace st ++ detaches
                     ++ [DeleteInternetGateway region id] /\
         ((exists x,
             w (trace st ++ detaches) (DeleteInternetGateway region id)
               = Ok x /\
             log st'
               = Closure.log_destroyed "internet_gateway" id (Some region)
                   "internet_gateways" (log st))
          \/ (exists e,
                w (trace st ++ detaches) (DeleteInternetGateway region id)
                  = Raise e /\
                log st'
                  = Closure.log_failed "internet_gateway" id (Some region) e
                      (log st)))))).
  { unfold InfraAgent.destroy_internet_gateway. cbv zeta. fold id.
    unfold try_except. unfold bind at 1.
    destruct (detach_loop_spec w region id (igw_Attachments igw) st)
      as (r1 & st1 & -> & Hl & [[-> Ht] | (n & e & Hn & -> & Ht)]).
    - fold detaches in Ht. unfold bind, call. rewrite Ht.
      destruct (w (trace st ++ detaches) (DeleteInternetGateway region id))
        as [x | e] eqn:E; cbn.
      + eexists. split; [reflexivity |]. right. cbn.
        split; [now rewrite <- app_assoc |]. left. exists x.
        split; [reflexivity |]. now rewrite Hl.
      + eexists. split; [reflexivity |]. right. cbn.
        split; [now rewrite <- app_assoc |]. right. exists e.
        split; [reflexivity |]. now rewrite Hl.
    - fold detaches in Ht. cbn. eexists. split; [reflexivity |]. left.
      exists n, e. cbn. subst detaches. rewrite length_map.
      split; [exact Hn |]. split; [exact Ht |]. now rewrite Hl. }
  destruct H as (st' & -> & H). cbn [fst snd]. split; [reflexivity |].
  destruct H as [(n & e & Hn & Ht & Hl) | (Ht & H)].
  - left. exists n, e. split; [exact Hn |].
    split; [now apply emitted_app | exact Hl].
  - right. split; [now apply emitted_app | exact H].
Qed.

(* ------------------------------------------------------------------ *)
(** ** The regions of a closure agent *)

(** X21.  The regions a closure agent goes through.  [all_regions]
    starts with the four priority regions, whether or not the account
    lists them, and goes on with the other listed regions in the order
    of the listing; a region is in it exactly when it is a priority
    region or a listed one; and when the listing names no region twice,
    no region is gone through twice. *)
Theorem X21_all_regions_cover_the_listing (regions : list string) :
  firstn 4 (Closure.all_regions regions) = Closure.priority_regions /\
  (forall r,
     In r (Closure.all_regions regions) <->
     In r Closure.priority_regions \/ In r regions) /\
  (forall a b i j,
     nth_error regions i = Some a -> nth_error regions j = Some b ->
     i < j -> ~ In a Closure.priority_regions ->
     ~ In b Closure.priority_regions ->
     exists i' j',
       nth_error (Closure.all_regions regions) i' = Some a /\
       nth_error (Closure.all_regions regions) j' = Some b /\ i' < j') /\
  (NoDup regions -> NoDup (Closure.all_regions regions)).
Proof.
  assert (Hp : forall r,
    existsb (String.eqb r) Closure.priority_regions = true <->
    In r Closure.priority_regions).
  { intros r. rewrite existsb_exists. split.
    - intros (x & Hin & Hx). apply String.eqb_eq in Hx. now subst x.
    - intros Hin. exists r. split; [exact Hin | apply String.eqb_refl]. }
  split; [reflexivity |]. split; [| split].
  - intros r. unfold Closure.all_regions. rewrite in_app_iff, filter_In.
    split.
    + intros [H | [H _]]; auto.
    + intros [H | H]; [now left |].
      destruct (existsb (String.eqb r) Closure.priority_regions) eqn:E.
      * left. now apply Hp.
      * right. split; [exact H | reflexivity].
  - intros a b i j Ha Hb Hij Hna Hnb.
    assert (Hf : forall (l : list string) i j,
      nth_error l i = Some a -> nth_error l j = Some b -> i < j ->
      exists i' j',
        nth_error
          (filter (fun r => negb (existsb (String.eqb r)
                                    Closure.priority_regions)) l) i'
          = Some a /\
        nth_error
          (filter (fun r => negb (existsb (String.eqb r)
                                    Closure.priority_regions)) l) j'
          = Some b /\ i' < j').
    { assert (Hkeep : forall x, ~ In x Closure.priority_regions ->
        negb (existsb (String.eqb x) Closure.priority_regions) = true).
      { intros x Hx. apply negb_true_iff.
        destruct (existsb (String.eqb x) Closure.priority_regions) eqn:E;
          [| reflexivity]. apply Hp in E. contradiction. }
      clear i j Ha Hb Hij.
      induction l as [| x l IH]; intros i j Ha Hb Hij.
      - destruct i; discriminate.
      - destruct j as [| j]; [lia |]. cbn in Hb.
        destruct i as [| i]; cbn in Ha.
        + injection Ha as ->. cbn [filter]. rewrite (Hkeep a Hna).
          assert (Hin : In b (filter
                     (fun r => negb (existsb (String.eqb r)
                                       Closure.priority_regions)) l)).
          { apply filter_In. split; [eapply nth_error_In; eauto |].
            now apply Hkeep. }
          apply In_nth_error in Hin. destruct Hin as (j' & Hj').
          exists 0, (S j'). repeat split; auto. lia.
        + destruct (IH i j Ha Hb) as (i' & j' & Hi' & Hj' & Hlt); [lia |].
          cbn [filter].
          destruct (negb (existsb (String.eqb x) Closure.priority_regions)).
          * exists (S i'), (S j'). repeat split; auto. lia.
          * exists i', j'. auto. }
    destruct (Hf regions i j Ha Hb Hij) as (i' & j' & Hi' & Hj' & Hlt).
    exists (4 + i'), (4 + j'). unfold Closure.all_regions.
    repeat split; [exact Hi' | exact Hj' | lia].
  - apply all_regions_NoDup.
Qed.

(* ------------------------------------------------------------------ *)
(** ** The account-closure orchestrator: status and scan *)

(** What [run_agent] makes of a launch: the process returned with a
    code, and the status is 'success' for 0 and 'failed' otherwise; or
    there is no code, and the status is 'timeout' or 'error'. *)
Definition launch_outcome (w : Oracle) (profile : string)
    (p : Orchestrator.PhaseResult) : Prop :=
  (exists h script returncode text err,
     w h (RunPython script profile) = Ok (RProcess returncode text err) /\
     Orchestrator.return_code p = Some returncode /\
     Orchestrator.status p
       = (if Z.eqb returncode 0 then "success" else "failed")%string)
  \/ (Orchestrator.return_code p = None /\
      (Orchestrator.status p = "timeout"%string \/
       Orchestrator.status p = "error"%string)).

Lemma run_agent_outcome (w : Oracle) (profile script name : string)
    (st : St Orchestrator.ClosureLog) :
  exists p st',
    Orchestrator.run_agent profile script name w st = (Ok p, st') /\
    log st' = log st /\
    launch_outcome w profile p.
Proof.
  unfold Orchestrator.run_agent, try_except, bind, call, launch_outcome.
  cbv zeta.
  remember (Orchestrator.agents_dir ++ "/" ++ script)%string as path
    eqn:Hpath.
  clear Hpath.
  destruct (w (trace st) (Chmod path)) as [r0 | e0]; cbn.
  2: { destruct e0; eexists; eexists; (split; [reflexivity |]); cbn;
       (split; [reflexivity |]); right; auto. }
  destruct (w (trace st ++ [Chmod path]) (RunPython path profile))
    as [r1 | e1] eqn:E1; cbn.
  2: { destruct e1; eexists; eexists; (split; [reflexivity |]); cbn;
       (split; [reflexivity |]); right; auto. }
  destruct r1; cbn;
    eexists; eexists; (split; [reflexivity |]); cbn;
    (split; [reflexivity |]);
    try (right; split; [reflexivity | now right]).
  left. exists (trace st ++ [Chmod path]), path, returncode, stdout, stderr.
  auto.
Qed.

Lemma launch_success (w : Oracle) (profile : string)
    (p : Orchestrator.PhaseResult) :
  launch_outcome w profile p ->
  (Orchestrator.status p = "success"%string <->
   Orchestrator.return_code p = Some 0%Z).
Proof.
  intros [(h & script & rc & text & err & _ & Hc & Hs) | (Hc & Hs)].
  - rewrite Hc, Hs. destruct (Z.eqb_spec rc 0).
    + subst rc. split; reflexivity.
    + split; [discriminate | congruence].
  - rewrite Hc. split; [| discriminate].
    destruct Hs as [-> | ->]; discriminate.
Qed.

Lemma orchestrate_outcomes (w : Oracle) (profile now : string)
    (tr : list Call) (o : string) :
  exists storage compute infra r st',
    Orchestrator.orchestrate_account_closure profile now w
      (mkSt tr o Orchestrator.initial_log) = (r, st') /\
    launch_outcome w profile storage /\
    launch_outcome w profile compute /\
    launch_outcome w profile infra /\
    Orchestrator.phases (log st')
      = [("storage"%string, storage); ("compute"%string, compute);
         ("infrastructure"%string, infra)] /\
    Orchestrator.completion_status (log st')
      = (if String.eqb (Orchestrator.status storage) "success"
            && (String.eqb (Orchestrator.status compute) "success"
                && (String.eqb (Orchestrator.status infra) "success" && true))
         then "completed" else "partial")%string.
Proof.
  unfold Orchestrator.orchestrate_account_closure.
  destruct (run_agent_outcome w profile "storage_destruction_agent.py"
              "Storage" (mkSt tr o Orchestrator.initial_log))
    as (ps & st1 & Hr1 & Hl1 & Ho1).
  unfold bind at 1. rewrite Hr1.
  unfold bind at 1. cbn [Orchestrator.set_phase modify].
  rewrite Hl1. cbn [log Orchestrator.phases Orchestrator.initial_log
                    Orchestrator.dict_set].
  unfold bind at 1.
  match goal with
  | |- context [Orchestrator.run_agent profile
                  "compute_destruction_agent.py" "Compute" w ?s] =>
      destruct (run_agent_outcome w profile "compute_destruction_agent.py"
                  "Compute" s) as (pc & st2 & Hr2 & Hl2 & Ho2)
  end.
  rewrite Hr2.
  unfold bind at 1. cbn [Orchestrator.set_phase modify].
  rewrite Hl2. cbn [log Orchestrator.phases].
  unfold bind at 1. cbn [sleep trace out log].
  unfold bind at 1.
  match goal with
  | |- context [Orchestrator.run_agent profile
                  "infrastructure_destruction_agent.py" "Infrastructure"
                  w ?s] =>
      destruct (run_agent_outcome w profile
                  "infrastructure_destruction_agent.py" "Infrastructure" s)
        as (pi & st3 & Hr3 & Hl3 & Ho3)
  end.
  rewrite Hr3.
  unfold bind at 1. cbn [Orchestrator.set_phase modify].
  rewrite Hl3. cbn [log Orchestrator.phases].
  unfold bind at 1. cbn [Orchestrator.summarise modify log
                         Orchestrator.phases].
  exists ps, pc, pi.
  match goal with
  | |- context [bind (call (WriteFile ?f)) ?k w ?s] =>
      assert (Hlast : exists r st',
                bind (call (WriteFile f)) k w s = (r, st') /\
                log st' = log s)
  end.
  { unfold bind, call.
    repeat match goal with
    | |- context [w ?h (WriteFile ?f)] => destruct (w h (WriteFile f))
    end; cbn; eexists; eexists; split; reflexivity. }
  destruct Hlast as (r & st' & -> & Hl).
  exists r, st'. split; [reflexivity |].
  rewrite Hl. cbn.
  repeat split; auto.
Qed.

(** X22.  The completion status of an account closure tells whether
    the three agents all exited with status 0.  Started on the initial
    log, [orchestrate_account_closure] records the three phases storage,
    compute and infrastructure, whatever happened to the agents; each
    phase is the outcome of its launch; and the run is 'completed'
    exactly when the three agents returned the code 0, and 'partial'
    otherwise (an agent that failed, timed out or could not be
    launched). *)
Theorem X22_completed_iff_all_agents_succeeded (w : Oracle)
    (profile now : string) (tr : list Call) (o : string) :
  let l :=
    log (snd (Orchestrator.orchestrate_account_closure profile now w
                (mkSt tr o Orchestrator.initial_log))) in
  exists storage compute infra,
    Orchestrator.phases l
      = [("storage"%string, storage); ("compute"%string, compute);
         ("infrastructure"%string, infra)] /\
    launch_outcome w profile storage /\
    launch_outcome w profile compute /\
    launch_outcome w profile infra /\
    (Orchestrator.completion_status l = "completed"%string \/
     Orchestrator.completion_status l = "partial"%string) /\
    (Orchestrator.completion_status l = "completed"%string <->
     Orchestrator.return_code storage = Some 0%Z /\
     Orchestrator.return_code compute = Some 0%Z /\
     Orchestrator.return_code infra = Some 0%Z).
Proof.
  cbv zeta.
  destruct (orchestrate_outcomes w profile now tr o)
    as (ps & pc & pi & r & st' & -> & H1 & H2 & H3 & Hp & Hc).
  cbn [snd]. exists ps, pc, pi.
  split; [exact Hp |]. split; [exact H1 |]. split; [exact H2 |].
  split; [exact H3 |].
  rewrite Hc.
  rewrite <- (launch_success H1), <- (launch_success H2),
    <- (launch_success H3).
  rewrite andb_true_r.
  destruct (String.eqb_spec (Orchestrator.status ps) "success");
    destruct (String.eqb_spec (Orchestrator.status pc) "success");
    destruct (String.eqb_spec (Orchestrator.status pi) "success"); cbn;
    (split; [auto |]); split; try discriminate; try tauto.
Qed.

(** X23.  The scan counts no failure before the first line of
    destroyed resources.  When no line of the output mentions
    'destroyed:' or 'complete!', [scan_output] reports 0 resources
    destroyed and 0 failures, however many lines mention 'failed:': the
    module [re] is imported in the branch of the destroyed lines only,
    and before that import the branch of the failed lines raises and is
    passed over. *)
Theorem X23_failures_need_a_destroyed_line (text : string) :
  (forall line, In line (Py.split_lines text) ->
     Py.contains "destroyed:" (Py.lower line)
     || Py.contains "complete!" (Py.lower line) = false) ->
  Orchestrator.scan_output text = Orchestrator.mkCounts false 0 0.
Proof.
  unfold Orchestrator.scan_output.
  generalize (Py.split_lines text). intros lines H.
  induction lines as [| line lines IH]; cbn [fold_left]; [reflexivity |].
  assert (Hs : Orchestrator.scan_line (Orchestrator.mkCounts false 0 0) line
               = Orchestrator.mkCounts false 0 0).
  { unfold Orchestrator.scan_line. cbv zeta.
    rewrite (H line (or_introl eq_refl)). cbn.
    destruct (Py.contains "failed:" (Py.lower line)); reflexivity. }
  rewrite Hs. apply IH. intros l Hl. apply H. now right.
Qed.

Lemma X23_witness :
  Orchestrator.scan_output
    ("    ❌ FAILED: vpc-7 - DependencyViolation" ++ Py.nl ++ "  Failed: 1")
  = Orchestrator.mkCounts false 0 0.
Proof.
  apply (X23_failures_need_a_destroyed_line
           ("    ❌ FAILED: vpc-7 - DependencyViolation" ++ Py.nl
            ++ "  Failed: 1")).
  vm_compute. intros line [<- | [<- | []]]; reflexivity.
Defined.

(* ------------------------------------------------------------------ *)
(** ** The complete-closure orchestrator: the command-line phase *)

(** The query by which [run_cli_nuke] lists the regions. *)
Definition list_regions_query (profile : string) : Call :=
  AwsCli ["ec2"; "describe-regions"; "--profile"; profile; "--query";
          "Regions[].RegionName"; "--output"; "text"]%string.

Lemma shell_loop_spec (w : Oracle) (L : Type) (cmds : list string) :
  forall st : St L, exists st',
    for_each cmds (fun cmd => try_pass (call (Shell cmd) ;;; ret tt)) w st
      = (Ok tt, st') /\
    trace st' = trace st ++ map Shell cmds /\ log st' = log st.
Proof.
  induction cmds as [| cmd cmds IH]; intros st.
  - exists st. cbn. now rewrite app_nil_r.
  - cbn [for_each]. unfold bind at 1.
    assert (H1 : exists st1,
      try_pass (call (Shell cmd) ;;; ret tt) w st = (Ok tt, st1) /\
      trace st1 = trace st ++ [Shell cmd] /\ log st1 = log st).
    { unfold try_pass, try_except, bind, call.
      destruct (w (trace st) (Shell cmd)); cbn; eexists; repeat split. }
    destruct H1 as (st1 & -> & Ht1 & Hl1).
    destruct (IH st1) as (st2 & -> & Ht2 & Hl2).
    exists st2. split; [reflexivity |].
    split; [rewrite Ht2, Ht1; cbn; now rewrite <- app_assoc | congruence].
Qed.

(** The commands of a run over [regions]. *)
Definition nuke_all (profile : string) (regions : list string) : list Call :=
  flat_map
    (fun region => map Shell (CompleteOrchestrator.nuke_commands profile region))
    regions.

Lemma nuke_regions_spec (w : Oracle) (profile : string)
    (regions : list string) :
  forall st : St CompleteOrchestrator.OrchestrationLog, exists st',
    for_each regions
      (fun region => try_pass (CompleteOrchestrator.nuke_region profile region))
      w st = (Ok tt, st') /\
    trace st' = trace st ++ nuke_all profile regions /\ log st' = log st.
Proof.
  induction regions as [| region regions IH]; intros st.
  - exists st. cbn. now rewrite app_nil_r.
  - cbn [for_each]. unfold bind at 1.
    assert (H1 : exists st1,
      try_pass (CompleteOrchestrator.nuke_region profile region) w st
        = (Ok tt, st1) /\
      trace st1
        = trace st
          ++ map Shell (CompleteOrchestrator.nuke_commands profile region) /\
      log st1 = log st).
    { unfold try_pass, try_except, CompleteOrchestrator.nuke_region.
      destruct (shell_loop_spec w
                  (CompleteOrchestrator.nuke_commands profile region) st)
        as (st1 & -> & Ht1 & Hl1).
      exists st1. auto. }
    destruct H1 as (st1 & -> & Ht1 & Hl1).
    destruct (IH st1) as (st2 & -> & Ht2 & Hl2).
    exists st2. split; [reflexivity |].
    split; [| congruence].
    rewrite Ht2, Ht1. unfold nuke_all. cbn [flat_map].
    now rewrite <- app_assoc.
Qed.

(** X24.  The command-line phase runs only on the regions it could
    list, and an error stops neither a region nor the phase.
    [run_cli_nuke] returns normally and leaves the log alone.  It first
    queries the regions; when the query raises or exits with a non-zero
    status nothing more is run; when it exits with 0, the six deleting
    commands of every region named in its output are run, each command
    whether or not the ones before it failed.  (The regions run on a
    thread pool; the model takes them in the order of the output.) *)
Theorem X24_cli_nuke_runs_listed_regions (w : Oracle) (profile : string)
    (st : St CompleteOrchestrator.OrchestrationLog) :
  let r := CompleteOrchestrator.run_cli_nuke profile w st in
  let query := list_regions_query profile in
  fst r = Ok tt /\
  log (snd r) = log st /\
  emitted st (snd r)
    = query ::
      match w (trace st) query with
      | Ok (RProcess returncode text _) =>
          if Z.eqb returncode 0
          then nuke_all profile
                 (CompleteOrchestrator.words_acc text EmptyString)
          else []
      | _ => []
      end.
Proof.
  cbv zeta.
  assert (H : exists st',
    CompleteOrchestrator.run_cli_nuke profile w st = (Ok tt, st') /\
    log st' = log st /\
    trace st'
      = trace st ++
        list_regions_query profile ::
        match w (trace st) (list_regions_query profile) with
        | Ok (RProcess returncode text _) =>
            if Z.eqb returncode 0
            then nuke_all profile
                   (CompleteOrchestrator.words_acc text EmptyString)
            else []
        | _ => []
        end).
  { unfold CompleteOrchestrator.run_cli_nuke, try_pass at 1, try_except.
    unfold bind at 1. unfold call at 1.
    fold (list_regions_query profile).
    destruct (w (trace st) (list_regions_query profile)) as [resp | e];
      [| cbn; eexists; repeat split].
    destruct resp; try (cbn; eexists; repeat split; reflexivity).
    unfold when.
    destruct (Z.eqb returncode 0); [| cbn; eexists; repeat split].
    destruct (nuke_regions_spec w profile
                (CompleteOrchestrator.words_acc stdout EmptyString)
                (mkSt (trace st ++ [list_regions_query profile]) (out st)
                   (log st)))
      as (st' & -> & Ht & Hl).
    exists st'. split; [reflexivity |]. split; [exact Hl |].
    rewrite Ht. cbn. now rewrite <- app_assoc. }
  destruct H as (st' & -> & Hl & Ht). cbn [fst snd].
  split; [reflexivity |]. split; [exact Hl |].
  now apply emitted_app.
Qed.

(* ------------------------------------------------------------------ *)
(** ** The complete-closure orchestrator: the phases counted *)

(** The effect of [record_phase] on the log. *)
Definition phase_recorded (name status : string)
    (l : CompleteOrchestrator.OrchestrationLog)
    : CompleteOrchestrator.OrchestrationLog :=
  let ok := String.eqb status "success" in
  CompleteOrchestrator.mkLog
    (Orchestrator.dict_set name status (CompleteOrchestrator.phases l))
    (if ok then CompleteOrchestrator.phases_completed l + 1
     else CompleteOrchestrator.phases_completed l)
    (if ok then CompleteOrchestrator.phases_failed l
     else CompleteOrchestrator.phases_failed l + 1).

(** The status [run_agent] gives to the answer to a launch. *)
Definition launch_status (answer : res Response) : string :=
  match answer with
  | Ok (RProcess returncode _ _) =>
      if Z.eqb returncode 0 then "success" else "failed"
  | Ok _ => "error"
  | Raise TimeoutExpired => "timeout"
  | Raise _ => "error"
  end%string.

Lemma complete_run_agent_records (w : Oracle) (profile script phase : string)
    (st : St CompleteOrchestrator.OrchestrationLog) :
  let status := launch_status (w (trace st) (RunPython script profile)) in
  CompleteOrchestrator.run_agent profile script phase w st
  = (Ok (String.eqb status "success"),
     mkSt (trace st ++ [RunPython script profile]) (out st)
       (phase_recorded phase status (log st))).
Proof.
  cbv zeta.
  unfold CompleteOrchestrator.run_agent, try_except, bind, call,
    launch_status.
  destruct (w (trace st) (RunPython script profile)) as [r | e]; cbn.
  - destruct r; cbn; try reflexivity.
    destruct (Z.eqb returncode 0); reflexivity.
  - destruct e; reflexivity.
Qed.

Lemma after_agents_silent (w : Oracle) (profile file : string) :
  keeps w silent
    (sleep 10 ;;;
     CompleteOrchestrator.run_cli_nuke profile ;;;
     CompleteOrchestrator.verify_account_empty profile ;;;
     call (WriteFile file) ;;; ret tt).
Proof.
  unfold CompleteOrchestrator.run_cli_nuke,
    CompleteOrchestrator.verify_account_empty,
    CompleteOrchestrator.nuke_region.
  keeps_walk; intros; silent_leaf.
Qed.

(** X25.  The complete-closure orchestrator counts its two agents, and
    nothing else.  Started on the initial log, a run records the phases
    STORAGE_DESTRUCTION and COMPUTE_DESTRUCTION, each with the status of
    its launch ('success' for the exit status 0, 'failed' for another,
    'timeout', 'error'); [phases_completed] is the number of phases whose
    status is 'success', and it adds up to 2 with [phases_failed]: the
    command-line phase and the verification are never counted, whatever
    they do.  (The two agents run on two threads; the model takes them in
    either order.) *)
Theorem X25_two_phases_counted (w : Oracle) (profile now : string)
    (storage_first : bool) (tr : list Call) (o : string) :
  let l :=
    log (snd (CompleteOrchestrator.run_comprehensive_nuke profile
                storage_first now w
                (mkSt tr o CompleteOrchestrator.initial_log))) in
  map fst (CompleteOrchestrator.phases l)
    = (if storage_first
       then ["STORAGE_DESTRUCTION"; "COMPUTE_DESTRUCTION"]
       else ["COMPUTE_DESTRUCTION"; "STORAGE_DESTRUCTION"])%string /\
  Forall (fun p => In (snd p) ["success"; "failed"; "timeout"; "error"]%string)
    (CompleteOrchestrator.phases l) /\
  CompleteOrchestrator.phases_completed l
    = length (filter (fun p => String.eqb (snd p) "success")
                (CompleteOrchestrator.phases l)) /\
  CompleteOrchestrator.phases_completed l
  + CompleteOrchestrator.phases_failed l = 2.
Proof.
  cbv zeta.
  assert (Hstatus : forall a,
    In (launch_status a) ["success"; "failed"; "timeout"; "error"]%string).
  { intros [r | e]; cbn.
    - destruct r; cbn; auto. destruct (Z.eqb returncode 0); cbn; auto.
    - destruct e; cbn; auto. }
  assert (H : exists s1 s2 st',
    snd (CompleteOrchestrator.run_comprehensive_nuke profile storage_first
           now w (mkSt tr o CompleteOrchestrator.initial_log)) = st' /\
    In s1 ["success"; "failed"; "timeout"; "error"]%string /\
    In s2 ["success"; "failed"; "timeout"; "error"]%string /\
    log st'
    = phase_recorded
        (if storage_first then "COMPUTE_DESTRUCTION"
         else "STORAGE_DESTRUCTION")%string s2
        (phase_recorded
           (if storage_first then "STORAGE_DESTRUCTION"
            else "COMPUTE_DESTRUCTION")%string s1
           CompleteOrchestrator.initial_log)).
  { unfold CompleteOrchestrator.run_comprehensive_nuke,
      CompleteOrchestrator.storage_phase, CompleteOrchestrator.compute_phase.
    match goal with
    | |- context [call (WriteFile ?f)] => remember f as file eqn:Hf; clear Hf
    end.
    destruct storage_first.
    - unfold bind at 1. unfold bind at 1. unfold bind at 1.
      rewrite complete_run_agent_records. cbn [ret].
      unfold bind at 1. rewrite complete_run_agent_records. cbn [ret].
      match goal with
      | |- context [bind (sleep 10) ?k w ?s] =>
          destruct (after_agents_silent w profile file s)
            as (ext & _ & _ & Hl)
      end.
      eexists. eexists. eexists. split; [reflexivity |].
      split; [apply Hstatus |]. split; [apply Hstatus |].
      rewrite Hl. reflexivity.
    - unfold bind at 1. unfold bind at 1. unfold bind at 1.
      rewrite complete_run_agent_records. cbn [ret].
      unfold bind at 1. rewrite complete_run_agent_records. cbn [ret].
      match goal with
      | |- context [bind (sleep 10) ?k w ?s] =>
          destruct (after_agents_silent w profile file s)
            as (ext & _ & _ & Hl)
      end.
      eexists. eexists. eexists. split; [reflexivity |].
      split; [apply Hstatus |]. split; [apply Hstatus |].
      rewrite Hl. reflexivity. }
  destruct H as (s1 & s2 & st' & -> & H1 & H2 & ->).
  unfold phase_recorded. cbn [CompleteOrchestrator.phases
    CompleteOrchestrator.phases_completed CompleteOrchestrator.phases_failed
    CompleteOrchestrator.initial_log].
  destruct storage_first; cbn [Orchestrator.dict_set String.eqb Ascii.eqb
                               Bool.eqb map fst snd filter];
    (split; [reflexivity |]);
    (split; [apply Forall_cons; [exact H1 |];
             apply Forall_cons; [exact H2 | apply Forall_nil] |]);
    destruct (String.eqb s1 "success"), (String.eqb s2 "success");
    cbn; split; reflexivity.
Qed.

(* ------------------------------------------------------------------ *)
(** ** The manual destroyer *)







Example manual_example :
  log (snd (ManualS3.main stubborn_world
              (mkSt [] ""%string (ManualS3.mkTally 0 0))))
  = ManualS3.mkTally 1 1.
Proof. reflexivity. Qed.

(* ------------------------------------------------------------------ *)
(** ** The tagging agent: what is marked for preservation *)

Lemma first_pattern_none (patterns : list (string * string))
    (name : string) :
  TaggingAgent.first_pattern patterns name = None <->
  forall pattern reason, In (pattern, reason) patterns ->
    Py.contains (Py.lower pattern) (Py.lower name) = false.
Proof.
  induction patterns as [| [p r] patterns IH]; cbn.
  - split; [intros _ ? ? [] | reflexivity].
  - destruct (Py.contains (Py.lower p) (Py.lower name)) eqn:E.
    + split; [discriminate |]. intros H.
      specialize (H p r (or_introl eq_refl)). congruence.
    + rewrite IH. split.
      * intros H pattern reason [[= <- <-] | Hin]; eauto.
      * intros H pattern reason Hin. eauto.
Qed.

Lemma first_pattern_some (patterns : list (string * string))
    (name reason : string) :
  TaggingAgent.first_pattern patterns name = Some reason ->
  exists pattern,
    In (pattern, reason) patterns /\
    Py.contains (Py.lower pattern) (Py.lower name) = true.
Proof.
  induction patterns as [| [p r] patterns IH]; cbn; [discriminate |].
  destruct (Py.contains (Py.lower p) (Py.lower name)) eqn:E.
  - intros [= <-]. eauto.
  - intros H. destruct (IH H) as (pattern & Hin & Hc). eauto.
Qed.

(** The name matches one of the preserve patterns, letter case apart. *)
Definition matches_pattern (name : string) : Prop :=
  exists pattern reason,
    In (pattern, reason) TaggingAgent.PRESERVE_PATTERNS /\
    Py.contains (Py.lower pattern) (Py.lower name) = true.

(** The resource type is one the agent preserves whatever the name. *)
Definition preserved_type (resource_type : option string) : Prop :=
  exists ty,
    resource_type = Some ty /\
    (In ty ["AWS::IAM::Role"; "AWS::IAM::User"; "AWS::IAM::Policy"]%string
     \/ Py.startswith ty "AWS::Organizations::" = true
     \/ Py.startswith ty "AWS::ControlTower::" = true).

(** X28.  What the tagging agent marks for preservation.
    [should_preserve_resource] answers True exactly when the name
    contains one of the twelve preserve patterns, letter case apart, or
    the resource type is an IAM role, user or policy, or starts with
    AWS::Organizations:: or AWS::ControlTower::.  The last test of the
    source, a Route53 resource of the company domain, adds nothing: such
    a name already matches the pattern modulairhr.com.  And a True
    answer always comes with a reason. *)
Theorem X28_preserved_by_pattern_or_type (name : string)
    (resource_type : option string) :
  let answer := TaggingAgent.should_preserve_resource name resource_type in
  (fst answer = true <-> matches_pattern name \/ preserved_type resource_type)
  /\ (fst answer = true -> snd answer <> EmptyString)
  /\ (fst answer = false -> snd answer = EmptyString).
Proof.
  cbv zeta. unfold TaggingAgent.should_preserve_resource.
  destruct (TaggingAgent.first_pattern TaggingAgent.PRESERVE_PATTERNS name)
    as [reason |] eqn:E.
  - destruct (first_pattern_some _ _ E) as (pattern & Hin & Hc).
    cbn [fst snd]. split; [| split].
    + split; [| reflexivity]. intros _. left. exists pattern, reason. auto.
    + intros _ ->.
      unfold TaggingAgent.PRESERVE_PATTERNS in Hin. cbn in Hin.
      repeat (destruct Hin as [Hin | Hin]; [discriminate |]).
      exact Hin.
    + discriminate.
  - rewrite first_pattern_none in E.
    assert (Hno : ~ matches_pattern name).
    { intros (pattern & reason & Hin & Hc).
      rewrite (E pattern reason Hin) in Hc. discriminate. }
    assert (Hdomain : Py.contains "modulairhr.com" (Py.lower name) = false).
    { apply (E "modulairhr.com"%string "Company domain resource"%string).
      unfold TaggingAgent.PRESERVE_PATTERNS. cbn. auto 12. }
    destruct resource_type as [ty |].
    2: { cbn [fst snd]. split; [| split; [discriminate | reflexivity]].
         split; [discriminate |].
         intros [H | (ty & Hty & _)]; [contradiction | discriminate]. }
    destruct (Py.is_empty ty) eqn:Eempty.
    { destruct ty; [| discriminate].
      cbn [fst snd]. split; [| split; [discriminate | reflexivity]].
      split; [discriminate |].
      intros [H | (ty & [= <-] & [Hin | [Hs | Hs]])];
        [contradiction | | discriminate | discriminate].
      cbn in Hin. intuition discriminate. }
    destruct (existsb (String.eqb ty) _) eqn:Eiam.
    { cbn [fst snd]. split; [| split; [discriminate | discriminate]].
      split; [| reflexivity]. intros _. right. exists ty.
      split; [reflexivity |]. left.
      apply existsb_exists in Eiam. destruct Eiam as (x & Hin & Hx).
      apply String.eqb_eq in Hx. now subst x. }
    assert (Hniam : ~ In ty ["AWS::IAM::Role"; "AWS::IAM::User";
                             "AWS::IAM::Policy"]%string).
    { intros Hin.
      assert (Ht : existsb (String.eqb ty)
                     ["AWS::IAM::Role"; "AWS::IAM::User";
                      "AWS::IAM::Policy"]%string = true).
      { apply existsb_exists. exists ty. split; [exact Hin |].
        apply String.eqb_refl. }
      congruence. }
    destruct (Py.startswith ty "AWS::Organizations::") eqn:Eorg.
    { cbn [fst snd]. split; [| split; [discriminate | discriminate]].
      split; [| reflexivity]. intros _. right. exists ty. auto. }
    destruct (Py.startswith ty "AWS::ControlTower::") eqn:Ect.
    { cbn [fst snd]. split; [| split; [discriminate | discriminate]].
      split; [| reflexivity]. intros _. right. exists ty. auto. }
    assert (Hnone : ~ preserved_type (Some ty)).
    { intros (ty' & [= <-] & [Hin | [Hs | Hs]]);
        [contradiction | congruence | congruence]. }
    rewrite Hdomain.
    destruct (Py.startswith ty "AWS::Route53::"); cbn [fst snd];
      (split; [| split; [discriminate | reflexivity]]);
      (split; [discriminate |]); intros [H | H]; contradiction.
Qed.

(** X29.  The stacks the infrastructure agent deletes last are stacks
    the tagging agent marks for preservation.  A stack name to which
    [stack_priority] of the closure agent gives the last tier (it
    contains 'controltower' or 'aws-landing-zone', letter case apart)
    matches one of the first two preserve patterns, so that
    [should_preserve_resource] answers True for it, whatever the
    resource type: the closure agent orders these stacks last and
    deletes them nonetheless. *)
Theorem X29_last_tier_is_marked_for_preservation (name : string)
    (resource_type : option string) :
  InfraAgent.stack_priority name = 3 ->
  fst (TaggingAgent.should_preserve_resource name resource_type) = true.
Proof.
  unfold InfraAgent.stack_priority. cbv zeta.
  intros H.
  unfold TaggingAgent.should_preserve_resource,
    TaggingAgent.PRESERVE_PATTERNS.
  cbn [TaggingAgent.first_pattern].
  change (Py.lower "ControlTower") with "controltower"%string.
  change (Py.lower "AWS-Landing-Zone") with "aws-landing-zone"%string.
  destruct (Py.contains "controltower" (Py.lower name)); [reflexivity |].
  destruct (Py.contains "aws-landing-zone" (Py.lower name));
    [reflexivity |].
  cbn in H. destruct (Py.startswith (Py.lower name) "stackset-");
    discriminate.
Qed.

Lemma X29_witness :
  fst (TaggingAgent.should_preserve_resource "AWSControlTowerBP-BASELINE"
         None) = true.
Proof.
  apply (X29_last_tier_is_marked_for_preservation
           "AWSControlTowerBP-BASELINE" None).
  reflexivity.
Defined.

